(** * AnyBrain: the tab / webview orchestration layer of [src/App.tsx]

    A shallow embedding of the first (current) [App] component of
    [src/App.tsx]: the helper functions [normalizeUrl], [deriveNameFromUrl],
    [loadPlatformsAsync], [savePlatformsToFile], the component state, its
    event handlers and its [useEffect] hooks, followed by the properties of
    the specification that were checked against them. *)

From Stdlib Require Import NArith ZArith String Ascii Decimal DecimalString Lia.
From stdpp Require Import base list.

#[local] Open Scope N_scope.

(** ** JavaScript strings

    A JavaScript string is a sequence of UTF-16 code units.  [lit] turns an
    ASCII literal into its code units. *)

Abbreviation jsstring := (list N).

Definition lit (s : string) : jsstring :=
  List.map N_of_ascii (list_ascii_of_string s).

(** [String(n)] for a non-negative integer (template literals such as
    [`tmp-${Date.now()}`]). *)
Definition show_number (n : N) : jsstring :=
  lit (NilZero.string_of_uint (N.to_uint n)).

(** The ECMAScript [WhiteSpace] and [LineTerminator] code points: what
    [String.prototype.trim] strips and what [\s] matches. *)
Definition is_ws (c : N) : bool :=
  (c =? 0x09) || (c =? 0x0A) || (c =? 0x0B) || (c =? 0x0C) || (c =? 0x0D)
  || (c =? 0x20) || (c =? 0xA0) || (c =? 0x1680)
  || ((0x2000 <=? c) && (c <=? 0x200A))
  || (c =? 0x2028) || (c =? 0x2029) || (c =? 0x202F) || (c =? 0x205F)
  || (c =? 0x3000) || (c =? 0xFEFF).

Fixpoint trimStart (s : jsstring) : jsstring :=
  match s with
  | c :: r => if is_ws c then trimStart r else s
  | [] => []
  end.

Definition trimEnd (s : jsstring) : jsstring := rev (trimStart (rev s)).

Definition trim (s : jsstring) : jsstring := trimEnd (trimStart s).

(** JavaScript truthiness of a string: [!s] is [true] exactly for [""]. *)
Definition is_empty (s : jsstring) : bool :=
  match s with [] => true | _ => false end.

Definition str_eqb (a b : jsstring) : bool := bool_decide (a = b).

(** ** [normalizeUrl] (App.tsx, lines 79-84) *)

(** [[a-zA-Z]] *)
Definition is_alpha (c : N) : bool :=
  ((0x41 <=? c) && (c <=? 0x5A)) || ((0x61 <=? c) && (c <=? 0x7A)).

(** [[a-zA-Z\d+\-.]] *)
Definition is_scheme_char (c : N) : bool :=
  is_alpha c || ((0x30 <=? c) && (c <=? 0x39))
  || (c =? 0x2B) || (c =? 0x2D) || (c =? 0x2E).

Fixpoint skip_scheme_chars (s : jsstring) : jsstring :=
  match s with
  | c :: r => if is_scheme_char c then skip_scheme_chars r else s
  | [] => []
  end.

(** [s.startsWith(p)], also the test of a regular expression that is an
    anchored literal. *)
Fixpoint starts_with (p s : jsstring) : bool :=
  match p, s with
  | [], _ => true
  | a :: p', b :: s' => (a =? b) && starts_with p' s'
  | _ :: _, [] => false
  end.

(** [/^[a-zA-Z][a-zA-Z\d+\-.]*:\/\//.test(s)].  Neither [:] nor [/] belongs
    to the character class, so the starred class can only match the maximal
    run and the matcher never needs to back off. *)
Definition has_scheme (s : jsstring) : bool :=
  match s with
  | c :: r => is_alpha c && starts_with (lit "://") (skip_scheme_chars r)
  | [] => false
  end.

Definition normalizeUrl (value : jsstring) : jsstring :=
  let trimmed := trim value in
  if is_empty trimmed then []
  else if has_scheme trimmed then trimmed
  else lit "https://" ++ trimmed.

(** What the regular expression of [normalizeUrl] means, stated on the
    text: a letter, then letters, digits, [+], [-] or [.], then [://]. *)
Definition is_scheme (sch : jsstring) : Prop :=
  exists c cs, sch = c :: cs /\ is_alpha c = true
               /\ Forall (fun x => is_scheme_char x = true) cs.

Definition begins_with_scheme (t : jsstring) : Prop :=
  exists sch rest, is_scheme sch /\ t = sch ++ lit "://" ++ rest.

(** ** [deriveNameFromUrl] (App.tsx, lines 86-93) *)

(** The label [新标签] ("new tab"), as UTF-16 code units. *)
Definition NEW_TAB_LABEL : jsstring := [0x65B0; 0x6807; 0x7B7E].

(** [a || b] on strings. *)
Definition or_else (a b : jsstring) : jsstring :=
  if is_empty a then b else a.

(** [h.replace(/^www\./, '')] *)
Definition strip_www (h : jsstring) : jsstring :=
  if starts_with (lit "www.") h then drop 4 h else h.

(** ** Data model (App.tsx, lines 29-34) *)

Record Platform := mkPlatform {
  id : jsstring;
  name : jsstring;
  url : jsstring;
  hidden : option bool        (* [hidden?: boolean] *)
}.

(** [!!p.hidden] *)
Definition is_hidden (p : Platform) : bool :=
  match hidden p with Some true => true | _ => false end.

Definition set_hidden (b : bool) (p : Platform) : Platform :=
  {| id := id p; name := name p; url := url p; hidden := Some b |}.

(** [!p.url || !p.url.trim()] *)
Definition blank_url (p : Platform) : bool :=
  is_empty (url p) || is_empty (trim (url p)).

Definition has_id (i : jsstring) (p : Platform) : bool := str_eqb (id p) i.

(** [l.length ? l[0].id : ''] *)
Definition first_id (l : list Platform) : jsstring :=
  match l with p :: _ => id p | [] => [] end.

(** ** The host environment

    Functions of the JavaScript platform that the component calls and that
    are not part of the repository.  [JSON_parse] and [URL_hostname] return
    [None] where the platform function throws. *)

Inductive JsonValue :=
| JArray (items : list Platform)
| JOther.

Record Host := mkHost {
  JSON_parse : jsstring -> option JsonValue;
  JSON_stringify : list Platform -> jsstring;
  URL_hostname : jsstring -> option jsstring;   (* [new URL(v).hostname] *)
  toLowerCase : jsstring -> jsstring
}.

(** Calls that leave the component: Tauri [invoke] commands and
    [localStorage] accesses, in the order they are issued. *)
Inductive Cmd :=
| InvokeLoadPlatforms
| InvokeSavePlatforms (data : jsstring)
| LocalStorageGet
| LocalStorageSet (data : jsstring)
| HideAllWebviews
| CreateOrShowWebview (platformId url : jsstring) (topOffset : Z)
| DestroyWebview (platformId : jsstring)
| ReloadWebview (platformId : jsstring).

(** What the two stores answer at startup. *)
Inductive LegacyRead :=
| GetItemThrows
| GetItemNull
| GetItemString (saved : jsstring).

Record Stores := mkStores {
  primary : option jsstring;   (* [None]: [invoke('load_platforms')] rejects *)
  legacy : LegacyRead
}.

Section App.

Context (host : Host).

(** ** Persistence gateway (App.tsx, lines 50-77) *)

(** [Array.isArray(parsed) && parsed.length > 0], yielding the array. *)
Definition nonempty_array (parsed : JsonValue) : option (list Platform) :=
  match parsed with
  | JArray items => if (0 <? length items)%nat then Some items else None
  | JOther => None
  end.

(** [loadPlatformsAsync]: the commands it issues and the list it resolves
    to.  Each [try] block falls through to the code after it when the call
    inside throws or rejects. *)
Definition loadPlatformsAsync (st : Stores) : list Cmd * list Platform :=
  let first_try :=
    match primary st with
    | None => None
    | Some data =>
        match JSON_parse host data with
        | None => None
        | Some parsed => nonempty_array parsed
        end
    end in
  match first_try with
  | Some parsed => ([InvokeLoadPlatforms], parsed)
  | None =>
      (* Fallback: migrate from localStorage *)
      match legacy st with
      | GetItemThrows => ([InvokeLoadPlatforms; LocalStorageGet], [])
      | GetItemNull => ([InvokeLoadPlatforms; LocalStorageGet], [])
      | GetItemString saved =>
          if is_empty saved then ([InvokeLoadPlatforms; LocalStorageGet], [])
          else
            match JSON_parse host saved with
            | None => ([InvokeLoadPlatforms; LocalStorageGet], [])
            | Some parsed =>
                match nonempty_array parsed with
                | Some items =>
                    ([InvokeLoadPlatforms; LocalStorageGet;
                      InvokeSavePlatforms saved], items)
                | None => ([InvokeLoadPlatforms; LocalStorageGet], [])
                end
            end
      end
  end.

Definition savePlatformsToFile (platforms : list Platform) : list Cmd :=
  let data := JSON_stringify host platforms in
  [InvokeSavePlatforms data; LocalStorageSet data].

Definition deriveNameFromUrl (value : jsstring) : jsstring :=
  match URL_hostname host value with
  | Some hostname => or_else (strip_www hostname) NEW_TAB_LABEL
  | None => NEW_TAB_LABEL
  end.

(** ** Component state (App.tsx, lines 140-154)

    [selectedPreset] and [useSystemProxy] are left out: no handler or effect
    below reads them. *)

Record State := mkState {
  platforms : list Platform;
  tempTabs : list Platform;
  activeTab : jsstring;
  showSettings : bool;
  showAddForm : bool;
  initialized : bool;
  showQuickAdd : bool;
  newName : jsstring;
  newUrl : jsstring;
  quickName : jsstring;
  quickUrl : jsstring
}.

Definition initial : State :=
  mkState [] [] [] false false false false [] [] [] [].

Definition setPlatforms (v : list Platform) (s : State) : State :=
  mkState v (tempTabs s) (activeTab s) (showSettings s) (showAddForm s)
    (initialized s) (showQuickAdd s) (newName s) (newUrl s) (quickName s)
    (quickUrl s).

Definition setTempTabs (v : list Platform) (s : State) : State :=
  mkState (platforms s) v (activeTab s) (showSettings s) (showAddForm s)
    (initialized s) (showQuickAdd s) (newName s) (newUrl s) (quickName s)
    (quickUrl s).

Definition setActiveTab (v : jsstring) (s : State) : State :=
  mkState (platforms s) (tempTabs s) v (showSettings s) (showAddForm s)
    (initialized s) (showQuickAdd s) (newName s) (newUrl s) (quickName s)
    (quickUrl s).

Definition setShowSettings (v : bool) (s : State) : State :=
  mkState (platforms s) (tempTabs s) (activeTab s) v (showAddForm s)
    (initialized s) (showQuickAdd s) (newName s) (newUrl s) (quickName s)
    (quickUrl s).

Definition setShowAddForm (v : bool) (s : State) : State :=
  mkState (platforms s) (tempTabs s) (activeTab s) (showSettings s) v
    (initialized s) (showQuickAdd s) (newName s) (newUrl s) (quickName s)
    (quickUrl s).

Definition setInitialized (v : bool) (s : State) : State :=
  mkState (platforms s) (tempTabs s) (activeTab s) (showSettings s)
    (showAddForm s) v (showQuickAdd s) (newName s) (newUrl s) (quickName s)
    (quickUrl s).

Definition setShowQuickAdd (v : bool) (s : State) : State :=
  mkState (platforms s) (tempTabs s) (activeTab s) (showSettings s)
    (showAddForm s) (initialized s) v (newName s) (newUrl s) (quickName s)
    (quickUrl s).

Definition setNewName (v : jsstring) (s : State) : State :=
  mkState (platforms s) (tempTabs s) (activeTab s) (showSettings s)
    (showAddForm s) (initialized s) (showQuickAdd s) v (newUrl s)
    (quickName s) (quickUrl s).

Definition setNewUrl (v : jsstring) (s : State) : State :=
  mkState (platforms s) (tempTabs s) (activeTab s) (showSettings s)
    (showAddForm s) (initialized s) (showQuickAdd s) (newName s) v
    (quickName s) (quickUrl s).

Definition setQuickName (v : jsstring) (s : State) : State :=
  mkState (platforms s) (tempTabs s) (activeTab s) (showSettings s)
    (showAddForm s) (initialized s) (showQuickAdd s) (newName s) (newUrl s)
    v (quickUrl s).

Definition setQuickUrl (v : jsstring) (s : State) : State :=
  mkState (platforms s) (tempTabs s) (activeTab s) (showSettings s)
    (showAddForm s) (initialized s) (showQuickAdd s) (newName s) (newUrl s)
    (quickName s) v.

Definition resetAddForm (s : State) : State := setNewUrl [] (setNewName [] s).

Definition resetQuickAdd (s : State) : State :=
  setQuickUrl [] (setQuickName [] s).

(** [platforms.filter(p => !p.hidden)] *)
Definition visible (l : list Platform) : list Platform :=
  List.filter (fun p => negb (is_hidden p)) l.

(** The tab strip: visible persistent tabs, then ephemeral tabs
    ([all] in the reconciliation effect). *)
Definition all_tabs (s : State) : list Platform :=
  visible (platforms s) ++ tempTabs s.

(** [l.filter(p => p.id !== i)] *)
Definition without (i : jsstring) (l : list Platform) : list Platform :=
  List.filter (fun p => negb (has_id i p)) l.

(** ** What an event handler leaves behind

    The state after its setter calls, whether it gave [platforms] or
    [tempTabs] a new array (an effect that depends on an array re-runs when
    the array is a new object, even with equal contents), and the commands
    it issued itself. *)

Record Handled := mkHandled {
  next : State;
  newPlatforms : bool;
  newTempTabs : bool;
  issued : list Cmd
}.

Definition unchanged (s : State) : Handled := mkHandled s false false [].

(** ** Event handlers *)

(** [s.toLowerCase().replace(/\s+/g, '-')] after lower-casing: every maximal
    run of white space becomes one [-]. *)
Fixpoint dash_runs (in_run : bool) (s : jsstring) : jsstring :=
  match s with
  | [] => []
  | c :: r =>
      if is_ws c then (if in_run then dash_runs true r
                       else 0x2D :: dash_runs true r)
      else c :: dash_runs false r
  end.

Definition slug (s : jsstring) : jsstring := dash_runs false (toLowerCase host s).

(** The [.then] callback of the startup effect (lines 158-162). *)
Definition onLoaded (loaded : list Platform) (s : State) : Handled :=
  let s1 := setPlatforms loaded s in
  let s2 := if (0 <? length loaded)%nat then setActiveTab (first_id loaded) s1
            else s1 in
  mkHandled (setInitialized true s2) true false [].

(** The [new_tab_request] listener (lines 211-218). *)
Definition onNewTabRequest (payload : jsstring) (now : N) (s : State) : Handled :=
  let url := or_else payload [] in
  if is_empty url then unchanged s
  else
    let id := lit "tmp-" ++ show_number now in
    let name := deriveNameFromUrl url in
    let s1 := setTempTabs (tempTabs s ++ [mkPlatform id name url None]) s in
    mkHandled (setActiveTab id s1) false true [].

Definition toggleSettings (s : State) : Handled :=
  if negb (showSettings s) then
    mkHandled (setShowQuickAdd false (setShowSettings true s)) false false
      [HideAllWebviews]
  else
    let s1 := resetAddForm (setShowAddForm false (setShowSettings false s)) in
    match List.find (fun p => has_id (activeTab s) p && negb (is_hidden p))
            (platforms s) with
    | Some platform =>
        mkHandled s1 false false
          [CreateOrShowWebview (id platform) (url platform) 78]
    | None => mkHandled s1 false false []
    end.

Definition handleAddPlatform (now : N) (s : State) : Handled :=
  if is_empty (trim (newName s)) || is_empty (trim (newUrl s)) then unchanged s
  else
    let id := slug (newName s) ++ lit "-" ++ show_number now in
    let finalUrl := normalizeUrl (newUrl s) in
    let newPlatform := mkPlatform id (trim (newName s)) finalUrl None in
    let s1 := setPlatforms (platforms s ++ [newPlatform]) s in
    mkHandled (setActiveTab id (resetAddForm (setShowAddForm false s1)))
      true false [].

Definition handleQuickAdd (now : N) (s : State) : Handled :=
  if is_empty (trim (quickUrl s)) then unchanged s
  else
    let finalUrl := normalizeUrl (quickUrl s) in
    let displayName := or_else (trim (quickName s)) (deriveNameFromUrl finalUrl) in
    let baseId := or_else (slug (or_else (trim (quickName s)) displayName))
                    (lit "tmp") in
    let id := lit "tmp-" ++ baseId ++ lit "-" ++ show_number now in
    let newPlatform := mkPlatform id displayName finalUrl None in
    let s1 := setTempTabs (tempTabs s ++ [newPlatform]) s in
    mkHandled (setActiveTab id (resetQuickAdd (setShowQuickAdd false s1)))
      false true [].

Definition handleRemovePlatform (i : jsstring) (s : State) : Handled :=
  let updated := without i (platforms s) in
  let s1 := if str_eqb (activeTab s) i
            then setActiveTab (first_id updated) s else s in
  mkHandled (setPlatforms updated s1) true false [DestroyWebview i].

(** *** JavaScript arrays

    [handleMovePlatform] reads and writes array elements by index.  Reading
    past the end gives [undefined] ([None]); writing past the end extends
    the array, leaving holes. *)

Definition js_get {A} (a : list (option A)) (i : nat) : option A :=
  match a !! i with Some v => v | None => None end.

Definition js_set {A} (a : list (option A)) (i : nat) (v : option A)
  : list (option A) :=
  if (i <? length a)%nat then <[i := v]> a
  else a ++ replicate (i - length a) None ++ [v].

Inductive Direction := up | down.

(** The updater of [handleMovePlatform] (lines 315-323), on the copied
    array.  A destructuring swap reads both right-hand elements first. *)
Definition move_updater (index : nat) (direction : Direction)
    (prev : list Platform) : list (option Platform) :=
  let updated := Some <$> prev in
  match direction with
  | up =>
      if (0 <? index)%nat then
        let x := js_get updated index in
        let y := js_get updated (index - 1) in
        js_set (js_set updated (index - 1) x) index y
      else updated
  | down =>
      if (Z.of_nat index <? Z.of_nat (length updated) - 1)%Z then
        let x := js_get updated (index + 1) in
        let y := js_get updated index in
        js_set (js_set updated index x) (index + 1) y
      else updated
  end.

(** The elements of an array without holes. *)
Definition elements {A} (a : list (option A)) : list A := omap (fun x => x) a.

(** [index] comes from [platforms.map((p, index) => ...)] (line 560), so it
    is a position of the list; [step] below offers the event only then. *)
Definition handleMovePlatform (index : nat) (direction : Direction)
    (s : State) : Handled :=
  mkHandled (setPlatforms (elements (move_updater index direction (platforms s))) s)
    true false [].

Definition handleReloadPlatform (i : jsstring) (s : State) : Handled :=
  mkHandled s false false [ReloadWebview i].

Definition handleCloseTab (i : jsstring) (s : State) : Handled :=
  let isTemp := existsb (has_id i) (tempTabs s) in
  if isTemp then
    let tempAfter := without i (tempTabs s) in
    let s1 := if str_eqb (activeTab s) i
              then setActiveTab (first_id (platforms s ++ tempAfter)) s
              else s in
    mkHandled (setTempTabs tempAfter s1) false true [DestroyWebview i]
  else
    (* For fixed platforms, we just hide them *)
    let updated :=
      List.map (fun p => if has_id i p then set_hidden true p else p)
        (platforms s) in
    let s1 := if str_eqb (activeTab s) i
              then setActiveTab (first_id (visible updated ++ tempTabs s)) s
              else s in
    mkHandled (setPlatforms updated s1) true false [DestroyWebview i].

(** The [+] button (lines 428-436). *)
Definition onPlusClick (now : N) (s : State) : Handled :=
  if showSettings s then unchanged s
  else if negb (showQuickAdd s) then
    let id := lit "tmp-new-" ++ show_number now in
    let s1 := setTempTabs (tempTabs s ++ [mkPlatform id NEW_TAB_LABEL [] None]) s in
    mkHandled (setShowQuickAdd true (setActiveTab id s1)) false true []
  else mkHandled (setShowQuickAdd true s) false false [].

(** Enter in the url field and the confirm button of the quick-add popover
    (lines 463-476 and 501-512). *)
Definition onQuickConfirm (now : N) (s : State) : Handled :=
  match List.find (has_id (activeTab s)) (tempTabs s) with
  | Some currentTemp =>
      if blank_url currentTemp then
        let finalUrl := normalizeUrl (quickUrl s) in
        if is_empty finalUrl then unchanged s
        else
          let displayName :=
            or_else (trim (quickName s)) (deriveNameFromUrl finalUrl) in
          let updated :=
            List.map (fun p => if has_id (id currentTemp) p
                               then mkPlatform (id p) displayName finalUrl (hidden p)
                               else p) (tempTabs s) in
          mkHandled (resetQuickAdd (setShowQuickAdd false (setTempTabs updated s)))
            false true []
      else handleQuickAdd now s
  | None => handleQuickAdd now s
  end.

(** The cancel button and the backdrop of the quick-add popover
    (lines 483-494 and 531-542). *)
Definition onQuickCancel (s : State) : Handled :=
  let s1 := resetQuickAdd (setShowQuickAdd false s) in
  match List.find (has_id (activeTab s)) (tempTabs s) with
  | Some currentTemp =>
      if blank_url currentTemp then
        let updated := without (activeTab s) (tempTabs s) in
        let next := platforms s ++ updated in
        mkHandled (setTempTabs updated (setActiveTab (first_id next) s1))
          false true []
      else mkHandled s1 false false []
  | None => mkHandled s1 false false []
  end.

(** A row of the settings panel (lines 564-569); [p] is the row's record. *)
Definition onPanelItemClick (p : Platform) (s : State) : Handled :=
  if is_hidden p then
    let updated :=
      List.map (fun item => if has_id (id p) item then set_hidden false item
                            else item) (platforms s) in
    mkHandled (setActiveTab (id p) (setPlatforms updated s)) true false []
  else unchanged s.

(** ** Effects (App.tsx, lines 172-204) *)

(** The reconciliation effect: [Some i] when it calls [setActiveTab(i)]. *)
Definition reconcile (s : State) : option jsstring :=
  let all := all_tabs s in
  if (0 <? length all)%nat &&
     (is_empty (activeTab s) ||
      match List.find (has_id (activeTab s)) (platforms s) with
      | Some p => is_hidden p
      | None => false
      end)
  then Some (first_id all)
  else None.

Definition save_effect (s : State) : list Cmd :=
  if initialized s then savePlatformsToFile (platforms s) else [].

Definition webview_effect (s : State) : list Cmd :=
  if showSettings s || is_empty (activeTab s) then []
  else
    let found :=
      match List.find (has_id (activeTab s)) (tempTabs s) with
      | Some p => Some p
      | None => List.find (has_id (activeTab s)) (platforms s)
      end in
    match found with
    | None => []
    | Some platform =>
        if blank_url platform then [HideAllWebviews]
        else [CreateOrShowWebview (id platform) (url platform) 70]
    end.

(** One commit: the effects whose dependencies differ from the previous
    render run in the order they are declared, all on the state of this
    render; the reconciliation effect may schedule another render. *)
Definition commit (prev : State) (h : Handled) : State * list Cmd :=
  let s := next h in
  let active_differs := negb (str_eqb (activeTab prev) (activeTab s)) in
  let run_reconcile := newPlatforms h || newTempTabs h || active_differs in
  let run_save := newPlatforms h || xorb (initialized prev) (initialized s) in
  let run_webview :=
    active_differs || newPlatforms h || newTempTabs h
    || xorb (showSettings prev) (showSettings s) in
  let s' := if run_reconcile
            then match reconcile s with
                 | Some i => setActiveTab i s
                 | None => s
                 end
            else s in
  (s', (if run_save then save_effect s else [])
       ++ (if run_webview then webview_effect s else [])).

(** Renders follow one another until a commit leaves the state as it is. *)
Fixpoint render_loop (fuel : nat) (prev : State) (h : Handled)
  : State * list Cmd :=
  let '(s', cmds) := commit prev h in
  if str_eqb (activeTab (next h)) (activeTab s') then (s', cmds)
  else
    match fuel with
    | O => (s', cmds)
    | S fuel' =>
        let '(s'', more) := render_loop fuel' (next h) (mkHandled s' false false []) in
        (s'', cmds ++ more)
    end.

(** ** Events *)

Inductive Event :=
| LoadResolved (loaded : list Platform)
| NewTabRequest (payload : jsstring) (now : N)
| ToggleSettings
| OpenAddForm
| CancelAddForm
| TypeNewName (v : jsstring)
| TypeNewUrl (v : jsstring)
| FocusNewUrl
| BlurNewUrl
| TypeQuickName (v : jsstring)
| TypeQuickUrl (v : jsstring)
| FocusQuickUrl
| BlurQuickUrl
| AddPlatform (now : N)
| RemovePlatform (i : jsstring)
| MovePlatform (index : nat) (direction : Direction)
| PanelItemClick (index : nat)
| SelectTab (i : jsstring)
| CloseTab (i : jsstring)
| ReloadTab (i : jsstring)
| PlusClick (now : N)
| QuickConfirm (now : N)
| QuickCancel.

(** [i] labels a tab of the tab strip (lines 363 and 394). *)
Definition in_strip (i : jsstring) (s : State) : bool :=
  existsb (has_id i) (all_tabs s).

(** The handler an event runs.  An event whose control is not rendered in
    state [s] (a row, tab or popover that does not exist) leaves it as it
    is; the startup promise resolves once. *)
Definition handle (e : Event) (s : State) : Handled :=
  match e with
  | LoadResolved loaded =>
      if initialized s then unchanged s else onLoaded loaded s
  | NewTabRequest payload now => onNewTabRequest payload now s
  | ToggleSettings => toggleSettings s
  | OpenAddForm => mkHandled (setShowAddForm true s) false false []
  | CancelAddForm => mkHandled (resetAddForm (setShowAddForm false s)) false false []
  | TypeNewName v => mkHandled (setNewName v s) false false []
  | TypeNewUrl v => mkHandled (setNewUrl v s) false false []
  | FocusNewUrl =>
      if is_empty (trim (newUrl s))
      then mkHandled (setNewUrl (lit "https://") s) false false []
      else unchanged s
  | BlurNewUrl =>
      if is_empty (trim (newUrl s)) then unchanged s
      else mkHandled (setNewUrl (normalizeUrl (newUrl s)) s) false false []
  | TypeQuickName v => mkHandled (setQuickName v s) false false []
  | TypeQuickUrl v => mkHandled (setQuickUrl v s) false false []
  | FocusQuickUrl =>
      if is_empty (trim (quickUrl s))
      then mkHandled (setQuickUrl (lit "https://") s) false false []
      else unchanged s
  | BlurQuickUrl =>
      if is_empty (trim (quickUrl s)) then unchanged s
      else mkHandled (setQuickUrl (normalizeUrl (quickUrl s)) s) false false []
  | AddPlatform now =>
      if showAddForm s then handleAddPlatform now s else unchanged s
  | RemovePlatform i =>
      if existsb (has_id i) (platforms s) then handleRemovePlatform i s
      else unchanged s
  | MovePlatform index direction =>
      if (index <? length (platforms s))%nat
      then handleMovePlatform index direction s else unchanged s
  | PanelItemClick index =>
      match platforms s !! index with
      | Some p => onPanelItemClick p s
      | None => unchanged s
      end
  | SelectTab i =>
      if in_strip i s then mkHandled (setActiveTab i s) false false []
      else unchanged s
  | CloseTab i => if in_strip i s then handleCloseTab i s else unchanged s
  | ReloadTab i =>
      if in_strip i s && str_eqb (activeTab s) i
      then handleReloadPlatform i s else unchanged s
  | PlusClick now => onPlusClick now s
  | QuickConfirm now =>
      if showQuickAdd s then onQuickConfirm now s else unchanged s
  | QuickCancel => if showQuickAdd s then onQuickCancel s else unchanged s
  end.

(** One event: the handler, then the renders it causes.  The fuel is more
    than is needed: two renders always suffice ([render_loop_settles]). *)
Definition step (s : State) (e : Event) : State * list Cmd :=
  let h := handle e s in
  let '(s', cmds) := render_loop 3 s h in
  (s', issued h ++ cmds).

Fixpoint run (s : State) (es : list Event) : State * list Cmd :=
  match es with
  | [] => (s, [])
  | e :: rest =>
      let '(s1, c1) := step s e in
      let '(s2, c2) := run s1 rest in
      (s2, c1 ++ c2)
  end.

End App.

(** ** Statements about strings used below *)

(** A string that [trim] leaves alone: no white space at either end. *)
Definition trimmed (t : jsstring) : Prop :=
  trimStart t = t /\ trimStart (rev t) = rev t.

(** ** A sample host and sample records

    Closed examples need a concrete host.  [sample_host] answers like the
    JavaScript platform on the few inputs the examples use: ASCII
    lower-casing, and the host names that [new URL(v).hostname] yields for
    the listed urls ([new URL] throws on a string without a scheme;
    [about:blank] and a [file:] url have the empty host name).  Its JSON
    codec is a stand-in that knows four texts. *)

Definition tabA : Platform :=
  mkPlatform (lit "a") (lit "A") (lit "https://a.example") None.

Definition tabB : Platform :=
  mkPlatform (lit "b") (lit "B") (lit "https://b.example") None.

Definition tabT : Platform :=
  mkPlatform (lit "tmp-1") (lit "t.example") (lit "https://t.example") None.

Definition sample_lower (c : N) : N :=
  if (0x41 <=? c) && (c <=? 0x5A) then c + 32 else c.

Definition sample_hostname (v : jsstring) : option jsstring :=
  if str_eqb v (lit "https://example.com/x") then Some (lit "example.com")
  else if str_eqb v (lit "https://www.example.com/x") then Some (lit "www.example.com")
  else if str_eqb v (lit "https://chat.deepseek.com") then Some (lit "chat.deepseek.com")
  else if str_eqb v (lit "about:blank") then Some []
  else if str_eqb v (lit "file:///x") then Some []
  else None.

Definition sample_parse (text : jsstring) : option JsonValue :=
  if str_eqb text (lit "[a]") then Some (JArray [tabA])
  else if str_eqb text (lit "[a,b]") then Some (JArray [tabA; tabB])
  else if str_eqb text (lit "[]") then Some (JArray [])
  else if str_eqb text (lit "{}") then Some JOther
  else None.

Definition sample_stringify (l : list Platform) : jsstring :=
  lit "[" ++ concat (List.map (fun p => id p ++ lit ";") l) ++ lit "]".

Definition sample_host : Host :=
  mkHost sample_parse sample_stringify sample_hostname (List.map sample_lower).

(** A settled state with the given tabs, the settings overlay closed and the
    startup load done. *)
Definition tabs_state (ps ts : list Platform) (active : jsstring) : State :=
  mkState ps ts active false false true false [] [] [] [].

(** ** Statements about the persistence gateway *)

(** A stored text holds usable data: it parses to a non-empty array. *)
Definition usable (host : Host) (text : jsstring) (items : list Platform) : Prop :=
  JSON_parse host text = Some (JArray items) /\ items <> [].

(** A stored text is malformed, not an array, or an empty array. *)
Definition unusable_text (host : Host) (text : jsstring) : Prop :=
  JSON_parse host text = None
  \/ JSON_parse host text = Some JOther
  \/ JSON_parse host text = Some (JArray []).

(** The primary location yields no usable data: it cannot be read, or what
    it holds is unusable. *)
Definition primary_unusable (host : Host) (st : Stores) : Prop :=
  primary st = None
  \/ exists data, primary st = Some data /\ unusable_text host data.

Definition legacy_usable (host : Host) (st : Stores) (saved : jsstring)
    (items : list Platform) : Prop :=
  legacy st = GetItemString saved /\ saved <> [] /\ usable host saved items.

Definition legacy_unusable (host : Host) (st : Stores) : Prop :=
  legacy st = GetItemThrows
  \/ legacy st = GetItemNull
  \/ exists saved, legacy st = GetItemString saved
                   /\ (saved = [] \/ unusable_text host saved).

(** Writes of the platform list to the primary location. *)
Definition is_write (c : Cmd) : bool :=
  match c with InvokeSavePlatforms _ => true | _ => false end.

Definition writes (cmds : list Cmd) : nat := length (List.filter is_write cmds).

Definition is_load (e : Event) : bool :=
  match e with LoadResolved _ => true | _ => false end.

(** Primary empty, one record in the legacy location (scenario 3). *)
Definition legacy_only : Stores :=
  mkStores (Some (lit "[]")) (GetItemString (lit "[a]")).

(** ** Statements about tabs and the bridge *)

(** The data-model invariant of the specification: ids are unique across
    persistent and ephemeral tabs. *)
Definition unique_ids (s : State) : Prop :=
  NoDup (List.map id (platforms s ++ tempTabs s)).

Definition is_destroy (c : Cmd) : bool :=
  match c with DestroyWebview _ => true | _ => false end.

Definition is_show (i : jsstring) (c : Cmd) : bool :=
  match c with CreateOrShowWebview p _ _ => str_eqb p i | _ => false end.

Definition is_hide_all (c : Cmd) : bool :=
  match c with HideAllWebviews => true | _ => false end.

Definition count (f : Cmd -> bool) (cmds : list Cmd) : nat :=
  length (List.filter f cmds).

(** Scenario 2 as the specification words it: hiding the active tab [a] of
    two visible persistent tabs sets its flag, activates [b] and does not
    ask the bridge to destroy [a]'s surface. *)
Definition hide_without_destroy (host : Host) (s : State) (a b : Platform) : Prop :=
  platforms s = [a; b] -> is_hidden a = false -> is_hidden b = false ->
  id a <> id b -> activeTab s = id a ->
  platforms (fst (step host s (CloseTab (id a)))) = [set_hidden true a; b]
  /\ activeTab (fst (step host s (CloseTab (id a)))) = id b
  /\ ~ In (DestroyWebview (id a)) (snd (step host s (CloseTab (id a)))).

(** Scenario 4 as the specification words it: with tab [a] of the strip
    active and its url not blank, opening the overlay calls [hideAll] once
    and closing it calls [showOrCreate] for [a] once. *)
Definition overlay_calls_once (host : Host) (s : State) (a : Platform) : Prop :=
  In a (all_tabs s) -> activeTab s = id a -> blank_url a = false ->
  (showSettings s = false ->
   count is_hide_all (snd (step host s ToggleSettings)) = 1%nat)
  /\ (showSettings s = true ->
      count (is_show (id a)) (snd (step host s ToggleSettings)) = 1%nat).

(** Scenario 5 as the specification words it: the new tab is named after
    the host name of the delivered url. *)
Definition new_tab_named_after_host (host : Host) (s : State)
    (payload : jsstring) (now : N) : Prop :=
  payload <> [] ->
  exists t,
    tempTabs (fst (step host s (NewTabRequest payload now))) = tempTabs s ++ [t]
    /\ url t = payload
    /\ (exists hostname, URL_hostname host payload = Some hostname
                         /\ name t = strip_www hostname)
    /\ activeTab (fst (step host s (NewTabRequest payload now))) = id t.

(** The tab the listener creates for [payload] at time [now]. *)
Definition requested_tab (host : Host) (payload : jsstring) (now : N) : Platform :=
  mkPlatform (lit "tmp-" ++ show_number now) (deriveNameFromUrl host payload)
    payload None.

(** Events that select a tab on the user's explicit request. *)
Definition is_selection (e : Event) : bool :=
  match e with SelectTab _ | PanelItemClick _ => true | _ => false end.

(** The overlay rule as the specification words it: with the overlay open,
    only an explicit selection changes the active tab id. *)
Definition overlay_freezes_selection (host : Host) (s : State) (e : Event) : Prop :=
  showSettings s = true -> is_selection e = false ->
  activeTab (fst (step host s e)) = activeTab s.

(** The reconciliation effect has nothing to do in [s]. *)
Definition settled (s : State) : Prop := reconcile s = None.

(** Registry changes that leave the record of the active tab in place:
    moving a row, and removing or hiding a record other than the active
    one. *)
Definition spares_active (e : Event) (s : State) : bool :=
  match e with
  | MovePlatform _ _ => true
  | RemovePlatform i | CloseTab i => negb (str_eqb (activeTab s) i)
  | _ => false
  end.

(** The invariant of the specification: the active id names a tab of the
    strip, or is empty when the strip is empty. *)
Definition active_in_strip (s : State) : Prop :=
  match all_tabs s with
  | [] => activeTab s = []
  | _ :: _ => In (activeTab s) (List.map id (all_tabs s))
  end.

(** The active id is empty or names some record, shown or not. *)
Definition active_resolves (s : State) : Prop :=
  activeTab s = []
  \/ In (activeTab s) (List.map id (platforms s ++ tempTabs s)).

(** Sample states. *)
Definition two_tabs : State := tabs_state [tabA; tabB] [] (lit "a").

Definition overlay_on_A : State :=
  setShowSettings true (tabs_state [tabA] [] (lit "a")).

Definition overlay_two_tabs : State := setShowSettings true two_tabs.

Definition one_shown_one_hidden : State :=
  tabs_state [tabA; set_hidden true tabB] [] (lit "a").

Definition hidden_and_ephemeral : State :=
  tabs_state [set_hidden true tabB] [tabT] (lit "tmp-1").

(** The half of the invariant that concerns a non-empty strip. *)
Definition active_shown (s : State) : Prop :=
  all_tabs s <> [] -> In (activeTab s) (List.map id (all_tabs s)).

(** [active_resolves] on the three fields it reads. *)
Definition resolves_in (a : jsstring) (ps ts : list Platform) : Prop :=
  a = [] \/ In a (List.map id ps) \/ In a (List.map id ts).

(** The state after the first commit that follows a handler. *)
Definition reconciled (host : Host) (prev : State) (h : Handled) : State :=
  fst (commit host prev h).

(** ** Further statements about the component *)

Definition is_show_cmd (c : Cmd) : bool :=
  match c with CreateOrShowWebview _ _ _ => true | _ => false end.

Definition is_reload (c : Cmd) : bool :=
  match c with ReloadWebview _ => true | _ => false end.

(** Commands that store the platform list, in either location. *)
Definition is_persist (c : Cmd) : bool :=
  match c with
  | InvokeSavePlatforms _ | LocalStorageSet _ => true
  | _ => false
  end.

(** Commands addressed to the webview bridge. *)
Definition is_bridge (c : Cmd) : bool :=
  match c with
  | HideAllWebviews | CreateOrShowWebview _ _ _ | DestroyWebview _
  | ReloadWebview _ => true
  | _ => false
  end.

(** A url as the add form stores it: not blank, and with a scheme. *)
Definition stored_url (p : Platform) : Prop :=
  blank_url p = false /\ has_scheme (url p) = true.

(** An ephemeral record as the component creates it: its id begins with
    [tmp-] and its name is not empty. *)
Definition ephemeral_shape (t : Platform) : Prop :=
  starts_with (lit "tmp-") (id t) = true /\ name t <> [].

(** The id does not occur among the records of [s]. *)
Definition fresh_id (i : jsstring) (s : State) : Prop :=
  ~ In i (List.map id (platforms s ++ tempTabs s)).

(** The placeholder the [+] button creates at time [now]. *)
Definition placeholder (now : N) : Platform :=
  mkPlatform (lit "tmp-new-" ++ show_number now) NEW_TAB_LABEL [] None.

(** The record the add form creates at time [now] from the fields of [s]. *)
Definition added_platform (host : Host) (now : N) (s : State) : Platform :=
  mkPlatform (slug host (newName s) ++ lit "-" ++ show_number now)
    (trim (newName s)) (normalizeUrl (newUrl s)) None.

(** What the show/create effect asks of the bridge for tab [p]. *)
Definition show_or_hide (p : Platform) : list Cmd :=
  if blank_url p then [HideAllWebviews]
  else [CreateOrShowWebview (id p) (url p) 70].

(** The record the quick-add popover makes of a placeholder [t] with the
    fields of [s]. *)
Definition filled_placeholder (host : Host) (t : Platform) (s : State) : Platform :=
  mkPlatform (id t)
    (or_else (trim (quickName s))
       (deriveNameFromUrl host (normalizeUrl (quickUrl s))))
    (normalizeUrl (quickUrl s)) (hidden t).

(** What the settings panel and the tab strip show of a record. *)
Definition shown_fields (p : Platform) : jsstring * jsstring * jsstring * bool :=
  (id p, name p, url p, is_hidden p).

(** The two ways a handler adds a record. *)
Definition adds_record (s s' : State) (p : Platform) : Prop :=
  (platforms s' = platforms s ++ [p] /\ tempTabs s' = tempTabs s)
  \/ (tempTabs s' = tempTabs s ++ [p] /\ platforms s' = platforms s).

(** The record [handleQuickAdd] creates at time [now] from the fields of
    [s]. *)
Definition quick_added (host : Host) (now : N) (s : State) : Platform :=
  let finalUrl := normalizeUrl (quickUrl s) in
  let displayName := or_else (trim (quickName s)) (deriveNameFromUrl host finalUrl) in
  let baseId := or_else (slug host (or_else (trim (quickName s)) displayName))
                  (lit "tmp") in
  mkPlatform (lit "tmp-" ++ baseId ++ lit "-" ++ show_number now) displayName
    finalUrl None.

(** ** Preset platforms (App.tsx, lines 36-45 and 259-273) *)

Definition POPULAR_PLATFORMS : list Platform :=
  [ mkPlatform (lit "openai") (lit "ChatGPT") (lit "https://chatgpt.com") None;
    mkPlatform (lit "claude") (lit "Claude") (lit "https://claude.ai") None;
    mkPlatform (lit "gemini") (lit "Gemini")
      (lit "https://gemini.google.com/app") None;
    mkPlatform (lit "qwen") [0x901A; 0x4E49; 0x5343; 0x95EE]
      (lit "https://tongyi.aliyun.com/qianwen/") None;
    mkPlatform (lit "kimi") (lit "Kimi") (lit "https://kimi.moonshot.cn/") None;
    mkPlatform (lit "deepseek") (lit "DeepSeek")
      (lit "https://chat.deepseek.com/") None;
    mkPlatform (lit "zhipu") [0x667A; 0x8C31; 0x6E05; 0x8A00]
      (lit "https://chatglm.cn/") None;
    mkPlatform (lit "minimax") (lit "MiniMax")
      (lit "https://api.minimax.chat/") None ].

(** The values of the options of the preset [<select>] (lines 620-624): the
    disabled prompt, one option per preset carrying its index, and the
    custom entry. *)
Inductive PresetChoice :=
| ChoicePrompt
| ChoiceIndex (i : nat)
| ChoiceCustom.

(** [e.target.value] *)
Definition choice_value (c : PresetChoice) : jsstring :=
  match c with
  | ChoicePrompt => []
  | ChoiceIndex i => show_number (N.of_nat i)
  | ChoiceCustom => lit "custom"
  end.

(** [handlePresetSelect]: the new [selectedPreset] and the state.
    [parseInt] of the decimal text of an index is that index. *)
Definition handlePresetSelect (c : PresetChoice) (s : State) : jsstring * State :=
  (choice_value c,
   match c with
   | ChoiceCustom | ChoicePrompt => setNewUrl [] (setNewName [] s)
   | ChoiceIndex i =>
       match POPULAR_PLATFORMS !! i with
       | Some preset => setNewUrl (url preset) (setNewName (name preset) s)
       | None => s
       end
   end).

(** ** Icons (App.tsx, lines 8-27 and 96-137) *)

(** [s.includes(t)] *)
Fixpoint includes (s t : jsstring) : bool :=
  starts_with t s
  || match s with
     | [] => false
     | _ :: r => includes r t
     end.

(** [s.split('/')]: the pieces between slashes, at least one. *)
Fixpoint split_slash (piece : jsstring) (s : jsstring) : list jsstring :=
  match s with
  | [] => [rev piece]
  | c :: r =>
      if c =? 0x2F then rev piece :: split_slash [] r
      else split_slash (c :: piece) r
  end.

(** [a.pop()] on a copy: the last element, [undefined] for an empty array. *)
Definition pop (a : list jsstring) : option jsstring := last a.

Section Icons.

Context (host : Host).

(** [iconModules]: the glob of icon files, path to url, in the order a
    [for ... in] loop enumerates its keys (paths are not array indices, so
    this is the order in which the keys were created). *)
Context (iconModules : list (jsstring * jsstring)).

(** [searchTerms] of [getIconUrl]. *)
Definition searchTerms (id name : jsstring) : list jsstring :=
  let normalizedId := toLowerCase host id in
  let normalizedName := toLowerCase host name in
  [normalizedId; normalizedName]
  ++ (if includes normalizedId (lit "chatgpt")
         || includes normalizedName (lit "chatgpt")
      then [lit "openai"] else [])
  ++ (if includes normalizedId (lit "tongyi")
         || includes normalizedName (lit "tongyi")
      then [lit "qwen"] else [])
  ++ (if includes normalizedName (lit "minimax")
         || includes normalizedId (lit "minimax")
      then [lit "minimax"] else []).

(** [path.split('/').pop()?.toLowerCase() || ''] *)
Definition icon_filename (path : jsstring) : jsstring :=
  match pop (split_slash [] path) with
  | Some piece => or_else (toLowerCase host piece) []
  | None => []
  end.

(** [searchTerms.some(term => filename.includes(term))] *)
Definition icon_matches (terms : list jsstring) (path : jsstring) : bool :=
  existsb (fun term => includes (icon_filename path) term) terms.

Fixpoint first_icon (terms : list jsstring) (icons : list (jsstring * jsstring))
  : option jsstring :=
  match icons with
  | [] => None
  | (path, src) :: rest =>
      if icon_matches terms path then Some src else first_icon terms rest
  end.

Definition getIconUrl (id name : jsstring) : option jsstring :=
  first_icon (searchTerms id name) iconModules.

(** What [PlatformIcon] renders. *)
Inductive Rendered :=
| LocalIcon (src : jsstring) (size : N)
| Favicon (src : jsstring) (size : N)
| Globe (size : N).

(** [PlatformIcon] for the value [error] of its state; [url] is optional. *)
Definition PlatformIcon (platformId platformName : jsstring)
    (url : option jsstring) (size : N) (error : bool) : Rendered :=
  let iconUrl := getIconUrl platformId platformName in
  let no_icon := match iconUrl with Some src => is_empty src | None => true end in
  if no_icon || error then
    match url with
    | Some u =>
        if is_empty u then Globe size
        else
          match URL_hostname host u with
          | Some domain =>
              Favicon (lit "https://www.google.com/s2/favicons?domain=" ++ domain
                       ++ lit "&sz=" ++ show_number (size * 2)) size
          | None => Globe size
          end
    | None => Globe size
    end
  else
    match iconUrl with
    | Some src => LocalIcon src size
    | None => Globe size
    end.

(** The [onError] handler of what is rendered: both images call
    [setError(true)]; the globe has none. *)
Definition onError (r : Rendered) (error : bool) : bool :=
  match r with
  | LocalIcon _ _ | Favicon _ _ => true
  | Globe _ => error
  end.

End Icons.

(** ** The url rule of the earlier [handleAddPlatform] (App.tsx, lines
    887-891 of the file: the previous revision of the component) *)

Definition earlier_final_url (newUrl : jsstring) : jsstring :=
  let finalUrl := trim newUrl in
  if negb (starts_with (lit "http://") finalUrl)
     && negb (starts_with (lit "https://") finalUrl)
  then lit "https://" ++ finalUrl
  else finalUrl.

(** Sample icon files. *)
Definition sample_icons : list (jsstring * jsstring) :=
  [ (lit "/src/assets/icons/Claude.svg", lit "/assets/claude.svg");
    (lit "/src/assets/icons/openai.svg", lit "/assets/openai.svg") ].

(** ** Startup as a whole *)

(** Writes to the legacy location, [localStorage]. *)
Definition is_legacy_write (c : Cmd) : bool :=
  match c with LocalStorageSet _ => true | _ => false end.

(** The startup effect (lines 157-163) against the two stores, in the state
    [s] the component is in when the promise resolves:
    [loadPlatformsAsync().then(loaded => ...)], followed by the renders and
    effects the callback sets off. *)
Definition startup_load (host : Host) (st : Stores) (s : State)
  : State * list Cmd :=
  let '(cmds, loaded) := loadPlatformsAsync host st in
  let '(s', more) := step host s (LoadResolved loaded) in
  (s', cmds ++ more).

(** The last part of the load rule as the specification words it: data
    read from the primary location is never copied to the legacy one. *)
Definition never_migrates_to_legacy (host : Host) (st : Stores) (s : State)
  : Prop :=
  forall data items,
    primary st = Some data -> usable host data items ->
    count is_legacy_write (snd (startup_load host st s)) = 0%nat.

(** One record in the primary location, nothing in the legacy one. *)
Definition primary_only : Stores :=
  mkStores (Some (lit "[a]")) GetItemNull.

(** * Properties *)

(** ** White space and [trim] *)

Lemma trimStart_head (s : jsstring) (c : N) (r : jsstring) :
  trimStart s = c :: r -> is_ws c = false.
Proof.
  induction s as [|d s IH]; simpl; [discriminate|].
  destruct (is_ws d) eqn:E; [exact IH|].
  intros [= <- _]. exact E.
Qed.

Lemma trimStart_idem (s : jsstring) : trimStart (trimStart s) = trimStart s.
Proof.
  destruct (trimStart s) as [|c r] eqn:E; [reflexivity|].
  simpl. now rewrite (trimStart_head _ _ _ E).
Qed.

Lemma trimStart_app_fix (a b : jsstring) :
  a <> [] -> trimStart a = a -> trimStart (a ++ b) = a ++ b.
Proof.
  destruct a as [|c r]; [congruence|]. intros _ H.
  simpl. now rewrite (trimStart_head _ _ _ H).
Qed.

Lemma trimStart_snoc (l : jsstring) (c : N) :
  is_ws c = false -> exists x, trimStart (l ++ [c]) = x ++ [c].
Proof.
  intros Hc. induction l as [|d l IH]; simpl.
  - rewrite Hc. now exists [].
  - destruct (is_ws d); [exact IH|]. now exists (d :: l).
Qed.

Lemma trimmed_trim_fix (t : jsstring) : trimmed t -> trim t = t.
Proof.
  intros [H1 H2]. unfold trim, trimEnd. rewrite H1, H2. apply rev_involutive.
Qed.

Lemma trim_trimmed (s : jsstring) : trimmed (trim s).
Proof.
  unfold trimmed, trim, trimEnd. split.
  - destruct (trimStart s) as [|c r] eqn:E; [reflexivity|].
    pose proof (trimStart_head _ _ _ E) as Hc.
    simpl rev. destruct (trimStart_snoc (rev r) c Hc) as [x Hx].
    rewrite Hx, rev_app_distr. simpl. now rewrite Hc.
  - rewrite rev_involutive. apply trimStart_idem.
Qed.

Lemma trim_idem (s : jsstring) : trim (trim s) = trim s.
Proof. apply trimmed_trim_fix, trim_trimmed. Qed.

Lemma trimmed_https (t : jsstring) :
  trimmed t -> t <> [] -> trimmed (lit "https://" ++ t).
Proof.
  intros [H1 H2] Hne. split; [reflexivity|].
  rewrite rev_app_distr. apply trimStart_app_fix; [|exact H2].
  intros E. apply Hne. rewrite <- (rev_involutive t), E. reflexivity.
Qed.

Lemma is_empty_true (s : jsstring) : is_empty s = true <-> s = [].
Proof. destruct s; simpl; split; congruence. Qed.

Lemma is_empty_false (s : jsstring) : is_empty s = false <-> s <> [].
Proof. destruct s; simpl; split; congruence. Qed.

(** ** The scheme test of [normalizeUrl] *)

Lemma starts_with_spec (p s : jsstring) :
  starts_with p s = true <-> exists rest, s = p ++ rest.
Proof.
  revert s. induction p as [|a p IH]; intros s; simpl.
  - split; [intros _; now exists s | reflexivity].
  - destruct s as [|b s].
    + split; [discriminate | intros [rest E]; discriminate].
    + rewrite andb_true_iff, N.eqb_eq, IH. split.
      * intros [-> [rest ->]]. now exists rest.
      * intros [rest [= -> ->]]. split; [reflexivity | now exists rest].
Qed.

Lemma skip_scheme_chars_split (s : jsstring) :
  exists pre, s = pre ++ skip_scheme_chars s
              /\ Forall (fun x => is_scheme_char x = true) pre.
Proof.
  induction s as [|c r (pre & E & F)]; simpl.
  - now exists [].
  - destruct (is_scheme_char c) eqn:Ec.
    + exists (c :: pre). split; [simpl; congruence | now constructor].
    + now exists [].
Qed.

Lemma skip_scheme_chars_app (cs rest : jsstring) :
  Forall (fun x => is_scheme_char x = true) cs ->
  skip_scheme_chars (cs ++ lit "://" ++ rest) = lit "://" ++ rest.
Proof.
  induction 1 as [|c cs Hc _ IH]; [reflexivity|].
  simpl. rewrite Hc. exact IH.
Qed.

Lemma has_scheme_spec (t : jsstring) :
  has_scheme t = true <-> begins_with_scheme t.
Proof.
  split.
  - destruct t as [|c r]; [discriminate|]. cbn [has_scheme].
    intros H. apply andb_prop in H as [Hc H].
    apply starts_with_spec in H as [rest H].
    destruct (skip_scheme_chars_split r) as (pre & E & F).
    exists (c :: pre), rest. split.
    + now exists c, pre.
    + rewrite E at 1. rewrite H. reflexivity.
  - intros (sch & rest & (c & cs & -> & Hc & F) & ->).
    cbn [has_scheme app]. rewrite Hc. cbn [andb].
    rewrite (skip_scheme_chars_app cs rest F).
    apply starts_with_spec. now exists rest.
Qed.

Lemma has_scheme_https (t : jsstring) : has_scheme (lit "https://" ++ t) = true.
Proof. reflexivity. Qed.

Lemma normalizeUrl_trimmed (s : jsstring) : trimmed (normalizeUrl s).
Proof.
  unfold normalizeUrl. destruct (is_empty (trim s)) eqn:E.
  - split; reflexivity.
  - destruct (has_scheme (trim s)).
    + apply trim_trimmed.
    + apply trimmed_https; [apply trim_trimmed | now apply is_empty_false].
Qed.

(** C10. [normalizeUrl] is idempotent; its result is empty exactly when the
    input trims to the empty string, is the trimmed input when that already
    begins with a scheme followed by [://], and is the trimmed input with
    [https://] in front otherwise. *)
Theorem normalizeUrl_idempotent_scheme_preserving (s : jsstring) :
  normalizeUrl (normalizeUrl s) = normalizeUrl s
  /\ (normalizeUrl s = [] <-> trim s = [])
  /\ (begins_with_scheme (trim s) -> normalizeUrl s = trim s)
  /\ (trim s <> [] -> ~ begins_with_scheme (trim s) ->
      normalizeUrl s = lit "https://" ++ trim s).
Proof.
  assert (Hshape :
    (trim s = [] /\ normalizeUrl s = [])
    \/ (trim s <> [] /\ has_scheme (trim s) = true /\ normalizeUrl s = trim s)
    \/ (trim s <> [] /\ has_scheme (trim s) = false
        /\ normalizeUrl s = lit "https://" ++ trim s)).
  { unfold normalizeUrl. destruct (is_empty (trim s)) eqn:E.
    - left. split; [now apply is_empty_true | reflexivity].
    - apply is_empty_false in E. right.
      destruct (has_scheme (trim s)); [left | right]; auto. }
  split; [|split; [|split]].
  - destruct Hshape as [[E1 E2] | [(Hne & Hs & E) | (Hne & Hs & E)]].
    + rewrite E2. reflexivity.
    + rewrite E. unfold normalizeUrl. rewrite trim_idem, Hs.
      apply is_empty_false in Hne. now rewrite Hne.
    + rewrite E. unfold normalizeUrl.
      rewrite (trimmed_trim_fix _ (trimmed_https _ (trim_trimmed s) Hne)).
      reflexivity.
  - destruct Hshape as [[E1 E] | [(Hne & Hs & E) | (Hne & Hs & E)]];
      rewrite E; split; try congruence; discriminate.
  - intros Hb. apply has_scheme_spec in Hb.
    destruct Hshape as [[E1 E2] | [(Hne & Hs & E) | (Hne & Hs & E)]];
      [rewrite E1 in Hb; discriminate | exact E | congruence].
  - intros Hne Hb.
    destruct Hshape as [[E1 E2] | [(_ & Hs & E) | (_ & Hs & E)]];
      [congruence | | exact E].
    exfalso. apply Hb, has_scheme_spec, Hs.
Qed.

(** ** Renders settle *)

Section Rendering.

Context (host : Host).

Lemma all_tabs_setActiveTab (i : jsstring) (s : State) :
  all_tabs (setActiveTab i s) = all_tabs s.
Proof. reflexivity. Qed.

(** Once the reconciliation effect has chosen a tab, running it again
    chooses the same tab or does nothing. *)
Lemma reconcile_again (s : State) (i : jsstring) :
  reconcile s = Some i ->
  reconcile (setActiveTab i s) = Some i \/ reconcile (setActiveTab i s) = None.
Proof.
  unfold reconcile. rewrite all_tabs_setActiveTab.
  destruct (_ && _); [|discriminate]. intros [= <-].
  destruct (_ && _); auto.
Qed.

Lemma commit_again (prev : State) (h : Handled) :
  str_eqb (activeTab (next h)) (activeTab (reconciled host prev h)) = false ->
  commit host (next h) (mkHandled (reconciled host prev h) false false [])
  = (reconciled host prev h, webview_effect (reconciled host prev h)).
Proof.
  unfold reconciled, commit. cbn [next newPlatforms newTempTabs fst snd].
  intros Hd. rewrite Hd. cbn [negb orb].
  destruct (newPlatforms h || newTempTabs h
            || negb (str_eqb (activeTab prev) (activeTab (next h)))).
  - destruct (reconcile (next h)) as [i|] eqn:R.
    + assert (Ei : xorb (initialized (next h))
                     (initialized (setActiveTab i (next h))) = false)
        by (cbn; apply xorb_nilpotent).
      rewrite Ei. cbn [app].
      destruct (reconcile_again _ _ R) as [-> | ->]; reflexivity.
    + unfold str_eqb in Hd. rewrite bool_decide_eq_false in Hd. congruence.
  - unfold str_eqb in Hd. rewrite bool_decide_eq_false in Hd. congruence.
Qed.

(** Two renders are always enough: a second render re-runs the show/create
    effect and changes no state, so no third render follows. *)
Lemma render_loop_settles (fuel : nat) (prev : State) (h : Handled) :
  render_loop host (S fuel) prev h
  = (reconciled host prev h,
     snd (commit host prev h)
     ++ (if str_eqb (activeTab (next h)) (activeTab (reconciled host prev h))
         then [] else webview_effect (reconciled host prev h))).
Proof.
  cbn [render_loop]. unfold reconciled.
  destruct (commit host prev h) as [s' cmds] eqn:Hcm. cbn [fst snd].
  destruct (str_eqb (activeTab (next h)) (activeTab s')) eqn:Hd.
  - now rewrite app_nil_r.
  - assert (Hs : s' = reconciled host prev h) by (unfold reconciled; now rewrite Hcm).
    assert (Hd' := Hd). rewrite Hs in Hd'.
    pose proof (commit_again prev h Hd') as Hagain. rewrite <- Hs in Hagain.
    destruct fuel as [|fuel]; cbn [render_loop]; rewrite Hagain; cbn [fst snd];
      unfold str_eqb; rewrite bool_decide_eq_true_2 by reflexivity;
      reflexivity.
Qed.

Lemma step_unfold (s : State) (e : Event) :
  step host s e
  = let h := handle host e s in
    (reconciled host s h,
     issued h ++ snd (commit host s h)
     ++ (if str_eqb (activeTab (next h)) (activeTab (reconciled host s h))
         then [] else webview_effect (reconciled host s h))).
Proof. unfold step. rewrite render_loop_settles. reflexivity. Qed.

End Rendering.

(** ** Moving a platform *)

Lemma js_get_cons {A} (x : option A) (a : list (option A)) (i : nat) :
  js_get (x :: a) (S i) = js_get a i.
Proof. reflexivity. Qed.

Lemma js_set_cons {A} (x : option A) (a : list (option A)) (i : nat)
    (v : option A) :
  js_set (x :: a) (S i) v = x :: js_set a i v.
Proof.
  unfold js_set. cbn [length].
  change (S i <? S (length a))%nat with (i <? length a)%nat.
  destruct (i <? length a)%nat; reflexivity.
Qed.

(** The destructuring swap of two neighbours inside the array. *)
Lemma swap_neighbours {A} (l1 : list A) (a b : A) (l2 : list A) :
  let arr := Some <$> (l1 ++ a :: b :: l2) in
  js_set (js_set arr (length l1) (js_get arr (S (length l1))))
    (S (length l1)) (js_get arr (length l1))
  = Some <$> (l1 ++ b :: a :: l2).
Proof.
  induction l1 as [|x l1 IH]; [reflexivity|].
  cbn [length app fmap list_fmap] in *.
  rewrite !js_get_cons, !js_set_cons. f_equal. exact IH.
Qed.

Lemma split_at_neighbours {A} (l : list A) (i : nat) :
  (S i < length l)%nat ->
  exists l1 a b l2, l = l1 ++ a :: b :: l2 /\ length l1 = i.
Proof.
  revert l. induction i as [|i IH]; intros l H.
  - destruct l as [|a [|b l2]]; cbn in H; try lia.
    now exists [], a, b, l2.
  - destruct l as [|x l]; cbn in H; [lia|].
    destruct (IH l) as (l1 & a & b & l2 & -> & <-); [lia|].
    now exists (x :: l1), a, b, l2.
Qed.

Lemma elements_fmap_Some {A} (l : list A) : elements (Some <$> l) = l.
Proof.
  unfold elements. induction l as [|x l IH]; [reflexivity|].
  cbn. now rewrite IH.
Qed.

Lemma move_updater_up (prev : list Platform) (index : nat) :
  (0 < index)%nat -> (index < length prev)%nat ->
  exists l1 a b l2,
    prev = l1 ++ a :: b :: l2 /\ length l1 = (index - 1)%nat
    /\ move_updater index up prev = Some <$> (l1 ++ b :: a :: l2).
Proof.
  intros H0 Hn.
  destruct (split_at_neighbours prev (index - 1)) as (l1 & a & b & l2 & E & L);
    [lia|].
  exists l1, a, b, l2. split; [exact E|]. split; [exact L|].
  unfold move_updater.
  destruct (0 <? index)%nat eqn:T; [|apply Nat.ltb_ge in T; lia].
  replace index with (S (length l1)) by lia.
  replace (S (length l1) - 1)%nat with (length l1) by lia.
  subst prev. apply swap_neighbours.
Qed.

Lemma move_updater_down (prev : list Platform) (index : nat) :
  (index < length prev - 1)%nat ->
  exists l1 a b l2,
    prev = l1 ++ a :: b :: l2 /\ length l1 = index
    /\ move_updater index down prev = Some <$> (l1 ++ b :: a :: l2).
Proof.
  intros Hn.
  destruct (split_at_neighbours prev index) as (l1 & a & b & l2 & E & L);
    [lia|].
  exists l1, a, b, l2. split; [exact E|]. split; [exact L|].
  unfold move_updater. rewrite length_fmap.
  destruct (Z.of_nat index <? Z.of_nat (length prev) - 1)%Z eqn:T;
    [|apply Z.ltb_ge in T; lia].
  replace (index + 1)%nat with (S index) by lia.
  subst prev index. apply swap_neighbours.
Qed.

(** Whatever the direction, the array after a move holds the same records
    as before and has no hole. *)
Lemma move_updater_permutes (prev : list Platform) (index : nat)
    (direction : Direction) :
  (index < length prev)%nat ->
  elements (move_updater index direction prev) ≡ₚ prev
  /\ length (move_updater index direction prev) = length prev.
Proof.
  intros Hn. destruct direction.
  - destruct (Nat.eq_dec index 0%nat) as [->|Hi].
    + cbn [move_updater Nat.ltb Nat.leb].
      rewrite elements_fmap_Some, length_fmap. auto.
    + destruct (move_updater_up prev index) as (l1 & a & b & l2 & E & _ & ->);
        [lia | exact Hn |].
      rewrite elements_fmap_Some, length_fmap, E, !length_app. cbn [length].
      split; [|reflexivity].
      apply Permutation_app_head, perm_swap.
  - destruct (Nat.lt_ge_cases index (length prev - 1)) as [Hi|Hi].
    + destruct (move_updater_down prev index Hi) as (l1 & a & b & l2 & E & _ & ->).
      rewrite elements_fmap_Some, length_fmap, E, !length_app. cbn [length].
      split; [|reflexivity].
      apply Permutation_app_head, perm_swap.
    + unfold move_updater. rewrite length_fmap.
      destruct (_ <? _)%Z eqn:T; [apply Z.ltb_lt in T; lia|].
      rewrite elements_fmap_Some, length_fmap. auto.
Qed.

(** The updater on a list: at a position of the list, [up] (when it is not
    the first) exchanges the record with its predecessor, [down] (when it
    is not the last) exchanges it with its successor, the first moved up
    and the last moved down stay where they are, and the result holds the
    same records and has no hole. *)
Lemma move_updater_swaps (prev : list Platform) (index : nat) :
  (index < length prev)%nat ->
  ((0 < index)%nat ->
   exists l1 a b l2,
     prev = l1 ++ a :: b :: l2 /\ length l1 = (index - 1)%nat
     /\ move_updater index up prev = Some <$> (l1 ++ b :: a :: l2))
  /\ ((index < length prev - 1)%nat ->
      exists l1 a b l2,
        prev = l1 ++ a :: b :: l2 /\ length l1 = index
        /\ move_updater index down prev = Some <$> (l1 ++ b :: a :: l2))
  /\ move_updater 0 up prev = Some <$> prev
  /\ move_updater (length prev - 1) down prev = Some <$> prev
  /\ (forall direction,
        elements (move_updater index direction prev) ≡ₚ prev
        /\ length (move_updater index direction prev) = length prev).
Proof.
  intros Hn. split; [|split; [|split; [|split]]].
  - intros H0. now apply move_updater_up.
  - apply move_updater_down.
  - reflexivity.
  - unfold move_updater. rewrite length_fmap.
    destruct (_ <? _)%Z eqn:T; [apply Z.ltb_lt in T; lia | reflexivity].
  - intros direction. now apply move_updater_permutes.
Qed.

(** Past the end of the list the destructuring swap would leave a hole in
    the array; the settings panel only passes positions of the list. *)
Example move_updater_past_end :
  move_updater 2 up [tabA; tabB] = [Some tabA; None; Some tabB].
Proof. reflexivity. Qed.

(** ** Startup load and migration *)

Section Loading.

Context (host : Host).

Lemma nonempty_array_Some (parsed : JsonValue) (items : list Platform) :
  nonempty_array parsed = Some items <-> parsed = JArray items /\ items <> [].
Proof.
  destruct parsed as [l|]; cbn; [|split; [discriminate | intros [[=] _]]].
  destruct l as [|p l]; cbn.
  - split; [discriminate | intros [[= <-] H]; congruence].
  - split; [intros [= <-]; split; [reflexivity | discriminate]
           | intros [[= <-] _]; reflexivity].
Qed.

Lemma unusable_text_None (text : jsstring) :
  unusable_text host text ->
  match JSON_parse host text with
  | Some parsed => nonempty_array parsed
  | None => None
  end = None.
Proof. intros [-> | [-> | ->]]; reflexivity. Qed.

Lemma usable_Some (text : jsstring) (items : list Platform) :
  usable host text items ->
  match JSON_parse host text with
  | Some parsed => nonempty_array parsed
  | None => None
  end = Some items.
Proof.
  intros [-> Hne]. apply nonempty_array_Some. auto.
Qed.

Lemma usable_or_not (text : jsstring) :
  (exists items, usable host text items) \/ unusable_text host text.
Proof.
  unfold usable, unusable_text.
  destruct (JSON_parse host text) as [[[|p l]|]|]; auto.
  left. exists (p :: l). split; [reflexivity | discriminate].
Qed.

Lemma load_primary (st : Stores) (data : jsstring) (items : list Platform) :
  primary st = Some data -> usable host data items ->
  loadPlatformsAsync host st = ([InvokeLoadPlatforms], items).
Proof.
  intros Hp Hu. unfold loadPlatformsAsync.
  rewrite Hp, (usable_Some _ _ Hu). reflexivity.
Qed.

Lemma load_fallback (st : Stores) :
  primary_unusable host st ->
  loadPlatformsAsync host st
  = match legacy st with
    | GetItemString saved =>
        if is_empty saved then ([InvokeLoadPlatforms; LocalStorageGet], [])
        else
          match match JSON_parse host saved with
                | Some parsed => nonempty_array parsed
                | None => None
                end with
          | Some items =>
              ([InvokeLoadPlatforms; LocalStorageGet; InvokeSavePlatforms saved],
               items)
          | None => ([InvokeLoadPlatforms; LocalStorageGet], [])
          end
    | _ => ([InvokeLoadPlatforms; LocalStorageGet], [])
    end.
Proof.
  intros Hp. unfold loadPlatformsAsync.
  assert (E : match primary st with
              | Some data =>
                  match JSON_parse host data with
                  | Some parsed => nonempty_array parsed
                  | None => None
                  end
              | None => None
              end = None).
  { destruct Hp as [-> | (data & -> & Hu)]; [reflexivity|].
    now apply unusable_text_None. }
  rewrite E. destruct (legacy st) as [| |saved]; try reflexivity.
  destruct (is_empty saved); [reflexivity|].
  destruct (JSON_parse host saved) as [parsed|]; [|reflexivity].
  destruct (nonempty_array parsed); reflexivity.
Qed.

(** The load by cases: the legacy location is read exactly when the
    primary location yields no usable data; usable legacy data is returned
    and written back to the primary location at once; when neither
    location has usable data the load resolves to the empty list; and the
    load itself writes nothing to the legacy location. *)
Lemma loadPlatformsAsync_cases (st : Stores) :
  (In LocalStorageGet (fst (loadPlatformsAsync host st))
   <-> primary_unusable host st)
  /\ (forall data items,
        primary st = Some data -> usable host data items ->
        loadPlatformsAsync host st = ([InvokeLoadPlatforms], items))
  /\ (primary_unusable host st ->
      forall saved items,
        legacy_usable host st saved items ->
        loadPlatformsAsync host st
        = ([InvokeLoadPlatforms; LocalStorageGet; InvokeSavePlatforms saved],
           items))
  /\ (primary_unusable host st -> legacy_unusable host st ->
      loadPlatformsAsync host st = ([InvokeLoadPlatforms; LocalStorageGet], []))
  /\ (forall data, ~ In (LocalStorageSet data) (fst (loadPlatformsAsync host st))).
Proof.
  assert (Hcases :
    (exists data items, primary st = Some data /\ usable host data items)
    \/ primary_unusable host st).
  { unfold primary_unusable. destruct (primary st) as [data|]; [|auto].
    destruct (usable_or_not data) as [[items Hu] | Hu].
    - left. now exists data, items.
    - right. right. now exists data. }
  assert (Hfb : primary_unusable host st ->
    In LocalStorageGet (fst (loadPlatformsAsync host st))
    /\ forall data, ~ In (LocalStorageSet data) (fst (loadPlatformsAsync host st))).
  { intros Hp. rewrite (load_fallback st Hp).
    destruct (legacy st) as [| |saved]; cbn; try (split; [auto | intros d [|[|[]]]; discriminate]).
    destruct (is_empty saved); cbn; [split; [auto | intros d [|[|[]]]; discriminate]|].
    destruct (JSON_parse host saved) as [parsed|]; cbn;
      [destruct (nonempty_array parsed); cbn|];
      (split; [auto | intros d H; repeat destruct H as [H|H]; discriminate || contradiction]). }
  split; [|split; [|split; [|split]]].
  - split; [|intros Hp; now apply Hfb].
    destruct Hcases as [(data & items & Hp & Hu) | Hp]; [|auto].
    rewrite (load_primary st data items Hp Hu). cbn. intros [|[]]. discriminate.
  - apply load_primary.
  - intros Hp saved items (Hl & Hne & Hu).
    rewrite (load_fallback st Hp), Hl.
    apply is_empty_false in Hne. rewrite Hne, (usable_Some _ _ Hu). reflexivity.
  - intros Hp Hl. rewrite (load_fallback st Hp).
    destruct Hl as [-> | [-> | (saved & -> & Hs)]]; try reflexivity.
    destruct Hs as [-> | Hu]; [reflexivity|].
    rewrite (unusable_text_None _ Hu). now destruct (is_empty saved).
  - destruct Hcases as [(data & items & Hp & Hu) | Hp]; [|now apply Hfb].
    rewrite (load_primary st data items Hp Hu). cbn. intros d [|[]]. discriminate.
Qed.

(** Saving mirrors the list into [localStorage] as well (lines 75-76): a
    copy kept in step with every save, outside the load. *)
Lemma savePlatformsToFile_mirrors (l : list Platform) :
  savePlatformsToFile host l
  = [InvokeSavePlatforms (JSON_stringify host l);
     LocalStorageSet (JSON_stringify host l)].
Proof. reflexivity. Qed.

End Loading.

(** ** What handlers do and do not touch *)

Ltac unfold_handlers :=
  unfold handle, onLoaded, onNewTabRequest, toggleSettings, handleAddPlatform,
    handleQuickAdd, handleRemovePlatform, handleMovePlatform,
    handleReloadPlatform, handleCloseTab, onPlusClick, onQuickConfirm,
    onQuickCancel, onPanelItemClick, handleQuickAdd, unchanged.

Ltac handler_cases := unfold_handlers; repeat case_match; cbn.

Section Handlers.

Context (host : Host).

Lemma handle_initialized (e : Event) (s : State) :
  initialized (next (handle host e s))
  = if is_load e then true else initialized s.
Proof.
  destruct e; cbn [is_load]; handler_cases; try reflexivity; congruence.
Qed.

Lemma handle_issues_no_write (e : Event) (s : State) :
  writes (issued (handle host e s)) = 0%nat.
Proof. destruct e; handler_cases; reflexivity. Qed.

Lemma handle_platforms_frame (e : Event) (s : State) :
  newPlatforms (handle host e s) = false ->
  platforms (next (handle host e s)) = platforms s.
Proof. destruct e; handler_cases; congruence. Qed.

Lemma handle_tempTabs_frame (e : Event) (s : State) :
  newTempTabs (handle host e s) = false ->
  tempTabs (next (handle host e s)) = tempTabs s.
Proof. destruct e; handler_cases; congruence. Qed.

End Handlers.

(** ** Writes to the primary location *)

Section Writes.

Context (host : Host).

Lemma writes_app (a b : list Cmd) : writes (a ++ b) = (writes a + writes b)%nat.
Proof. unfold writes. now rewrite List.filter_app, length_app. Qed.

Lemma writes_webview_effect (s : State) : writes (webview_effect s) = 0%nat.
Proof. unfold webview_effect. repeat case_match; reflexivity. Qed.

Lemma writes_save_effect (s : State) :
  writes (save_effect host s) = if initialized s then 1%nat else 0%nat.
Proof. unfold save_effect. destruct (initialized s); reflexivity. Qed.

Lemma reconciled_frame (prev : State) (h : Handled) :
  platforms (reconciled host prev h) = platforms (next h)
  /\ tempTabs (reconciled host prev h) = tempTabs (next h)
  /\ initialized (reconciled host prev h) = initialized (next h)
  /\ showSettings (reconciled host prev h) = showSettings (next h).
Proof.
  unfold reconciled, commit. cbn [fst].
  destruct (_ || _); [destruct (reconcile (next h))|]; auto.
Qed.

Lemma step_writes (s : State) (e : Event) :
  writes (snd (step host s e))
  = let h := handle host e s in
    if (newPlatforms h || xorb (initialized s) (initialized (next h)))
       && initialized (next h)
    then 1%nat else 0%nat.
Proof.
  rewrite step_unfold. cbn [snd commit].
  rewrite !writes_app, handle_issues_no_write.
  set (h := handle host e s).
  assert (W : forall (b : bool) (s' : State),
             writes (if b then webview_effect s' else []) = 0%nat).
  { intros [] s'; [apply writes_webview_effect | reflexivity]. }
  rewrite W.
  assert (W' : forall (b : bool) (s' : State),
             writes (if b then [] else webview_effect s') = 0%nat).
  { intros [] s'; [reflexivity | apply writes_webview_effect]. }
  rewrite W'.
  destruct (newPlatforms h || xorb (initialized s) (initialized (next h)));
    cbn [andb]; [rewrite writes_save_effect | reflexivity].
  destruct (initialized (next h)); reflexivity.
Qed.

Lemma step_initialized (s : State) (e : Event) :
  initialized (fst (step host s e))
  = if is_load e then true else initialized s.
Proof.
  rewrite step_unfold. cbn [fst].
  destruct (reconciled_frame s (handle host e s)) as (_ & _ & -> & _).
  apply handle_initialized.
Qed.

Lemma step_platforms (s : State) (e : Event) :
  platforms (fst (step host s e)) = platforms (next (handle host e s)).
Proof.
  rewrite step_unfold. cbn [fst].
  now destruct (reconciled_frame s (handle host e s)) as (-> & _).
Qed.

Lemma run_cons (s : State) (e : Event) (es : list Event) :
  run host s (e :: es)
  = (fst (run host (fst (step host s e)) es),
     snd (step host s e) ++ snd (run host (fst (step host s e)) es)).
Proof.
  cbn [run]. destruct (step host s e) as [s1 c1]. cbn [fst snd].
  now destruct (run host s1 es).
Qed.

Lemma run_initialized (es : list Event) (s : State) :
  initialized (fst (run host s es)) = initialized s || existsb is_load es.
Proof.
  revert s. induction es as [|e es IH]; intros s.
  - cbn. now rewrite orb_false_r.
  - rewrite run_cons. cbn [fst existsb]. rewrite IH, step_initialized.
    destruct (is_load e), (initialized s); reflexivity.
Qed.

Lemma run_before_load (es : list Event) (s : State) :
  initialized s = false -> existsb is_load es = false ->
  writes (snd (run host s es)) = 0%nat.
Proof.
  revert s. induction es as [|e es IH]; intros s Hi He; [reflexivity|].
  cbn [existsb] in He. apply orb_false_elim in He as [He Hes].
  rewrite run_cons. cbn [snd]. rewrite writes_app, step_writes.
  cbn zeta. rewrite handle_initialized, He, Hi.
  rewrite andb_false_r. cbn [Nat.add].
  apply IH; [|exact Hes]. now rewrite step_initialized, He.
Qed.

(** C3. Starting from the initial state, as long as the startup load has
    not resolved no event makes the component write the platform list;
    once it has resolved, an event whose handler sets the platform list
    causes exactly one write, and any other event none. *)
Theorem no_write_before_load_one_per_mutation (es : list Event) :
  (existsb is_load es = false -> writes (snd (run host initial es)) = 0%nat)
  /\ (existsb is_load es = true ->
      forall e,
        let s := fst (run host initial es) in
        (newPlatforms (handle host e s) = true ->
         writes (snd (step host s e)) = 1%nat)
        /\ (newPlatforms (handle host e s) = false ->
            writes (snd (step host s e)) = 0%nat)
        /\ (platforms (fst (step host s e)) <> platforms s ->
            writes (snd (step host s e)) = 1%nat)).
Proof.
  split; [now apply run_before_load|].
  intros Hl e s.
  assert (Hi : initialized s = true).
  { unfold s. now rewrite run_initialized, Hl. }
  assert (Hw : writes (snd (step host s e))
               = if newPlatforms (handle host e s) then 1%nat else 0%nat).
  { rewrite step_writes. cbn zeta. rewrite handle_initialized, Hi.
    destruct (is_load e), (newPlatforms (handle host e s)); reflexivity. }
  rewrite Hw. split; [intros ->; reflexivity|]. split; [intros ->; reflexivity|].
  intros Hne. destruct (newPlatforms (handle host e s)) eqn:Hn; [reflexivity|].
  exfalso. apply Hne. rewrite step_platforms. now apply handle_platforms_frame.
Qed.

End Writes.

Lemma no_write_before_load_one_per_mutation_witness :
  writes (snd (run sample_host initial
                 [OpenAddForm; TypeNewName (lit "X"); TypeNewUrl (lit "x.example");
                  AddPlatform 1])) = 0%nat
  /\ writes (snd (step sample_host
                    (fst (run sample_host initial [LoadResolved [tabA; tabB]]))
                    (RemovePlatform (lit "a")))) = 1%nat.
Proof.
  split.
  - destruct (no_write_before_load_one_per_mutation sample_host
                [OpenAddForm; TypeNewName (lit "X"); TypeNewUrl (lit "x.example");
                 AddPlatform 1]) as [H _].
    apply H. vm_compute. reflexivity.
  - destruct (no_write_before_load_one_per_mutation sample_host
                [LoadResolved [tabA; tabB]]) as [_ H].
    destruct (H eq_refl (RemovePlatform (lit "a"))) as [H1 _].
    apply H1. vm_compute. reflexivity.
Defined.

(** ** Bridge commands *)

Lemma str_eqb_eq (a b : jsstring) : str_eqb a b = true <-> a = b.
Proof. unfold str_eqb. apply bool_decide_eq_true. Qed.

Lemma str_eqb_neq (a b : jsstring) : str_eqb a b = false <-> a <> b.
Proof. unfold str_eqb. apply bool_decide_eq_false. Qed.

Lemma str_eqb_refl (a : jsstring) : str_eqb a a = true.
Proof. now apply str_eqb_eq. Qed.

Lemma has_id_eq (i : jsstring) (p : Platform) : has_id i p = true <-> id p = i.
Proof. apply str_eqb_eq. Qed.

Lemma has_id_neq (i : jsstring) (p : Platform) : has_id i p = false <-> id p <> i.
Proof. apply str_eqb_neq. Qed.

Lemma count_app (f : Cmd -> bool) (a b : list Cmd) :
  count f (a ++ b) = (count f a + count f b)%nat.
Proof. unfold count. now rewrite List.filter_app, length_app. Qed.

Lemma count_zero (f : Cmd -> bool) (cmds : list Cmd) :
  count f cmds = 0%nat <-> forall c, In c cmds -> f c = false.
Proof.
  unfold count. induction cmds as [|c cmds IH]; cbn.
  - split; [intros _ c [] | reflexivity].
  - destruct (f c) eqn:E; cbn.
    + split; [discriminate|]. intros H. specialize (H c (or_introl eq_refl)). congruence.
    + rewrite IH. split.
      * intros H c' [<- | Hc]; auto.
      * intros H c' Hc. apply H. now right.
Qed.

Section Bridge.

Context (host : Host).

Lemma effects_never_destroy (s : State) (b1 b2 b3 : bool) (s' : State) :
  count is_destroy
    (((if b1 then save_effect host s else [])
      ++ (if b2 then webview_effect s else []))
     ++ (if b3 then [] else webview_effect s')) = 0%nat.
Proof.
  assert (W : forall x, count is_destroy (webview_effect x) = 0%nat).
  { intros x. unfold webview_effect. repeat case_match; reflexivity. }
  rewrite !count_app.
  destruct b1, b2, b3; rewrite ?W; unfold save_effect;
    try destruct (initialized s); reflexivity.
Qed.

(** The commands of a step: those of the handler, then those of the
    effects, which never ask to destroy a surface. *)
Lemma step_cmds (s : State) (e : Event) :
  exists rest,
    snd (step host s e) = issued (handle host e s) ++ rest
    /\ count is_destroy rest = 0%nat.
Proof.
  rewrite step_unfold. cbn [snd commit]. eexists. split; [reflexivity|].
  apply effects_never_destroy.
Qed.

(** C5, amended. With two visible persistent tabs [a] and [b], [a] active
    and no ephemeral tab carrying [a]'s id, closing [a] in the tab strip
    sets its hidden flag, makes [b] the active tab, and asks the bridge to
    destroy [a]'s surface: that is the first command issued, and the only
    destroy. *)
Theorem hide_active_tab_destroys_surface (s : State) (a b : Platform) :
  platforms s = [a; b] -> is_hidden a = false -> is_hidden b = false ->
  id a <> id b -> activeTab s = id a ->
  existsb (has_id (id a)) (tempTabs s) = false ->
  platforms (fst (step host s (CloseTab (id a)))) = [set_hidden true a; b]
  /\ activeTab (fst (step host s (CloseTab (id a)))) = id b
  /\ exists rest,
       snd (step host s (CloseTab (id a))) = DestroyWebview (id a) :: rest
       /\ count is_destroy rest = 0%nat.
Proof.
  intros Hp Ha Hb Hne Hact Htemp.
  assert (Haa : has_id (id a) a = true) by now apply has_id_eq.
  assert (Hab : has_id (id a) b = false) by (apply has_id_neq; congruence).
  assert (Hba : has_id (id b) a = false) by now apply has_id_neq.
  assert (Hbb : has_id (id b) b = true) by now apply has_id_eq.
  assert (Hh : handle host (CloseTab (id a)) s
               = mkHandled (setPlatforms [set_hidden true a; b]
                              (setActiveTab (id b) s))
                   true false [DestroyWebview (id a)]).
  { cbn [handle]. unfold in_strip, all_tabs, visible. rewrite Hp.
    cbn [List.filter]. rewrite Ha. cbn [negb app existsb]. rewrite Haa.
    cbn [orb]. unfold handleCloseTab. rewrite Htemp, Hp, Hact, str_eqb_refl.
    cbn [List.map]. rewrite Haa, Hab. unfold visible. cbn [List.filter is_hidden set_hidden hidden negb].
    fold (is_hidden b). rewrite Hb. reflexivity. }
  destruct (step_cmds s (CloseTab (id a))) as (rest & Hc & Hd).
  rewrite Hh in Hc. cbn [issued app] in Hc.
  split; [|split; [|now exists rest]].
  - rewrite step_platforms, Hh. reflexivity.
  - rewrite step_unfold, Hh. cbn [fst]. unfold reconciled, commit.
    cbn [fst next newPlatforms orb]. unfold reconcile, all_tabs, visible.
    cbn [platforms setPlatforms setActiveTab activeTab tempTabs List.filter
         is_hidden set_hidden hidden negb List.find].
    change (has_id (id b) (set_hidden true a)) with (has_id (id b) a).
    rewrite Hb, Hba, Hbb. cbn [negb app length Nat.ltb Nat.leb andb first_id].
    rewrite Hb, orb_false_r.
    destruct (is_empty (id b)); reflexivity.
Qed.

End Bridge.

Lemma hide_active_tab_destroys_surface_witness :
  snd (step sample_host two_tabs (CloseTab (lit "a")))
  = [DestroyWebview (lit "a");
     InvokeSavePlatforms (lit "[a;b;]"); LocalStorageSet (lit "[a;b;]");
     CreateOrShowWebview (lit "b") (lit "https://b.example") 70]
  /\ activeTab (fst (step sample_host two_tabs (CloseTab (lit "a")))) = lit "b".
Proof.
  destruct (hide_active_tab_destroys_surface sample_host two_tabs tabA tabB)
    as (_ & Hact & _); try reflexivity; [discriminate|].
  split; [vm_compute; reflexivity | exact Hact].
Defined.

(** C5 as stated fails: the bridge is asked to destroy the hidden tab's
    surface. *)
Lemma hide_without_destroy_fails :
  ~ hide_without_destroy sample_host two_tabs tabA tabB.
Proof.
  intros H. destruct H as (_ & _ & Hn); try reflexivity; [discriminate|].
  apply Hn. vm_compute. left. reflexivity.
Qed.

(** ** Looking a tab up by id *)

Lemma find_none_iff (f : Platform -> bool) (l : list Platform) :
  List.find f l = None <-> forall p, In p l -> f p = false.
Proof.
  split; [apply List.find_none|].
  induction l as [|x l IH]; intros H; [reflexivity|].
  cbn. rewrite (H x (or_introl eq_refl)). apply IH.
  intros p Hp. apply H. now right.
Qed.

(** With unique ids, a lookup by the id of a member finds that member,
    provided it passes the extra test [f]. *)
Lemma find_unique (f : Platform -> bool) (l : list Platform) (a : Platform) :
  NoDup (List.map id l) -> In a l ->
  List.find (fun p => has_id (id a) p && f p) l = if f a then Some a else None.
Proof.
  induction l as [|x l IH]; intros Hnd Hin; [destruct Hin|].
  cbn [List.map] in Hnd. apply NoDup_cons in Hnd as [Hx Hnd].
  rewrite list_elem_of_In in Hx. cbn [List.find].
  destruct Hin as [-> | Hin].
  - rewrite (proj2 (has_id_eq (id a) a) eq_refl). cbn [andb].
    destruct (f a); [reflexivity|].
    apply find_none_iff. intros p Hp.
    assert (id p <> id a).
    { intros E. apply Hx. rewrite <- E. now apply List.in_map. }
    now rewrite (proj2 (has_id_neq (id a) p)).
  - assert (Hxa : has_id (id a) x = false).
    { apply has_id_neq. intros E. apply Hx. rewrite E. now apply List.in_map. }
    rewrite Hxa. cbn [andb]. now apply IH.
Qed.

Lemma find_has_id_unique (l : list Platform) (a : Platform) :
  NoDup (List.map id l) -> In a l -> List.find (has_id (id a)) l = Some a.
Proof.
  intros Hnd Hin.
  rewrite <- (find_unique (fun _ => true) l a Hnd Hin).
  clear. induction l as [|x l IH]; [reflexivity|].
  cbn. rewrite andb_true_r. now rewrite IH.
Qed.

Lemma find_has_id_absent (l : list Platform) (i : jsstring) :
  ~ In i (List.map id l) -> List.find (has_id i) l = None.
Proof.
  intros H. apply find_none_iff. intros p Hp. apply has_id_neq.
  intros E. apply H. rewrite <- E. now apply List.in_map.
Qed.

Lemma find_test_absent (f : Platform -> bool) (l : list Platform) (i : jsstring) :
  ~ In i (List.map id l) -> List.find (fun p => has_id i p && f p) l = None.
Proof.
  intros H. apply find_none_iff. intros p Hp.
  assert (E : has_id i p = false).
  { apply has_id_neq. intros E. apply H. rewrite <- E. now apply List.in_map. }
  now rewrite E.
Qed.

Lemma unique_ids_split (s : State) :
  unique_ids s ->
  NoDup (List.map id (platforms s)) /\ NoDup (List.map id (tempTabs s))
  /\ (forall i, In i (List.map id (platforms s)) ->
                ~ In i (List.map id (tempTabs s))).
Proof.
  unfold unique_ids. rewrite List.map_app, NoDup_app.
  intros (H1 & H2 & H3). split; [exact H1|]. split; [exact H3|].
  intros i Hi Ht. apply (H2 i); now apply list_elem_of_In.
Qed.

(** ** The settings overlay *)

Section Overlay.

Context (host : Host).

Lemma toggle_frame (s : State) :
  let h := toggleSettings s in
  platforms (next h) = platforms s /\ tempTabs (next h) = tempTabs s
  /\ activeTab (next h) = activeTab s
  /\ showSettings (next h) = negb (showSettings s)
  /\ newPlatforms h = false /\ newTempTabs h = false.
Proof.
  unfold toggleSettings. destruct (showSettings s); cbn [negb].
  - destruct (List.find _ _); cbn; auto 10.
  - cbn; auto 10.
Qed.

(** Toggling the overlay changes no tab and no selection; the only effect
    that runs afterwards is the show/create effect. *)
Lemma step_toggle (s : State) :
  step host s ToggleSettings
  = (next (toggleSettings s),
     issued (toggleSettings s) ++ webview_effect (next (toggleSettings s))).
Proof.
  rewrite step_unfold. cbn [handle].
  destruct (toggle_frame s) as (Hp & Ht & Ha & Hs & Hnp & Hnt).
  cbn zeta in *. unfold reconciled, commit. cbn [fst snd].
  rewrite Hnp, Hnt, Ha, Hs, str_eqb_refl. cbn [negb orb].
  assert (Hi : initialized (next (toggleSettings s)) = initialized s).
  { unfold toggleSettings. destruct (showSettings s); cbn [negb];
      [destruct (List.find _ _)|]; reflexivity. }
  rewrite Hi, xorb_nilpotent, Ha, str_eqb_refl.
  assert (Hx : xorb (showSettings s) (negb (showSettings s)) = true)
    by now destruct (showSettings s).
  rewrite Hx, app_nil_r. reflexivity.
Qed.

(** What the bridge is asked when the overlay is toggled.  Opening it:
    [hideAll], nothing else.  Closing it, with unique ids: for an active
    visible persistent tab, [toggleSettings] shows it with top offset 78,
    whatever its url, and the show/create effect then shows it again with
    top offset 70, or hides every surface when the url is blank; for an
    active ephemeral tab only the effect speaks; and when the active id
    names no tab, nothing is asked. *)
Lemma toggle_commands (s : State) :
  (showSettings s = false ->
   snd (step host s ToggleSettings) = [HideAllWebviews]
   /\ showSettings (fst (step host s ToggleSettings)) = true)
  /\ (showSettings s = true -> unique_ids s ->
      activeTab (fst (step host s ToggleSettings)) = activeTab s
      /\ showSettings (fst (step host s ToggleSettings)) = false
      /\ (forall a,
            In a (platforms s) -> id a = activeTab s -> activeTab s <> [] ->
            is_hidden a = false ->
            issued (toggleSettings s) = [CreateOrShowWebview (id a) (url a) 78]
            /\ snd (step host s ToggleSettings)
               = CreateOrShowWebview (id a) (url a) 78
                 :: (if blank_url a then [HideAllWebviews]
                     else [CreateOrShowWebview (id a) (url a) 70]))
      /\ (forall t,
            In t (tempTabs s) -> id t = activeTab s -> activeTab s <> [] ->
            snd (step host s ToggleSettings)
            = if blank_url t then [HideAllWebviews]
              else [CreateOrShowWebview (id t) (url t) 70])
      /\ (~ In (activeTab s) (List.map id (platforms s ++ tempTabs s)) ->
          snd (step host s ToggleSettings) = [])).
Proof.
  split.
  - intros Hs. rewrite step_toggle. unfold toggleSettings. rewrite Hs.
    cbn [negb next issued fst snd]. unfold webview_effect. cbn. auto.
  - intros Hs Hu. rewrite step_toggle. cbn [fst snd].
    destruct (unique_ids_split s Hu) as (Hnp & Hnt & Hdis).
    destruct (toggle_frame s) as (Hp & Ht & Ha & Hss & _).
    cbn zeta in *. rewrite Hs in Hss. cbn [negb] in Hss.
    split; [exact Ha|]. split; [exact Hss|].
    unfold webview_effect. rewrite Hss, Ha, Hp, Ht. cbn [orb].
    assert (Hiss : issued (toggleSettings s)
                   = match List.find (fun p => has_id (activeTab s) p
                                               && negb (is_hidden p))
                             (platforms s) with
                     | Some p => [CreateOrShowWebview (id p) (url p) 78]
                     | None => []
                     end).
    { unfold toggleSettings. rewrite Hs. cbn [negb].
      now destruct (List.find _ _). }
    rewrite Hiss. clear Hiss.
    split; [|split].
    + intros a Hin Hid Hne Hvis. apply is_empty_false in Hne. rewrite Hne.
      rewrite <- Hid.
      rewrite (find_unique (fun p => negb (is_hidden p)) _ a Hnp Hin), Hvis.
      cbn [negb issued app]. split; [reflexivity|].
      rewrite (find_has_id_absent (tempTabs s) (id a)).
      * rewrite (find_has_id_unique _ a Hnp Hin).
        now destruct (blank_url a).
      * apply Hdis. now apply List.in_map.
    + intros t Hin Hid Hne. apply is_empty_false in Hne. rewrite Hne.
      rewrite <- Hid.
      rewrite (find_test_absent (fun p => negb (is_hidden p)) (platforms s) (id t)).
      * cbn [issued app]. rewrite (find_has_id_unique _ t Hnt Hin).
        destruct (blank_url t); reflexivity.
      * intros Hc. apply (Hdis _ Hc). now apply List.in_map.
    + intros Hno. rewrite List.map_app, in_app_iff in Hno.
      rewrite (find_test_absent (fun p => negb (is_hidden p)) (platforms s)
                 (activeTab s)) by tauto.
      cbn [issued app].
      rewrite !find_has_id_absent by tauto.
      now destruct (is_empty (activeTab s)).
Qed.

(** C4 at its failing inputs.  Closing the overlay while a visible
    persistent tab is active asks the bridge to show that tab twice where
    the claim says once: [toggleSettings] shows it itself, with top offset
    78, and the show/create effect, which runs because [showSettings]
    changed, shows it again with top offset 70.  The call of
    [toggleSettings] also differs from the effect in not testing the url:
    when the tab's url is blank it still asks for the tab to be shown,
    where the claim says that all surfaces stay hidden, and the effect then
    hides them. *)
Theorem overlay_close_shows_tab_twice (s : State) (a : Platform) :
  showSettings s = true -> unique_ids s ->
  In a (platforms s) -> id a = activeTab s -> activeTab s <> [] ->
  is_hidden a = false ->
  issued (toggleSettings s) = [CreateOrShowWebview (id a) (url a) 78]
  /\ snd (step host s ToggleSettings)
     = CreateOrShowWebview (id a) (url a) 78
       :: (if blank_url a then [HideAllWebviews]
           else [CreateOrShowWebview (id a) (url a) 70])
  /\ (blank_url a = false ->
      count (is_show (id a)) (snd (step host s ToggleSettings)) = 2%nat
      /\ ~ overlay_calls_once host s a).
Proof.
  intros Hs Hu Hin Hid Hne Hvis.
  destruct (toggle_commands s) as [_ Hclose].
  destruct (Hclose Hs Hu) as (_ & _ & Hshown & _).
  destruct (Hshown a Hin Hid Hne Hvis) as [Hiss Hcmds].
  split; [exact Hiss|]. split; [exact Hcmds|].
  intros Hurl.
  assert (Hc : count (is_show (id a)) (snd (step host s ToggleSettings)) = 2%nat).
  { rewrite Hcmds, Hurl. unfold count. cbn [List.filter is_show].
    now rewrite str_eqb_refl. }
  split; [exact Hc|].
  intros Hclaim.
  destruct Hclaim as [_ Honce]; [| now symmetry | exact Hurl |].
  - unfold all_tabs. apply in_app_iff. left. unfold visible.
    apply List.filter_In. split; [exact Hin|]. now rewrite Hvis.
  - specialize (Honce Hs). rewrite Hc in Honce. discriminate.
Qed.

End Overlay.

Lemma overlay_close_shows_tab_twice_witness :
  snd (step sample_host overlay_on_A ToggleSettings)
  = [CreateOrShowWebview (lit "a") (lit "https://a.example") 78;
     CreateOrShowWebview (lit "a") (lit "https://a.example") 70]
  /\ count (is_show (lit "a")) (snd (step sample_host overlay_on_A ToggleSettings))
     = 2%nat.
Proof.
  assert (Hu : unique_ids overlay_on_A).
  { unfold unique_ids. cbn. repeat constructor. intros H. inversion H. }
  assert (Hin : In tabA (platforms overlay_on_A)) by now left.
  assert (Hne : activeTab overlay_on_A <> []) by discriminate.
  destruct (overlay_close_shows_tab_twice sample_host overlay_on_A tabA
              eq_refl Hu Hin eq_refl Hne eq_refl) as (_ & Hcmds & Htwice).
  split; [exact Hcmds|]. now destruct (Htwice eq_refl).
Defined.

(** ** The inbound new-tab request *)

Section NewTab.

Context (host : Host).

Lemma or_else_nonempty (a b : jsstring) : a <> [] -> or_else a b = a.
Proof. intros H. unfold or_else. apply is_empty_false in H. now rewrite H. Qed.

(** The name [deriveNameFromUrl] gives: the host name without a leading
    [www.], or the fixed label when the url does not parse or that name
    would be empty. *)
Lemma deriveNameFromUrl_cases (value : jsstring) :
  (forall hostname,
     URL_hostname host value = Some hostname -> strip_www hostname <> [] ->
     deriveNameFromUrl host value = strip_www hostname)
  /\ (forall hostname,
        URL_hostname host value = Some hostname -> strip_www hostname = [] ->
        deriveNameFromUrl host value = NEW_TAB_LABEL)
  /\ (URL_hostname host value = None ->
      deriveNameFromUrl host value = NEW_TAB_LABEL).
Proof.
  unfold deriveNameFromUrl. split; [|split].
  - intros hn -> Hne. now apply or_else_nonempty.
  - intros hn -> ->. reflexivity.
  - intros ->. reflexivity.
Qed.

(** C8, amended. A non-empty url delivered by [new_tab_request] appends
    exactly one ephemeral tab, in any state; its url is the delivered url;
    its name is the url's host name without a leading [www.] when the url
    parses and that name is not empty, and the fixed label otherwise; and
    it becomes the active tab, provided no hidden persistent tab already
    carries the generated id. *)
Theorem new_tab_request_opens_tab (s : State) (payload : jsstring) (now : N) :
  payload <> [] ->
  let t := requested_tab host payload now in
  let s' := fst (step host s (NewTabRequest payload now)) in
  tempTabs s' = tempTabs s ++ [t]
  /\ platforms s' = platforms s
  /\ url t = payload
  /\ (forall hostname,
        URL_hostname host payload = Some hostname -> strip_www hostname <> [] ->
        name t = strip_www hostname)
  /\ ((URL_hostname host payload = None
       \/ exists hostname, URL_hostname host payload = Some hostname
                           /\ strip_www hostname = []) ->
      name t = NEW_TAB_LABEL)
  /\ ((forall p, In p (platforms s) -> id p = id t -> is_hidden p = false) ->
      activeTab s' = id t).
Proof.
  intros Hne t s'.
  assert (Hh : handle host (NewTabRequest payload now) s
               = mkHandled (setActiveTab (id t) (setTempTabs (tempTabs s ++ [t]) s))
                   false true []).
  { cbn [handle]. unfold onNewTabRequest.
    rewrite (or_else_nonempty payload [] Hne).
    apply is_empty_false in Hne. rewrite Hne. reflexivity. }
  destruct (deriveNameFromUrl_cases payload) as (Hn1 & Hn2 & Hn3).
  split; [|split; [|split; [|split; [|split]]]].
  - unfold s'. rewrite step_unfold. cbn [fst].
    destruct (reconciled_frame host s (handle host (NewTabRequest payload now) s))
      as (_ & -> & _).
    now rewrite Hh.
  - unfold s'. rewrite step_platforms, Hh. reflexivity.
  - reflexivity.
  - exact Hn1.
  - intros [H | (hn & H & E)]; [now apply Hn3 | now apply (Hn2 hn)].
  - intros Hfresh. unfold s'. rewrite step_unfold, Hh. cbn [fst].
    unfold reconciled, commit. cbn [fst next newPlatforms newTempTabs orb].
    unfold reconcile.
    cbn [activeTab setActiveTab platforms setTempTabs].
    assert (Hid : is_empty (id t) = false) by reflexivity.
    rewrite Hid. cbn [orb].
    destruct (List.find (has_id (id t)) (platforms s)) as [p|] eqn:F.
    + apply List.find_some in F as [Hin Hp]. apply has_id_eq in Hp.
      rewrite (Hfresh p Hin Hp), andb_false_r. reflexivity.
    + rewrite andb_false_r. reflexivity.
Qed.

End NewTab.

Lemma new_tab_request_opens_tab_witness :
  (lit "https://example.com/x") <> []
  /\ tempTabs (fst (step sample_host two_tabs
                      (NewTabRequest (lit "https://example.com/x") 5)))
     = [mkPlatform (lit "tmp-5") (lit "example.com")
          (lit "https://example.com/x") None]
  /\ activeTab (fst (step sample_host two_tabs
                       (NewTabRequest (lit "https://example.com/x") 5)))
     = lit "tmp-5".
Proof.
  assert (Hne : lit "https://example.com/x" <> []) by discriminate.
  destruct (new_tab_request_opens_tab sample_host two_tabs
              (lit "https://example.com/x") 5 Hne)
    as (Ht & _ & _ & _ & _ & Hact).
  split; [exact Hne|]. split; [exact Ht|].
  apply Hact. intros p [<- | [<- | []]]; reflexivity.
Defined.

(** C8 as stated fails: [about:blank], the url of a window opened without
    a target, has the empty host name, and the tab is not given the empty
    name but the fixed label. *)
Lemma new_tab_named_after_host_fails :
  ~ new_tab_named_after_host sample_host two_tabs (lit "about:blank") 5.
Proof.
  intros H. destruct H as (t & Ht & _ & (hostname & Hh & Hn) & _);
    [discriminate|].
  vm_compute in Hh. injection Hh as <-.
  vm_compute in Ht. injection Ht as <-.
  vm_compute in Hn. discriminate.
Qed.

(** A delivered text that [new URL] rejects gets the fixed label too. *)
Lemma new_tab_for_unparsable_text :
  tempTabs (fst (step sample_host two_tabs (NewTabRequest (lit "example.com/x") 5)))
  = [mkPlatform (lit "tmp-5") NEW_TAB_LABEL (lit "example.com/x") None].
Proof. vm_compute. reflexivity. Qed.

(** ** Removing a platform *)

Section Removing.

Context (host : Host).

Lemma without_spec (i : jsstring) (l : list Platform) (p : Platform) :
  In p (without i l) <-> In p l /\ id p <> i.
Proof.
  unfold without. rewrite List.filter_In, negb_true_iff, has_id_neq. tauto.
Qed.

(** With unique ids, removing by id takes out one record at most and keeps
    the others in their order. *)
Lemma without_unique (i : jsstring) (l : list Platform) (p : Platform) :
  NoDup (List.map id l) -> In p l -> id p = i ->
  exists l1 l2, l = l1 ++ p :: l2 /\ without i l = l1 ++ l2.
Proof.
  intros Hnd Hin Hid. apply List.in_split in Hin as (l1 & l2 & ->).
  exists l1, l2. split; [reflexivity|].
  rewrite List.map_app in Hnd. cbn [List.map] in Hnd.
  apply NoDup_app in Hnd as (_ & Hl1 & Hl2).
  apply NoDup_cons in Hl2 as [Hl2 _].
  assert (H1 : ~ In i (List.map id l1)).
  { intros H. apply (Hl1 i); [now apply list_elem_of_In|].
    rewrite Hid. apply list_elem_of_here. }
  assert (H2 : ~ In i (List.map id l2)).
  { intros H. apply Hl2. rewrite Hid. now apply list_elem_of_In. }
  assert (Hkeep : forall k, ~ In i (List.map id k) -> without i k = k).
  { induction k as [|x k IH]; [reflexivity|]. cbn. intros H.
    assert (E : has_id i x = false) by (apply has_id_neq; tauto).
    rewrite E. cbn. f_equal. apply IH. tauto. }
  unfold without. rewrite List.filter_app. cbn [List.filter].
  rewrite (proj2 (has_id_eq i p) Hid). cbn [negb].
  fold (without i l1) (without i l2).
  rewrite !Hkeep by assumption. reflexivity.
Qed.

Lemma remove_handled (s : State) (i : jsstring) :
  existsb (has_id i) (platforms s) = true -> activeTab s = i ->
  handle host (RemovePlatform i) s
  = mkHandled (setPlatforms (without i (platforms s))
                 (setActiveTab (first_id (without i (platforms s))) s))
      true false [DestroyWebview i].
Proof.
  intros He Ha. cbn [handle]. rewrite He. unfold handleRemovePlatform.
  now rewrite Ha, str_eqb_refl.
Qed.

(** The active tab after its own record is removed: the first tab of the
    strip that remains; when no tab remains in the strip, the first record
    left in the list, shown or not. *)
Lemma remove_active_result (s : State) (i : jsstring) :
  existsb (has_id i) (platforms s) = true -> activeTab s = i ->
  let s' := fst (step host s (RemovePlatform i)) in
  platforms s' = without i (platforms s)
  /\ tempTabs s' = tempTabs s
  /\ activeTab s' = match all_tabs s' with
                    | [] => first_id (without i (platforms s))
                    | p :: _ => id p
                    end.
Proof.
  intros He Ha s'. pose proof (remove_handled s i He Ha) as Hh.
  assert (Hp : platforms s' = without i (platforms s)).
  { unfold s'. now rewrite step_platforms, Hh. }
  assert (Ht : tempTabs s' = tempTabs s).
  { unfold s'. rewrite step_unfold. cbn [fst].
    destruct (reconciled_frame host s (handle host (RemovePlatform i) s))
      as (_ & -> & _).
    now rewrite Hh. }
  split; [exact Hp|]. split; [exact Ht|].
  unfold all_tabs. rewrite Hp, Ht.
  unfold s'. rewrite step_unfold, Hh. cbn [fst].
  unfold reconciled, commit. cbn [fst next newPlatforms orb].
  unfold reconcile, all_tabs.
  cbn [platforms tempTabs activeTab setPlatforms setActiveTab].
  set (updated := without i (platforms s)).
  destruct (visible updated ++ tempTabs s) as [|q rest] eqn:Eall;
    [reflexivity|].
  cbn [length Nat.ltb Nat.leb andb first_id].
  destruct updated as [|p u] eqn:Eu.
  - reflexivity.
  - cbn [first_id List.find]. rewrite (proj2 (has_id_eq (id p) p) eq_refl).
    destruct (is_empty (id p) || is_hidden p) eqn:Hcond; [reflexivity|].
    apply orb_false_elim in Hcond as [_ Hv].
    cbn [activeTab setPlatforms setActiveTab].
    unfold visible in Eall. cbn [List.filter] in Eall.
    rewrite Hv in Eall. cbn in Eall. congruence.
Qed.

End Removing.

(** C2 at its failing input: the active tab [a] is removed, the only
    record left is hidden and there is no ephemeral tab.  The hidden
    record's id becomes the active id, where the claim says it is empty,
    and the bridge is asked to show the hidden tab's surface. *)
Theorem remove_active_selects_hidden_tab :
  let s' := fst (step sample_host one_shown_one_hidden (RemovePlatform (lit "a"))) in
  platforms s' = [set_hidden true tabB]
  /\ all_tabs s' = []
  /\ activeTab s' = lit "b"
  /\ In (CreateOrShowWebview (lit "b") (lit "https://b.example") 70)
       (snd (step sample_host one_shown_one_hidden (RemovePlatform (lit "a")))).
Proof.
  vm_compute. repeat split; try reflexivity. do 3 right. left. reflexivity.
Qed.

(** C1 at its failing inputs: after removing the active platform, and after
    closing the active ephemeral tab, while the only record left is hidden,
    the strip is empty and the active id is not. *)
Theorem active_id_survives_empty_strip :
  (let s' := fst (step sample_host one_shown_one_hidden
                    (RemovePlatform (lit "a"))) in
   all_tabs s' = [] /\ activeTab s' = lit "b" /\ ~ active_in_strip s')
  /\ (let s' := fst (step sample_host hidden_and_ephemeral
                       (CloseTab (lit "tmp-1"))) in
      all_tabs s' = [] /\ activeTab s' = lit "b" /\ ~ active_in_strip s').
Proof.
  split; cbn zeta; (split; [vm_compute; reflexivity|]);
    (split; [vm_compute; reflexivity|]);
    intros H; vm_compute in H; discriminate.
Qed.

(** ** The active tab while the settings overlay is open *)

Section OverlaySelection.

Context (host : Host).

Lemma visible_nil (l : list Platform) :
  visible l = [] <-> forall p, In p l -> is_hidden p = true.
Proof.
  unfold visible. induction l as [|x l IH]; cbn.
  - split; [intros _ p [] | reflexivity].
  - destruct (is_hidden x) eqn:E; cbn.
    + rewrite IH. split.
      * intros H p [<- | Hp]; auto.
      * intros H p Hp. apply H. now right.
    + split; [discriminate|]. intros H.
      specialize (H x (or_introl eq_refl)). congruence.
Qed.

Lemma reconcile_None_iff (s : State) :
  reconcile s = None
  <-> all_tabs s = []
      \/ (activeTab s <> []
          /\ forall p, List.find (has_id (activeTab s)) (platforms s) = Some p ->
                       is_hidden p = false).
Proof.
  unfold reconcile. destruct (all_tabs s) as [|q rest] eqn:E.
  - cbn. tauto.
  - cbn [length Nat.ltb Nat.leb andb].
    destruct (is_empty (activeTab s)) eqn:Ee; cbn [orb].
    + apply is_empty_true in Ee. split; [discriminate|].
      intros [H | [H _]]; congruence.
    + apply is_empty_false in Ee.
      destruct (List.find (has_id (activeTab s)) (platforms s)) as [p|].
      * destruct (is_hidden p) eqn:Eh.
        -- split; [discriminate|]. intros [H | [_ H]]; [discriminate|].
           specialize (H p eq_refl). congruence.
        -- split; [|reflexivity]. intros _. right. split; [exact Ee|].
           now intros p' [= <-].
      * split; [|reflexivity]. intros _. right. split; [exact Ee|]. discriminate.
Qed.

Lemma reconciled_settled (prev : State) (h : Handled) :
  reconcile (next h) = None -> reconciled host prev h = next h.
Proof.
  intros R. unfold reconciled, commit. cbn [fst]. rewrite R.
  now destruct (_ || _).
Qed.

Lemma find_without (a i : jsstring) (l : list Platform) :
  a <> i -> List.find (has_id a) (without i l) = List.find (has_id a) l.
Proof.
  intros Hne. unfold without. induction l as [|x l IH]; [reflexivity|].
  cbn. destruct (has_id i x) eqn:Ei; cbn.
  - apply has_id_eq in Ei.
    assert (E : has_id a x = false) by (apply has_id_neq; congruence).
    now rewrite E.
  - destruct (has_id a x); [reflexivity | exact IH].
Qed.

Lemma find_hide_other (a i : jsstring) (l : list Platform) :
  a <> i ->
  List.find (has_id a)
    (List.map (fun p => if has_id i p then set_hidden true p else p) l)
  = List.find (has_id a) l.
Proof.
  intros Hne. induction l as [|x l IH]; [reflexivity|].
  cbn. destruct (has_id i x) eqn:Ei.
  - apply has_id_eq in Ei.
    assert (E : has_id a x = false) by (apply has_id_neq; congruence).
    change (has_id a (set_hidden true x)) with (has_id a x).
    now rewrite E.
  - destruct (has_id a x); [reflexivity | exact IH].
Qed.

Lemma find_permuted (a : jsstring) (l l' : list Platform) :
  NoDup (List.map id l) -> l' ≡ₚ l ->
  List.find (has_id a) l' = List.find (has_id a) l.
Proof.
  intros Hnd Hp.
  assert (Hnd' : NoDup (List.map id l')).
  { assert (Hm : List.map id l' ≡ₚ List.map id l) by now apply Permutation_map.
    now rewrite Hm. }
  destruct (List.find (has_id a) l) as [p|] eqn:F.
  - apply List.find_some in F as [Hin Hid]. apply has_id_eq in Hid. subst a.
    apply find_has_id_unique; [exact Hnd'|].
    apply list_elem_of_In. rewrite Hp. now apply list_elem_of_In.
  - apply find_none_iff. intros p Hin.
    apply (List.find_none _ _ F). apply list_elem_of_In. rewrite <- Hp.
    now apply list_elem_of_In.
Qed.

Lemma visible_permuted (l l' : list Platform) :
  l' ≡ₚ l -> visible l = [] -> visible l' = [].
Proof.
  intros Hp. rewrite !visible_nil. intros H p Hin. apply H.
  apply list_elem_of_In. rewrite <- Hp. now apply list_elem_of_In.
Qed.

Lemma visible_without (i : jsstring) (l : list Platform) :
  visible l = [] -> visible (without i l) = [].
Proof.
  rewrite !visible_nil. intros H p Hin. apply H.
  now apply without_spec in Hin as [Hin _].
Qed.

Lemma visible_hide (i : jsstring) (l : list Platform) :
  visible l = [] ->
  visible (List.map (fun p => if has_id i p then set_hidden true p else p) l) = [].
Proof.
  rewrite !visible_nil. intros H p Hin.
  apply List.in_map_iff in Hin as (x & <- & Hx).
  destruct (has_id i x); [reflexivity | now apply H].
Qed.

Lemma app_nil_both {A} (a b : list A) : a ++ b = [] <-> a = [] /\ b = [].
Proof.
  split; [apply app_eq_nil | intros [-> ->]; reflexivity].
Qed.

(** A handler that keeps the active id, keeps an empty strip empty and
    keeps what the active id resolves to among the platforms leaves a
    settled state settled. *)
Lemma settled_preserved (s s1 : State) :
  settled s -> activeTab s1 = activeTab s ->
  (all_tabs s = [] -> all_tabs s1 = []) ->
  List.find (has_id (activeTab s)) (platforms s1)
  = List.find (has_id (activeTab s)) (platforms s) ->
  settled s1.
Proof.
  unfold settled. rewrite !reconcile_None_iff. intros [He | [Hne Hf]] Ha Hall Hfind.
  - left. auto.
  - right. rewrite Ha, Hfind. auto.
Qed.

Lemma without_length (i : jsstring) (l : list Platform) :
  (length (without i l) <= length l)%nat.
Proof. unfold without. apply List.filter_length_le. Qed.

(** C9, amended. While the settings overlay is open, from a settled state
    with unique persistent ids, a registry change that leaves the active
    tab's record in place (moving a row, removing or hiding a record other
    than the active one) does not change the active tab id.  Removing the
    active platform does change it: to the first tab left in the strip, or
    to the empty id when no record at all is left. *)
Theorem overlay_selection_follows_registry (s : State) :
  showSettings s = true ->
  (forall e,
     settled s -> NoDup (List.map id (platforms s)) ->
     spares_active e s = true ->
     activeTab (fst (step host s e)) = activeTab s)
  /\ (forall i,
        existsb (has_id i) (platforms s) = true -> activeTab s = i ->
        let s' := fst (step host s (RemovePlatform i)) in
        (all_tabs s' <> [] -> activeTab s' = first_id (all_tabs s'))
        /\ (platforms s' = [] -> tempTabs s' = [] -> activeTab s' = [])).
Proof.
  intros _. split.
  - intros e Hset Hnd Hsp. rewrite step_unfold. cbn [fst].
    assert (Hgoal : forall h,
              activeTab (next h) = activeTab s ->
              (all_tabs s = [] -> all_tabs (next h) = []) ->
              List.find (has_id (activeTab s)) (platforms (next h))
              = List.find (has_id (activeTab s)) (platforms s) ->
              activeTab (reconciled host s h) = activeTab s).
    { intros h Ha Hall Hf. rewrite reconciled_settled; [exact Ha|].
      now apply (settled_preserved s). }
    destruct e; cbn [spares_active] in Hsp; try discriminate; cbn [handle].
    + (* RemovePlatform *)
      apply negb_true_iff, str_eqb_neq in Hsp.
      destruct (existsb (has_id i) (platforms s)); [|now apply Hgoal].
      unfold handleRemovePlatform.
      rewrite (proj2 (str_eqb_neq _ _) Hsp).
      apply Hgoal; cbn [next platforms setPlatforms activeTab]; [reflexivity| |].
      * unfold all_tabs. cbn [platforms tempTabs setPlatforms].
        rewrite !app_nil_both. intros [Hv Ht]. split; [|exact Ht].
        now apply visible_without.
      * now apply find_without.
    + (* MovePlatform *)
      destruct (index <? length (platforms s))%nat eqn:Hi; [|now apply Hgoal].
      apply Nat.ltb_lt in Hi.
      destruct (move_updater_permutes (platforms s) index direction Hi) as [Hperm _].
      unfold handleMovePlatform.
      apply Hgoal; cbn [next platforms setPlatforms activeTab]; [reflexivity| |].
      * unfold all_tabs. cbn [platforms tempTabs setPlatforms].
        rewrite !app_nil_both. intros [Hv Ht]. split; [|exact Ht].
        now apply (visible_permuted (platforms s)).
      * now apply find_permuted.
    + (* CloseTab *)
      apply negb_true_iff, str_eqb_neq in Hsp.
      destruct (in_strip i s); [|now apply Hgoal].
      unfold handleCloseTab. rewrite (proj2 (str_eqb_neq _ _) Hsp).
      destruct (existsb (has_id i) (tempTabs s)).
      * apply Hgoal; cbn [next platforms tempTabs setTempTabs activeTab];
          [reflexivity| |reflexivity].
        unfold all_tabs. cbn [platforms tempTabs setTempTabs].
        rewrite !app_nil_both. intros [Hv Ht]. split; [exact Hv|].
        now rewrite Ht.
      * apply Hgoal; cbn [next platforms setPlatforms activeTab]; [reflexivity| |].
        -- unfold all_tabs. cbn [platforms tempTabs setPlatforms].
           rewrite !app_nil_both. intros [Hv Ht]. split; [|exact Ht].
           now apply visible_hide.
        -- now apply find_hide_other.
  - intros i He Ha s'.
    destruct (remove_active_result host s i He Ha) as (Hp & Ht & Hact).
    fold s' in Hp, Ht, Hact. split.
    + intros Hne. rewrite Hact. destruct (all_tabs s'); [congruence | reflexivity].
    + intros Hp' Ht'. rewrite Hact. unfold all_tabs. rewrite Hp', Ht'. cbn.
      now rewrite <- Hp, Hp'.
Qed.

End OverlaySelection.

Lemma overlay_selection_follows_registry_witness :
  activeTab (fst (step sample_host overlay_two_tabs (RemovePlatform (lit "b"))))
  = lit "a"
  /\ activeTab (fst (step sample_host overlay_two_tabs (MovePlatform 1 up)))
     = lit "a"
  /\ activeTab (fst (step sample_host overlay_two_tabs (RemovePlatform (lit "a"))))
     = lit "b".
Proof.
  destruct (overlay_selection_follows_registry sample_host overlay_two_tabs eq_refl)
    as [Hkeep Hmove].
  assert (Hnd : NoDup (List.map id (platforms overlay_two_tabs))).
  { cbn. repeat constructor.
    - intros H. apply list_elem_of_In in H. destruct H as [H | []]. discriminate.
    - intros H. inversion H. }
  split; [|split].
  - apply (Hkeep (RemovePlatform (lit "b"))); [reflexivity | exact Hnd | reflexivity].
  - apply (Hkeep (MovePlatform 1 up)); [reflexivity | exact Hnd | reflexivity].
  - destruct (Hmove (lit "a") eq_refl eq_refl) as [H _].
    apply H. vm_compute. discriminate.
Defined.

(** C9 as stated fails: removing the active platform from the settings
    panel reassigns the active tab id. *)
Lemma overlay_freezes_selection_fails :
  ~ overlay_freezes_selection sample_host overlay_two_tabs
      (RemovePlatform (lit "a")).
Proof.
  intros H. specialize (H eq_refl eq_refl). vm_compute in H. discriminate.
Qed.

(** ** The active tab names a tab of a non-empty strip *)

Section StripInvariant.

Context (host : Host).

Lemma ids_app (i : jsstring) (a b : list Platform) :
  In i (List.map id (a ++ b)) <-> In i (List.map id a) \/ In i (List.map id b).
Proof. now rewrite List.map_app, in_app_iff. Qed.

Lemma first_id_resolves (l : list Platform) :
  first_id l = [] \/ In (first_id l) (List.map id l).
Proof. destruct l as [|p l]; [now left | right; now left]. Qed.

Lemma ids_without (a i : jsstring) (l : list Platform) :
  In a (List.map id (without i l)) <-> In a (List.map id l) /\ a <> i.
Proof.
  rewrite !List.in_map_iff. split.
  - intros (p & <- & Hp). apply without_spec in Hp as [Hp Hne]. eauto.
  - intros [(p & <- & Hp) Hne]. exists p. split; [reflexivity|].
    now apply without_spec.
Qed.

Lemma ids_rewritten (c : Platform -> bool) (f : Platform -> Platform)
    (l : list Platform) :
  (forall p, id (f p) = id p) ->
  List.map id (List.map (fun p => if c p then f p else p) l) = List.map id l.
Proof.
  intros Hf. rewrite List.map_map. apply List.map_ext.
  intros p. now destruct (c p).
Qed.

Lemma ids_visible (i : jsstring) (l : list Platform) :
  In i (List.map id (visible l)) -> In i (List.map id l).
Proof.
  rewrite !List.in_map_iff. intros (p & <- & Hp).
  apply List.filter_In in Hp as [Hp _]. eauto.
Qed.

Lemma ids_strip (i : jsstring) (s : State) :
  In i (List.map id (all_tabs s)) ->
  In i (List.map id (platforms s ++ tempTabs s)).
Proof.
  unfold all_tabs. rewrite !ids_app. intros [H | H]; [left | now right].
  now apply ids_visible.
Qed.

Lemma existsb_has_id (i : jsstring) (l : list Platform) :
  existsb (has_id i) l = true <-> In i (List.map id l).
Proof.
  rewrite List.existsb_exists, List.in_map_iff. split.
  - intros (p & Hp & E). apply has_id_eq in E. eauto.
  - intros (p & E & Hp). exists p. split; [exact Hp | now apply has_id_eq].
Qed.

Lemma active_resolves_iff (s : State) :
  active_resolves s <-> resolves_in (activeTab s) (platforms s) (tempTabs s).
Proof. unfold active_resolves, resolves_in. now rewrite ids_app. Qed.

Lemma resolves_first_id (ps ts : list Platform) (l : list Platform) :
  (forall i, In i (List.map id l) ->
             In i (List.map id ps) \/ In i (List.map id ts)) ->
  resolves_in (first_id l) ps ts.
Proof.
  intros H. destruct (first_id_resolves l) as [-> | Hin]; [now left|].
  right. now apply H.
Qed.

(** Every handler leaves the active id empty or naming a record. *)
Lemma handle_keeps_resolution (e : Event) (s : State) :
  initialized s = true -> active_resolves s ->
  active_resolves (next (handle host e s)).
Proof.
  intros Hi. rewrite !active_resolves_iff. intros Hr.
  destruct e; cbn [handle]; try rewrite Hi; try exact Hr.
  all: try (unfold_handlers; repeat case_match; cbn; exact Hr).
  all: unfold_handlers.
  all: repeat match goal with
         | |- context [if ?b then _ else _] => destruct b eqn:?
         | |- context [match ?x with _ => _ end] => destruct x eqn:?
         end.
  all: cbn [next platforms tempTabs activeTab setPlatforms setTempTabs
            setActiveTab setShowAddForm setShowSettings setShowQuickAdd
            setInitialized setNewName setNewUrl setQuickName setQuickUrl
            resetAddForm resetQuickAdd]; try exact Hr.
  all: try (apply resolves_first_id; intros j Hj;
            rewrite ?ids_app, ?ids_without in Hj;
            rewrite ?ids_app, ?ids_without;
            repeat match goal with
                   | H : In _ (List.map id (visible _)) |- _ => apply ids_visible in H
                   | H : _ \/ _ |- _ => destruct H
                   | H : _ /\ _ |- _ => destruct H
                   end;
            rewrite ?ids_rewritten in * by reflexivity; tauto).
  all: unfold resolves_in in *.
  all: try (right; right; rewrite List.map_app, in_app_iff; right; now left).
  all: try (right; left; rewrite List.map_app, in_app_iff; right; now left).
  all: rewrite ?ids_rewritten by reflexivity.
  all: try (right; left; apply List.in_map;
            match goal with H : _ !! _ = Some _ |- _ =>
              apply list_elem_of_lookup_2, list_elem_of_In in H; exact H end).
  all: try (match goal with H : str_eqb _ _ = false |- _ =>
              apply str_eqb_neq in H end;
            rewrite ?ids_without; tauto).
  all: try (match goal with H : in_strip ?i ?s0 = true |- _ =>
              apply existsb_has_id, ids_strip in H; rewrite ids_app in H; tauto
            end).
  all: try exact Hr.
  all: match goal with H : (_ <? _)%nat = true |- _ => apply Nat.ltb_lt in H;
         destruct (move_updater_permutes (platforms s) index direction H) as [Hperm _]
       end.
  all: assert (Hm : List.map id (elements (move_updater index direction (platforms s)))
                    ≡ₚ List.map id (platforms s)) by now apply Permutation_map.
  all: destruct Hr as [Hr | [Hr | Hr]]; [now left | | now right; right].
  all: right; left; apply list_elem_of_In; rewrite Hm; now apply list_elem_of_In.
Qed.

End StripInvariant.

Section StripInvariantSteps.

Context (host : Host).

(** What the reconciliation effect achieves on a state whose active id is
    empty or names a record. *)
Lemma reconcile_establishes (s : State) :
  active_resolves s ->
  let s1 := match reconcile s with
            | Some i => setActiveTab i s
            | None => s
            end in
  active_resolves s1 /\ active_shown s1.
Proof.
  intros Hr. destruct (reconcile s) as [i|] eqn:R; cbn zeta.
  - assert (Hi : all_tabs s <> [] /\ i = first_id (all_tabs s)).
    { unfold reconcile in R. destruct (all_tabs s) as [|q rest]; [discriminate|].
      cbn [length Nat.ltb Nat.leb andb] in R.
      destruct (_ || _); [|discriminate]. injection R as <-.
      split; [discriminate | reflexivity]. }
    destruct Hi as [Hne ->].
    assert (Hin : In (first_id (all_tabs s)) (List.map id (all_tabs s))).
    { destruct (all_tabs s); [congruence | now left]. }
    split.
    + right. cbn [activeTab setActiveTab platforms tempTabs]. now apply ids_strip.
    + intros _. exact Hin.
  - split; [exact Hr|]. intros Hne.
    apply reconcile_None_iff in R as [R | [Ha Hf]]; [congruence|].
    destruct Hr as [Hr | Hr]; [congruence|].
    unfold all_tabs. rewrite ids_app in *.
    destruct Hr as [Hr | Hr]; [left | now right].
    apply List.in_map_iff in Hr as (p & Hid & Hp).
    destruct (List.find (has_id (activeTab s)) (platforms s)) as [q|] eqn:F.
    + apply List.find_some in F as [Hq Hqid]. apply has_id_eq in Hqid.
      rewrite <- Hqid. apply List.in_map. unfold visible.
      apply List.filter_In. split; [exact Hq|].
      now rewrite (Hf q eq_refl).
    + exfalso. pose proof (List.find_none _ _ F p Hp) as Hn.
      apply has_id_neq in Hn. congruence.
Qed.

(** One step keeps the active id on a tab of the strip whenever the strip
    is not empty. *)
Lemma step_keeps_active_shown (e : Event) (s : State) :
  initialized s = true -> active_resolves s -> active_shown s ->
  let s' := fst (step host s e) in
  initialized s' = true /\ active_resolves s' /\ active_shown s'.
Proof.
  intros Hi Hr Hs s'. split.
  { unfold s'. rewrite step_initialized, Hi. now destruct (is_load e). }
  pose proof (handle_keeps_resolution host e s Hi Hr) as Hh.
  unfold s'. rewrite step_unfold. cbn [fst]. unfold reconciled, commit. cbn [fst].
  destruct (newPlatforms (handle host e s)) eqn:Np;
    [now apply reconcile_establishes|].
  destruct (newTempTabs (handle host e s)) eqn:Nt;
    [now apply reconcile_establishes|].
  destruct (str_eqb (activeTab s) (activeTab (next (handle host e s)))) eqn:Ea;
    [|now apply reconcile_establishes].
  cbn [orb negb]. split; [exact Hh|].
  apply str_eqb_eq in Ea.
  unfold active_shown, all_tabs in *.
  rewrite (handle_platforms_frame host e s Np),
    (handle_tempTabs_frame host e s Nt), <- Ea.
  exact Hs.
Qed.

Lemma run_keeps_active_shown (es : list Event) (s : State) :
  initialized s = true -> active_resolves s -> active_shown s ->
  active_shown (fst (run host s es)).
Proof.
  revert s. induction es as [|e es IH]; intros s Hi Hr Hs; [exact Hs|].
  rewrite run_cons. cbn [fst].
  destruct (step_keeps_active_shown e s Hi Hr Hs) as (Hi' & Hr' & Hs').
  now apply IH.
Qed.

(** When the startup load resolves before any other event, every state
    reached afterwards has its active id on a tab of the strip, provided
    the strip is not empty. *)
Lemma active_shown_after_load (loaded : list Platform) (es : list Event) :
  active_shown (fst (run host initial (LoadResolved loaded :: es))).
Proof.
  rewrite run_cons. cbn [fst].
  assert (H : let s1 := fst (step host initial (LoadResolved loaded)) in
              initialized s1 = true /\ active_resolves s1 /\ active_shown s1).
  { cbn zeta. split; [now rewrite step_initialized|].
    rewrite step_unfold. cbn [fst handle initialized initial].
    unfold reconciled, commit, onLoaded. cbn [fst newPlatforms orb next].
    apply reconcile_establishes.
    destruct loaded as [|p l]; [now left|].
    right. cbn. now left. }
  destruct H as (Hi & Hr & Hs). now apply run_keeps_active_shown.
Qed.

End StripInvariantSteps.

(** * Further properties of the component *)

(** ** Which commands a step can issue *)

Section StepCommands.

Context (host : Host).

Lemma filter_step (f : Cmd -> bool) (s : State) (e : Event) :
  exists b1 b2 b3 : bool,
    List.filter f (snd (step host s e))
    = List.filter f (issued (handle host e s))
      ++ (if b1 then List.filter f (save_effect host (next (handle host e s))) else [])
      ++ (if b2 then List.filter f (webview_effect (next (handle host e s))) else [])
      ++ (if b3 then List.filter f (webview_effect (fst (step host s e))) else []).
Proof.
  rewrite step_unfold. cbn [fst snd commit].
  set (h := handle host e s).
  exists (newPlatforms h || xorb (initialized s) (initialized (next h))),
    (negb (str_eqb (activeTab s) (activeTab (next h)))
     || newPlatforms h || newTempTabs h
     || xorb (showSettings s) (showSettings (next h))),
    (negb (str_eqb (activeTab (next h)) (activeTab (reconciled host s h)))).
  rewrite !List.filter_app.
  destruct (newPlatforms h || xorb (initialized s) (initialized (next h)));
    destruct (negb (str_eqb (activeTab s) (activeTab (next h)))
              || newPlatforms h || newTempTabs h
              || xorb (showSettings s) (showSettings (next h)));
    destruct (str_eqb (activeTab (next h)) (activeTab (reconciled host s h)));
    cbn [negb app List.filter]; rewrite ?app_nil_r, <- ?app_assoc; reflexivity.
Qed.

Lemma webview_effect_cases (s : State) :
  webview_effect s = []
  \/ showSettings s = false
     /\ exists p, In p (tempTabs s ++ platforms s) /\ id p = activeTab s
                  /\ activeTab s <> [] /\ webview_effect s = show_or_hide p.
Proof.
  unfold webview_effect.
  destruct (showSettings s); [now left|]. cbn [orb].
  destruct (is_empty (activeTab s)) eqn:Ee; [now left|].
  apply is_empty_false in Ee.
  destruct (List.find (has_id (activeTab s)) (tempTabs s)) as [p|] eqn:Ft.
  - right. split; [reflexivity|]. exists p.
    apply List.find_some in Ft as [Hin Hid]. apply has_id_eq in Hid.
    rewrite in_app_iff. auto.
  - destruct (List.find (has_id (activeTab s)) (platforms s)) as [p|] eqn:Fp;
      [|now left].
    right. split; [reflexivity|]. exists p.
    apply List.find_some in Fp as [Hin Hid]. apply has_id_eq in Hid.
    rewrite in_app_iff. auto.
Qed.

Lemma effects_filter_nil (f : Cmd -> bool) (s : State) :
  f HideAllWebviews = false ->
  (forall i u o, f (CreateOrShowWebview i u o) = false) ->
  List.filter f (webview_effect s) = [].
Proof.
  intros Hh Hc. destruct (webview_effect_cases s) as [-> | (_ & p & _ & _ & _ & ->)];
    [reflexivity|].
  unfold show_or_hide. destruct (blank_url p); cbn; now rewrite ?Hh, ?Hc.
Qed.

Lemma save_filter_nil (f : Cmd -> bool) (s : State) :
  (forall d, f (InvokeSavePlatforms d) = false) ->
  (forall d, f (LocalStorageSet d) = false) ->
  List.filter f (save_effect host s) = [].
Proof.
  intros H1 H2. unfold save_effect, savePlatformsToFile.
  destruct (initialized s); cbn; now rewrite ?H1, ?H2.
Qed.

(** X1. The bridge is asked to destroy a surface only when a platform is
    removed in the panel or a tab is closed in the strip, once, for that
    id; no effect and no other handler ever asks for it. *)
Theorem destroy_only_on_remove_or_close (s : State) (e : Event) :
  List.filter is_destroy (snd (step host s e))
  = match e with
    | RemovePlatform i =>
        if existsb (has_id i) (platforms s) then [DestroyWebview i] else []
    | CloseTab i => if in_strip i s then [DestroyWebview i] else []
    | _ => []
    end.
Proof.
  destruct (filter_step is_destroy s e) as (b1 & b2 & b3 & ->).
  rewrite save_filter_nil, !effects_filter_nil by reflexivity.
  destruct b1, b2, b3; cbn [app]; rewrite app_nil_r;
    destruct e; handler_cases; reflexivity.
Qed.

(** X2. A reload is only ever requested for the tab that is active, and it
    changes nothing in the component. *)
Theorem reload_only_for_active_tab (s : State) (e : Event) (i : jsstring) :
  In (ReloadWebview i) (snd (step host s e)) ->
  e = ReloadTab i /\ activeTab s = i /\ in_strip i s = true
  /\ step host s e = (s, [ReloadWebview i]).
Proof.
  intros Hin.
  assert (Hf : In (ReloadWebview i) (List.filter is_reload (snd (step host s e)))).
  { apply List.filter_In. auto. }
  destruct (filter_step is_reload s e) as (b1 & b2 & b3 & Hfs).
  rewrite Hfs, save_filter_nil, !effects_filter_nil in Hf by reflexivity.
  assert (Hi : In (ReloadWebview i) (List.filter is_reload (issued (handle host e s)))).
  { destruct b1, b2, b3; cbn [app] in Hf; now rewrite app_nil_r in Hf. }
  clear Hf Hfs.
  destruct e; cbn [handle] in Hi;
    try (revert Hi; handler_cases; intros Hi; now destruct Hi).
  destruct (in_strip i0 s) eqn:Hs; cbn [andb] in Hi; [|now destruct Hi].
  destruct (str_eqb (activeTab s) i0) eqn:Ha; [|now destruct Hi].
  cbn in Hi. destruct Hi as [[= <-] | []].
  apply str_eqb_eq in Ha. split; [reflexivity|]. split; [exact Ha|].
  split; [exact Hs|].
  rewrite step_unfold. cbn [handle]. rewrite Hs, (proj2 (str_eqb_eq _ _) Ha).
  cbn [andb handleReloadPlatform issued next]. unfold reconciled, commit.
  cbn [fst snd next newPlatforms newTempTabs orb].
  rewrite !str_eqb_refl, !xorb_nilpotent. reflexivity.
Qed.

End StepCommands.

Lemma reload_only_for_active_tab_witness :
  In (ReloadWebview (lit "a"))
    (snd (step sample_host two_tabs (ReloadTab (lit "a"))))
  /\ step sample_host two_tabs (ReloadTab (lit "a"))
     = (two_tabs, [ReloadWebview (lit "a")]).
Proof.
  assert (H : In (ReloadWebview (lit "a"))
                (snd (step sample_host two_tabs (ReloadTab (lit "a"))))).
  { vm_compute. left. reflexivity. }
  split; [exact H|].
  now destruct (reload_only_for_active_tab sample_host two_tabs _ _ H)
    as (_ & _ & _ & Hs).
Defined.

Section StepCommandsMore.

Context (host : Host).

(** The reconciliation effect changes nothing but the active id. *)
Lemma reconciled_only_active (prev : State) (h : Handled) :
  exists a, reconciled host prev h = setActiveTab a (next h).
Proof.
  unfold reconciled, commit. cbn [fst].
  assert (Hid : next h = setActiveTab (activeTab (next h)) (next h))
    by now destruct (next h).
  destruct (_ || _); [destruct (reconcile (next h)) as [i|]|]; eauto.
Qed.

Lemma step_showSettings (s : State) (e : Event) :
  showSettings (fst (step host s e)) = showSettings (next (handle host e s)).
Proof.
  rewrite step_unfold. cbn [fst].
  now destruct (reconciled_frame host s (handle host e s)) as (_ & _ & _ & ->).
Qed.

Lemma step_showQuickAdd (s : State) (e : Event) :
  showQuickAdd (fst (step host s e)) = showQuickAdd (next (handle host e s)).
Proof.
  rewrite step_unfold. cbn [fst].
  now destruct (reconciled_only_active s (handle host e s)) as [a ->].
Qed.

Lemma webview_effect_overlay (s : State) :
  showSettings s = true -> webview_effect s = [].
Proof. intros H. unfold webview_effect. now rewrite H. Qed.

Lemma handle_show_closes_overlay (e : Event) (s : State) :
  showSettings (next (handle host e s)) = true ->
  List.filter is_show_cmd (issued (handle host e s)) = [].
Proof.
  destruct e; handler_cases; try reflexivity; discriminate.
Qed.

(** X3. A step that ends with the settings overlay open never asks the
    bridge to show a surface, whatever the event: tab activations under the
    overlay only change the active id. *)
Theorem no_show_under_overlay (s : State) (e : Event) :
  showSettings (fst (step host s e)) = true ->
  List.filter is_show_cmd (snd (step host s e)) = [].
Proof.
  intros Ho. destruct (filter_step host is_show_cmd s e) as (b1 & b2 & b3 & ->).
  assert (Hn : showSettings (next (handle host e s)) = true)
    by now rewrite <- step_showSettings.
  rewrite (handle_show_closes_overlay e s Hn).
  rewrite (webview_effect_overlay _ Hn), (webview_effect_overlay _ Ho).
  rewrite save_filter_nil by reflexivity.
  now destruct b1, b2, b3.
Qed.

Lemma handle_issues_no_persist (e : Event) (s : State) :
  List.filter is_persist (issued (handle host e s)) = [].
Proof. destruct e; handler_cases; reflexivity. Qed.

(** X4. Whenever a step stores the platform list, it stores the list as it
    is after the step, once in the primary location and once, with the same
    text, in [localStorage]; ephemeral tabs are never part of what is
    stored. *)
Theorem stores_current_platform_list (s : State) (e : Event) :
  let d := JSON_stringify host (platforms (fst (step host s e))) in
  List.filter is_persist (snd (step host s e)) = []
  \/ List.filter is_persist (snd (step host s e))
     = [InvokeSavePlatforms d; LocalStorageSet d].
Proof.
  cbn zeta. destruct (filter_step host is_persist s e) as (b1 & b2 & b3 & ->).
  rewrite handle_issues_no_persist, !effects_filter_nil by reflexivity.
  rewrite step_platforms.
  destruct b1, b2, b3; cbn [app]; auto;
    unfold save_effect, savePlatformsToFile;
    destruct (initialized (next (handle host e s))); cbn; auto.
Qed.

Lemma handle_keeps_exclusion (e : Event) (s : State) :
  showSettings s && showQuickAdd s = false ->
  showSettings (next (handle host e s)) && showQuickAdd (next (handle host e s))
  = false.
Proof.
  intros Hx. destruct e; revert Hx; handler_cases; intros Hx;
    rewrite ?andb_false_r; try reflexivity; try exact Hx;
    destruct (showSettings s), (showQuickAdd s); cbn in *; congruence.
Qed.

(** X5. In every state reached from the initial one, the quick-add popover
    and the settings overlay are never open together: opening the overlay
    dismisses the popover, and the [+] button does nothing under the
    overlay. *)
Theorem popover_and_overlay_exclusive (es : list Event) :
  let s := fst (run host initial es) in
  showSettings s && showQuickAdd s = false.
Proof.
  cbn zeta.
  assert (H : forall s, showSettings s && showQuickAdd s = false ->
                        showSettings (fst (run host s es))
                        && showQuickAdd (fst (run host s es)) = false).
  { induction es as [|e es IH]; intros s Hs; [exact Hs|].
    rewrite run_cons. cbn [fst]. apply IH.
    rewrite step_showSettings, step_showQuickAdd.
    now apply handle_keeps_exclusion. }
  now apply H.
Qed.

End StepCommandsMore.

Lemma no_show_under_overlay_witness :
  List.filter is_show_cmd
    (snd (step sample_host overlay_two_tabs (SelectTab (lit "b")))) = []
  /\ activeTab (fst (step sample_host overlay_two_tabs (SelectTab (lit "b"))))
     = lit "b".
Proof.
  split; [|vm_compute; reflexivity].
  apply (no_show_under_overlay sample_host overlay_two_tabs (SelectTab (lit "b"))).
  vm_compute. reflexivity.
Defined.

(** ** Adding a platform *)

Section Adding.

Context (host : Host).

(** A handler that leaves the state as it is causes no render and no
    command. *)
Lemma step_unchanged (s : State) (e : Event) :
  handle host e s = unchanged s -> step host s e = (s, []).
Proof.
  intros Hh. rewrite step_unfold, Hh. unfold reconciled, commit, unchanged.
  cbn [fst snd next newPlatforms newTempTabs issued orb].
  now rewrite !str_eqb_refl, !xorb_nilpotent.
Qed.

(** What [normalizeUrl] makes of a text that is not blank: a url that is
    not blank either and that begins with a scheme. *)
Lemma normalizeUrl_stored (v : jsstring) :
  trim v <> [] ->
  normalizeUrl v <> [] /\ trim (normalizeUrl v) = normalizeUrl v
  /\ has_scheme (normalizeUrl v) = true.
Proof.
  intros Hne. split; [|split].
  - unfold normalizeUrl. apply is_empty_false in Hne. rewrite Hne.
    apply is_empty_false in Hne.
    destruct (has_scheme (trim v)); [exact Hne | discriminate].
  - apply trimmed_trim_fix, normalizeUrl_trimmed.
  - unfold normalizeUrl. apply is_empty_false in Hne. rewrite Hne.
    destruct (has_scheme (trim v)) eqn:E; [exact E | apply has_scheme_https].
Qed.

Lemma stored_url_normalized (i n v : jsstring) (h : option bool) :
  trim v <> [] -> stored_url (mkPlatform i n (normalizeUrl v) h).
Proof.
  intros Hne. destruct (normalizeUrl_stored v Hne) as (H1 & H2 & H3).
  split; [|exact H3]. unfold blank_url. cbn [url]. rewrite H2.
  apply is_empty_false in H1. now rewrite H1.
Qed.

Lemma is_empty_app_r (a b : jsstring) : b <> [] -> is_empty (a ++ b) = false.
Proof.
  intros Hb. apply is_empty_false. intros E. now apply app_eq_nil in E as [_ E].
Qed.

Lemma add_handled (s : State) (now : N) :
  showAddForm s = true -> trim (newName s) <> [] -> trim (newUrl s) <> [] ->
  handle host (AddPlatform now) s
  = mkHandled
      (setActiveTab (id (added_platform host now s))
         (resetAddForm
            (setShowAddForm false
               (setPlatforms (platforms s ++ [added_platform host now s]) s))))
      true false [].
Proof.
  intros Hf Hn Hu. cbn [handle]. rewrite Hf. unfold handleAddPlatform.
  apply is_empty_false in Hn, Hu. now rewrite Hn, Hu.
Qed.

(** X6. Confirming the add form with a name and a url that are not blank
    appends exactly one record at the end of the platform list: its name is
    the trimmed name, its url the normalized url (never blank, always with
    a scheme); the form is closed and cleared, the ephemeral tabs are
    untouched, and the new record becomes the active tab unless a hidden
    platform already carries the generated id.  After the startup load the
    new list is written once. *)
Theorem add_platform_appends (s : State) (now : N) :
  showAddForm s = true -> trim (newName s) <> [] -> trim (newUrl s) <> [] ->
  let p := added_platform host now s in
  let s' := fst (step host s (AddPlatform now)) in
  platforms s' = platforms s ++ [p]
  /\ tempTabs s' = tempTabs s
  /\ stored_url p /\ is_hidden p = false
  /\ showAddForm s' = false /\ newName s' = [] /\ newUrl s' = []
  /\ ((forall q, In q (platforms s) -> id q = id p -> is_hidden q = false) ->
      activeTab s' = id p)
  /\ (initialized s = true ->
      writes (snd (step host s (AddPlatform now))) = 1%nat).
Proof.
  intros Hf Hn Hu p s'. pose proof (add_handled s now Hf Hn Hu) as Hh.
  fold p in Hh.
  destruct (reconciled_only_active host s (handle host (AddPlatform now) s))
    as [a Ha].
  assert (Hs' : s' = setActiveTab a (next (handle host (AddPlatform now) s))).
  { unfold s'. rewrite step_unfold. exact Ha. }
  rewrite Hh in Hs'. cbn [next] in Hs'.
  split; [now rewrite Hs'|]. split; [now rewrite Hs'|].
  split; [now apply stored_url_normalized|]. split; [reflexivity|].
  split; [now rewrite Hs'|]. split; [now rewrite Hs'|]. split; [now rewrite Hs'|].
  split.
  - intros Hfresh. unfold s'. rewrite step_unfold. cbn [fst].
    rewrite reconciled_settled; [now rewrite Hh|].
    rewrite Hh. cbn [next]. apply reconcile_None_iff. right.
    cbn [activeTab setActiveTab platforms setPlatforms resetAddForm
         setShowAddForm setNewName setNewUrl].
    split.
    + apply is_empty_false. unfold p, added_platform. cbn [id].
      apply is_empty_app_r. discriminate.
    + intros q Fq. apply List.find_some in Fq as [Hin Hid].
      apply has_id_eq in Hid. apply in_app_iff in Hin as [Hin | [<- | []]];
        [now apply Hfresh | reflexivity].
  - intros Hi. rewrite step_writes. cbn zeta. rewrite Hh.
    cbn [newPlatforms next orb andb initialized setActiveTab resetAddForm
         setShowAddForm setNewName setNewUrl setPlatforms].
    now rewrite Hi.
Qed.

(** X7. A submission whose required text is blank does nothing at all: the
    add form with a blank name or url, and the quick-add popover with a
    blank url, leave the state as it is and issue no command. *)
Theorem blank_submission_is_noop (s : State) (now : N) :
  (trim (newName s) = [] \/ trim (newUrl s) = [] ->
   step host s (AddPlatform now) = (s, []))
  /\ (trim (quickUrl s) = [] -> step host s (QuickConfirm now) = (s, [])).
Proof.
  split.
  - intros Hb. apply step_unchanged. cbn [handle].
    destruct (showAddForm s); [|reflexivity]. unfold handleAddPlatform.
    destruct Hb as [-> | ->]; cbn [is_empty orb]; [reflexivity|].
    now rewrite orb_true_r.
  - intros Hb. apply step_unchanged. cbn [handle].
    destruct (showQuickAdd s); [|reflexivity].
    unfold onQuickConfirm, handleQuickAdd, normalizeUrl. rewrite Hb.
    cbn [is_empty].
    destruct (List.find _ _) as [t|]; [destruct (blank_url t)|]; reflexivity.
Qed.

Lemma stored_url_set_hidden (b : bool) (p : Platform) :
  stored_url (set_hidden b p) <-> stored_url p.
Proof. reflexivity. Qed.

Lemma Forall_rewritten (P : Platform -> Prop) (c : Platform -> bool)
    (f : Platform -> Platform) (l : list Platform) :
  (forall p, P p -> P (f p)) -> Forall P l ->
  Forall P (List.map (fun p => if c p then f p else p) l).
Proof.
  intros Hf H. induction H as [|p l Hp _ IH]; cbn; constructor; [|exact IH].
  destruct (c p); auto.
Qed.

Lemma Forall_without (P : Platform -> Prop) (i : jsstring) (l : list Platform) :
  Forall P l -> Forall P (without i l).
Proof.
  rewrite !List.Forall_forall. intros H p Hp. apply H.
  now apply without_spec in Hp as [Hp _].
Qed.

Lemma Forall_permuted (P : Platform -> Prop) (l l' : list Platform) :
  l' ≡ₚ l -> Forall P l -> Forall P l'.
Proof.
  intros Hp. rewrite !List.Forall_forall. intros H p Hin. apply H.
  apply list_elem_of_In. rewrite <- Hp. now apply list_elem_of_In.
Qed.

(** X8. No event of the component ever gives a persistent tab a blank or
    scheme-less url: if every platform has a stored url, so does every
    platform after any event other than the startup load, which installs
    whatever the store held. *)
Theorem platforms_keep_stored_urls (s : State) (e : Event) :
  is_load e = false -> Forall stored_url (platforms s) ->
  Forall stored_url (platforms (fst (step host s e))).
Proof.
  intros He H. rewrite step_platforms.
  destruct e; try discriminate He; cbn [handle];
    try (unfold_handlers; repeat case_match; cbn; exact H).
  - (* AddPlatform *)
    destruct (showAddForm s); [|exact H]. unfold handleAddPlatform.
    destruct (is_empty (trim (newName s))) eqn:En; [exact H|].
    destruct (is_empty (trim (newUrl s))) eqn:Eu; [exact H|].
    cbn [orb next platforms setActiveTab resetAddForm setShowAddForm
         setNewName setNewUrl setPlatforms].
    apply Forall_app. split; [exact H|]. constructor; [|constructor].
    apply stored_url_normalized. now apply is_empty_false.
  - (* RemovePlatform *)
    destruct (existsb _ _); [|exact H]. unfold handleRemovePlatform.
    cbn [next platforms setPlatforms]. now apply Forall_without.
  - (* MovePlatform *)
    destruct (index <? length (platforms s))%nat eqn:Hi; [|exact H].
    apply Nat.ltb_lt in Hi. cbn [handleMovePlatform next platforms setPlatforms].
    destruct (move_updater_permutes (platforms s) index direction Hi) as [Hp _].
    now apply (Forall_permuted _ (platforms s)).
  - (* PanelItemClick *)
    destruct (platforms s !! index) as [p|]; [|exact H].
    unfold onPanelItemClick. destruct (is_hidden p); [|exact H].
    cbn [next platforms setPlatforms setActiveTab].
    apply Forall_rewritten; [|exact H]. intros q. now rewrite stored_url_set_hidden.
  - (* CloseTab *)
    destruct (in_strip i s); [|exact H]. unfold handleCloseTab.
    destruct (existsb _ _); cbn [next platforms setPlatforms setTempTabs].
    + now destruct (str_eqb _ _).
    + apply Forall_rewritten; [|exact H]. intros q. now rewrite stored_url_set_hidden.
Qed.

End Adding.

Lemma add_platform_appends_witness :
  let s := setNewUrl (lit " chat.deepseek.com ")
             (setNewName (lit "DeepSeek")
                (setShowAddForm true (setInitialized true initial))) in
  platforms (fst (step sample_host s (AddPlatform 7)))
  = [mkPlatform (lit "deepseek-7") (lit "DeepSeek")
       (lit "https://chat.deepseek.com") None]
  /\ activeTab (fst (step sample_host s (AddPlatform 7))) = lit "deepseek-7"
  /\ writes (snd (step sample_host s (AddPlatform 7))) = 1%nat.
Proof.
  cbn zeta.
  destruct (add_platform_appends sample_host
              (setNewUrl (lit " chat.deepseek.com ")
                 (setNewName (lit "DeepSeek")
                    (setShowAddForm true (setInitialized true initial)))) 7)
    as (Hp & _ & _ & _ & _ & _ & _ & Ha & Hw);
    [reflexivity | vm_compute; discriminate | vm_compute; discriminate |].
  split; [exact Hp|]. split; [|now apply Hw].
  apply Ha. intros q [].
Defined.

Lemma platforms_keep_stored_urls_witness :
  Forall stored_url (platforms two_tabs)
  /\ Forall stored_url
       (platforms (fst (step sample_host two_tabs (CloseTab (lit "a"))))).
Proof.
  assert (H : Forall stored_url (platforms two_tabs)).
  { repeat constructor. }
  split; [exact H|].
  now apply (platforms_keep_stored_urls sample_host two_tabs (CloseTab (lit "a"))).
Defined.

(** ** Ephemeral tabs *)

Section Ephemeral.

Context (host : Host).

Lemma or_else_nonempty_r (a b : jsstring) : b <> [] -> or_else a b <> [].
Proof.
  intros Hb. unfold or_else. destruct (is_empty a) eqn:E; [exact Hb|].
  now apply is_empty_false.
Qed.

(** A derived tab name is never empty: whatever the text, parsable or not,
    [deriveNameFromUrl] yields the host name without [www.] or the fixed
    label. *)
Lemma derived_name_never_empty (value : jsstring) :
  deriveNameFromUrl host value <> []
  /\ (deriveNameFromUrl host value = NEW_TAB_LABEL
      \/ exists hostname, URL_hostname host value = Some hostname
                          /\ deriveNameFromUrl host value = strip_www hostname).
Proof.
  unfold deriveNameFromUrl. destruct (URL_hostname host value) as [h|].
  - split; [apply or_else_nonempty_r; discriminate|].
    unfold or_else. destruct (is_empty (strip_www h)); [now left|].
    right. now exists h.
  - split; [discriminate | now left].
Qed.

Lemma step_tempTabs (s : State) (e : Event) :
  tempTabs (fst (step host s e)) = tempTabs (next (handle host e s)).
Proof.
  rewrite step_unfold. cbn [fst].
  now destruct (reconciled_frame host s (handle host e s)) as (_ & -> & _).
Qed.

Lemma ephemeral_shape_new (rest n u : jsstring) (h : option bool) :
  n <> [] -> ephemeral_shape (mkPlatform (lit "tmp-" ++ rest) n u h).
Proof. intros Hn. split; [reflexivity | exact Hn]. Qed.

Lemma handle_keeps_ephemeral_shape (e : Event) (s : State) :
  Forall ephemeral_shape (tempTabs s) ->
  Forall ephemeral_shape (tempTabs (next (handle host e s))).
Proof.
  intros H.
  assert (Hname : forall a v, or_else a (deriveNameFromUrl host v) <> []).
  { intros a v. apply or_else_nonempty_r, derived_name_never_empty. }
  assert (Hquick : forall now,
            Forall ephemeral_shape (tempTabs (next (handleQuickAdd host now s)))).
  { intros now. unfold handleQuickAdd.
    destruct (is_empty (trim (quickUrl s))); [exact H|].
    cbn [next tempTabs setActiveTab resetQuickAdd setShowQuickAdd setTempTabs
         setQuickName setQuickUrl].
    apply Forall_app. split; [exact H|]. constructor; [|constructor].
    apply ephemeral_shape_new, Hname. }
  destruct e; cbn [handle];
    try (unfold_handlers; repeat case_match; cbn; exact H).
  - (* NewTabRequest *)
    unfold onNewTabRequest. destruct (is_empty (or_else payload [])); [exact H|].
    cbn [next tempTabs setActiveTab setTempTabs].
    apply Forall_app. split; [exact H|]. constructor; [|constructor].
    apply ephemeral_shape_new, derived_name_never_empty.
  - (* CloseTab *)
    destruct (in_strip i s); [|exact H]. unfold handleCloseTab.
    destruct (existsb _ _); cbn [next tempTabs setPlatforms setTempTabs].
    + now apply Forall_without.
    + now destruct (str_eqb _ _).
  - (* PlusClick *)
    unfold onPlusClick. destruct (showSettings s); [exact H|].
    destruct (showQuickAdd s); cbn [negb next tempTabs setShowQuickAdd
                                    setActiveTab setTempTabs]; [exact H|].
    apply Forall_app. split; [exact H|]. constructor; [|constructor].
    change (lit "tmp-new-" ++ show_number now)
      with (lit "tmp-" ++ (lit "new-" ++ show_number now)).
    now apply ephemeral_shape_new.
  - (* QuickConfirm *)
    destruct (showQuickAdd s); [|exact H]. unfold onQuickConfirm.
    destruct (List.find _ _) as [t|]; [|apply Hquick].
    destruct (blank_url t); [|apply Hquick].
    destruct (is_empty (normalizeUrl (quickUrl s))); [exact H|].
    cbn [next tempTabs resetQuickAdd setShowQuickAdd setTempTabs
         setQuickName setQuickUrl].
    apply Forall_rewritten; [|exact H].
    intros p [Hid _]. split; [exact Hid | apply Hname].
  - (* QuickCancel *)
    destruct (showQuickAdd s); [|exact H]. unfold onQuickCancel.
    destruct (List.find _ _) as [t|]; [|exact H].
    destruct (blank_url t); [|exact H].
    cbn [next tempTabs setTempTabs]. now apply Forall_without.
Qed.

(** X9. In every state reached from the initial one, every ephemeral tab
    has an id that begins with [tmp-] and a name that is not empty,
    whichever way it was created (pop-out request, [+] button, quick add)
    and however it was committed. *)
Theorem ephemeral_tabs_well_formed (es : list Event) :
  Forall ephemeral_shape (tempTabs (fst (run host initial es))).
Proof.
  assert (H : forall s, Forall ephemeral_shape (tempTabs s) ->
                        Forall ephemeral_shape (tempTabs (fst (run host s es)))).
  { induction es as [|e es IH]; intros s Hs; [exact Hs|].
    rewrite run_cons. cbn [fst]. apply IH. rewrite step_tempTabs.
    now apply handle_keeps_ephemeral_shape. }
  apply H. constructor.
Qed.

End Ephemeral.

(** ** The quick-add placeholder *)

Section Placeholder.

Context (host : Host).

Lemma find_app_fresh (i : jsstring) (l k : list Platform) :
  ~ In i (List.map id l) ->
  List.find (has_id i) (l ++ k) = List.find (has_id i) k.
Proof.
  induction l as [|x l IH]; [reflexivity|]. cbn. intros H.
  assert (E : has_id i x = false) by (apply has_id_neq; tauto).
  rewrite E. apply IH. tauto.
Qed.

Lemma without_fresh (i : jsstring) (l : list Platform) :
  ~ In i (List.map id l) -> without i l = l.
Proof.
  induction l as [|x l IH]; [reflexivity|]. cbn. intros H.
  assert (E : has_id i x = false) by (apply has_id_neq; tauto).
  rewrite E. cbn. f_equal. apply IH. tauto.
Qed.

Lemma fresh_id_split (i : jsstring) (s : State) :
  fresh_id i s ->
  ~ In i (List.map id (platforms s)) /\ ~ In i (List.map id (tempTabs s)).
Proof. unfold fresh_id. rewrite ids_app. tauto. Qed.

Lemma setShowQuickAdd_same (s : State) :
  setShowQuickAdd (showQuickAdd s) s = s.
Proof. now destruct s. Qed.

(** The state the [+] button leaves behind. *)
Lemma plus_step (s : State) (now : N) :
  showSettings s = false -> showQuickAdd s = false ->
  fresh_id (id (placeholder now)) s ->
  step host s (PlusClick now)
  = (setShowQuickAdd true
       (setActiveTab (id (placeholder now))
          (setTempTabs (tempTabs s ++ [placeholder now]) s)),
     [HideAllWebviews]).
Proof.
  intros Ho Hq Hf. destruct (fresh_id_split _ _ Hf) as [Hfp Hft].
  set (s1 := setShowQuickAdd true
               (setActiveTab (id (placeholder now))
                  (setTempTabs (tempTabs s ++ [placeholder now]) s))).
  assert (Hh : handle host (PlusClick now) s = mkHandled s1 false true []).
  { cbn [handle]. unfold onPlusClick. now rewrite Ho, Hq. }
  rewrite step_unfold, Hh. cbn zeta. cbn [issued next app].
  assert (R : reconcile s1 = None).
  { apply reconcile_None_iff. right. split; [discriminate|].
    intros p Fp. exfalso. apply List.find_some in Fp as [Hin Hid].
    apply has_id_eq in Hid. apply Hfp. cbn [activeTab s1 setShowQuickAdd setActiveTab] in Hid.
    rewrite <- Hid. now apply List.in_map. }
  rewrite (reconciled_settled host s (mkHandled s1 false true []) R).
  unfold commit. cbn [fst snd next newPlatforms newTempTabs orb].
  rewrite str_eqb_refl, orb_true_r. cbn [orb].
  assert (Hi : initialized s1 = initialized s) by reflexivity.
  rewrite Hi, xorb_nilpotent. cbn [app]. rewrite app_nil_r.
  f_equal. unfold webview_effect.
  cbn [showSettings activeTab tempTabs platforms s1 setShowQuickAdd
       setActiveTab setTempTabs].
  rewrite Ho. cbn [orb].
  assert (He : is_empty (id (placeholder now)) = false) by reflexivity.
  rewrite He, (find_app_fresh _ _ _ Hft). cbn [List.find].
  now rewrite (proj2 (has_id_eq _ _) eq_refl).
Qed.

(** X10. With the overlay and the popover closed, the [+] button appends one
    placeholder with an empty url, makes it the active tab, opens the
    popover and asks the bridge to hide every surface (provided the
    generated id is new).  Under the settings overlay, or with the popover
    already open, the button changes nothing: no second placeholder is
    created. *)
Theorem plus_opens_one_placeholder (s : State) (now : N) :
  (showSettings s = false -> showQuickAdd s = false ->
   fresh_id (id (placeholder now)) s ->
   let s' := fst (step host s (PlusClick now)) in
   tempTabs s' = tempTabs s ++ [placeholder now]
   /\ platforms s' = platforms s
   /\ activeTab s' = id (placeholder now)
   /\ showQuickAdd s' = true
   /\ snd (step host s (PlusClick now)) = [HideAllWebviews])
  /\ (showSettings s = true \/ showQuickAdd s = true ->
      step host s (PlusClick now) = (s, [])).
Proof.
  split.
  - intros Ho Hq Hf. cbn zeta. rewrite (plus_step s now Ho Hq Hf).
    cbn [fst snd]. auto.
  - intros Hb. apply step_unchanged. cbn [handle]. unfold onPlusClick.
    destruct (showSettings s) eqn:Ho; [reflexivity|].
    destruct Hb as [Hb | Hq]; [discriminate|]. rewrite Hq. cbn [negb].
    rewrite <- Hq, setShowQuickAdd_same. reflexivity.
Qed.

End Placeholder.

Section PlaceholderEnd.

Context (host : Host).

Lemma step_of_handled (s : State) (e : Event) (h : Handled) :
  handle host e s = h ->
  step host s e
  = (reconciled host s h,
     issued h ++ snd (commit host s h)
     ++ (if str_eqb (activeTab (next h)) (activeTab (reconciled host s h))
         then [] else webview_effect (reconciled host s h))).
Proof. intros <-. apply step_unfold. Qed.

Lemma step_state_of_handled (s : State) (e : Event) (h : Handled) :
  handle host e s = h ->
  newPlatforms h || newTempTabs h = true ->
  fst (step host s e)
  = match reconcile (next h) with
    | Some i => setActiveTab i (next h)
    | None => next h
    end.
Proof.
  intros Hh Hn. rewrite (step_of_handled s e h Hh). cbn [fst].
  unfold reconciled, commit. cbn [fst]. now rewrite Hn.
Qed.

(** When a handler falls back to the first record of
    [[...platforms, ...tempTabs]], the reconciliation effect lands the
    selection on the first tab of the strip, if there is one. *)
Lemma fallback_lands_on_strip (x : State) :
  activeTab x = first_id (platforms x ++ tempTabs x) ->
  all_tabs x <> [] ->
  activeTab (match reconcile x with
             | Some i => setActiveTab i x
             | None => x
             end) = first_id (all_tabs x).
Proof.
  intros Ha Hne. unfold reconcile. rewrite Ha.
  destruct (all_tabs x) as [|q rest] eqn:Eall; [congruence|].
  cbn [length Nat.ltb Nat.leb andb first_id].
  unfold all_tabs in Eall.
  destruct (platforms x) as [|p ps] eqn:Ep.
  - cbn in Eall |- *. rewrite Eall. cbn.
    destruct (is_empty (id q) || false); cbn; [reflexivity|].
    cbn in Ha. now rewrite Ha, Eall.
  - cbn [app first_id List.find]. rewrite (proj2 (has_id_eq _ _) eq_refl).
    destruct (is_empty (id p) || is_hidden p) eqn:Hc; [reflexivity|].
    apply orb_false_elim in Hc as [_ Hv].
    rewrite Ha. cbn [app first_id].
    unfold visible in Eall. cbn [List.filter] in Eall. rewrite Hv in Eall.
    cbn in Eall. congruence.
Qed.

(** X11. Cancelling the quick-add popover right after the [+] button removes
    the placeholder again: the ephemeral tabs and the platforms are as
    before, the popover is closed and its fields are cleared, and no
    destroy is sent for the placeholder.  The selection is not given back
    to the tab that was active before: it falls to the first tab of the
    strip. *)
Theorem cancel_discards_placeholder (s : State) (now : N) :
  showSettings s = false -> showQuickAdd s = false ->
  fresh_id (id (placeholder now)) s ->
  let s1 := fst (step host s (PlusClick now)) in
  let s2 := fst (step host s1 QuickCancel) in
  tempTabs s2 = tempTabs s
  /\ platforms s2 = platforms s
  /\ showQuickAdd s2 = false /\ quickName s2 = [] /\ quickUrl s2 = []
  /\ (all_tabs s <> [] -> activeTab s2 = first_id (all_tabs s))
  /\ List.filter is_destroy (snd (step host s1 QuickCancel)) = [].
Proof.
  intros Ho Hq Hf s1 s2. destruct (fresh_id_split _ _ Hf) as [Hfp Hft].
  assert (Hs1 : s1 = setShowQuickAdd true
                       (setActiveTab (id (placeholder now))
                          (setTempTabs (tempTabs s ++ [placeholder now]) s))).
  { unfold s1. now rewrite (plus_step host s now Ho Hq Hf). }
  set (x := setTempTabs (tempTabs s)
              (setActiveTab (first_id (platforms s ++ tempTabs s))
                 (resetQuickAdd (setShowQuickAdd false s1)))).
  assert (Hh : handle host QuickCancel s1 = mkHandled x false true []).
  { cbn [handle]. rewrite Hs1 at 1. cbn [showQuickAdd setShowQuickAdd].
    unfold onQuickCancel.
    assert (Hfind : List.find (has_id (activeTab s1)) (tempTabs s1)
                    = Some (placeholder now)).
    { rewrite Hs1. cbn [activeTab tempTabs setShowQuickAdd setActiveTab setTempTabs].
      rewrite (find_app_fresh _ _ _ Hft). cbn [List.find].
      now rewrite (proj2 (has_id_eq _ _) eq_refl). }
    rewrite Hfind.
    assert (Hb : blank_url (placeholder now) = true) by reflexivity.
    rewrite Hb.
    assert (Hw : without (activeTab s1) (tempTabs s1) = tempTabs s).
    { rewrite Hs1. cbn [activeTab tempTabs setShowQuickAdd setActiveTab setTempTabs].
      unfold without. rewrite List.filter_app. cbn [List.filter].
      rewrite (proj2 (has_id_eq _ _) eq_refl). cbn [negb].
      rewrite app_nil_r. now apply without_fresh. }
    rewrite Hw. unfold x.
    assert (Hp1 : platforms s1 = platforms s) by now rewrite Hs1.
    rewrite Hp1. reflexivity. }
  assert (Hs2 : s2 = match reconcile x with
                     | Some i => setActiveTab i x
                     | None => x
                     end).
  { unfold s2. now rewrite (step_state_of_handled s1 QuickCancel _ Hh). }
  assert (Hx : platforms x = platforms s /\ tempTabs x = tempTabs s
               /\ showQuickAdd x = false /\ quickName x = [] /\ quickUrl x = []).
  { unfold x. rewrite Hs1. cbn. auto. }
  destruct Hx as (Hxp & Hxt & Hxq & Hxn & Hxu).
  split; [rewrite Hs2; now destruct (reconcile x)|].
  split; [rewrite Hs2; now destruct (reconcile x)|].
  split; [rewrite Hs2; now destruct (reconcile x)|].
  split; [rewrite Hs2; now destruct (reconcile x)|].
  split; [rewrite Hs2; now destruct (reconcile x)|].
  split.
  - intros Hne. rewrite Hs2.
    assert (Hall : all_tabs x = all_tabs s).
    { unfold all_tabs. now rewrite Hxp, Hxt. }
    rewrite <- Hall. apply fallback_lands_on_strip; [|now rewrite Hall].
    rewrite Hxp, Hxt. unfold x. reflexivity.
  - destruct (filter_step host is_destroy s1 QuickCancel) as (b1 & b2 & b3 & ->).
    rewrite save_filter_nil, !effects_filter_nil by reflexivity.
    rewrite Hh. now destruct b1, b2, b3.
Qed.

(** X12. Closing an ephemeral tab in the strip removes the records with that
    id from the ephemeral tabs and nothing from the platforms, asks the
    bridge to destroy its surface first, and writes nothing; when the
    closed tab was the active one and a tab is left in the strip, the first
    tab of the strip becomes active. *)
Theorem close_ephemeral_tab (s : State) (i : jsstring) :
  existsb (has_id i) (tempTabs s) = true ->
  let s' := fst (step host s (CloseTab i)) in
  tempTabs s' = without i (tempTabs s)
  /\ platforms s' = platforms s
  /\ (exists rest, snd (step host s (CloseTab i)) = DestroyWebview i :: rest)
  /\ writes (snd (step host s (CloseTab i))) = 0%nat
  /\ (activeTab s = i -> all_tabs s' <> [] ->
      activeTab s' = first_id (all_tabs s')).
Proof.
  intros Ht s'.
  assert (Hstrip : in_strip i s = true).
  { unfold in_strip, all_tabs. rewrite List.existsb_app, Ht. apply orb_true_r. }
  set (x := setTempTabs (without i (tempTabs s))
              (if str_eqb (activeTab s) i
               then setActiveTab
                      (first_id (platforms s ++ without i (tempTabs s))) s
               else s)).
  assert (Hh : handle host (CloseTab i) s
               = mkHandled x false true [DestroyWebview i]).
  { cbn [handle]. rewrite Hstrip. unfold handleCloseTab. now rewrite Ht. }
  assert (Hs' : s' = match reconcile x with
                     | Some a => setActiveTab a x
                     | None => x
                     end).
  { unfold s'. now rewrite (step_state_of_handled s (CloseTab i) _ Hh). }
  assert (Hx : platforms x = platforms s /\ tempTabs x = without i (tempTabs s)).
  { unfold x. destruct (str_eqb (activeTab s) i); auto. }
  destruct Hx as [Hxp Hxt].
  split; [rewrite Hs'; now destruct (reconcile x)|].
  split; [rewrite Hs'; now destruct (reconcile x)|].
  split; [|split].
  - rewrite (step_of_handled s (CloseTab i) _ Hh). cbn [snd issued app]. eauto.
  - rewrite step_writes. cbn zeta. rewrite Hh. cbn [newPlatforms next orb].
    assert (Hi : initialized x = initialized s).
    { unfold x. now destruct (str_eqb (activeTab s) i). }
    now rewrite Hi, xorb_nilpotent.
  - intros Ha Hne.
    assert (Hall : all_tabs s' = all_tabs x).
    { rewrite Hs'. now destruct (reconcile x). }
    rewrite Hall in *. rewrite Hs'. apply fallback_lands_on_strip; [|exact Hne].
    rewrite Hxp, Hxt. unfold x. rewrite Ha, str_eqb_refl. reflexivity.
Qed.

End PlaceholderEnd.

Lemma plus_opens_one_placeholder_witness :
  tempTabs (fst (step sample_host two_tabs (PlusClick 9)))
  = [mkPlatform (lit "tmp-new-9") NEW_TAB_LABEL [] None]
  /\ snd (step sample_host two_tabs (PlusClick 9)) = [HideAllWebviews]
  /\ step sample_host overlay_two_tabs (PlusClick 9) = (overlay_two_tabs, []).
Proof.
  destruct (plus_opens_one_placeholder sample_host two_tabs 9) as [H _].
  destruct (plus_opens_one_placeholder sample_host overlay_two_tabs 9) as [_ H'].
  destruct H as (Ht & _ & _ & _ & Hc); try reflexivity.
  { unfold fresh_id. vm_compute. intros [H | [H | []]]; discriminate. }
  split; [exact Ht|]. split; [exact Hc|]. apply H'. now left.
Defined.

Lemma cancel_discards_placeholder_witness :
  tempTabs (fst (step sample_host
                   (fst (step sample_host (tabs_state [tabA; tabB] [] (lit "b"))
                           (PlusClick 9)))
                   QuickCancel)) = []
  /\ activeTab (fst (step sample_host
                       (fst (step sample_host
                               (tabs_state [tabA; tabB] [] (lit "b"))
                               (PlusClick 9)))
                       QuickCancel)) = lit "a".
Proof.
  destruct (cancel_discards_placeholder sample_host
              (tabs_state [tabA; tabB] [] (lit "b")) 9)
    as (Ht & _ & _ & _ & _ & Ha & _); try reflexivity.
  { unfold fresh_id. vm_compute. intros [H | [H | []]]; discriminate. }
  split; [exact Ht|]. apply Ha. discriminate.
Defined.

Lemma close_ephemeral_tab_witness :
  tempTabs (fst (step sample_host (tabs_state [tabA] [tabT] (lit "tmp-1"))
                   (CloseTab (lit "tmp-1")))) = []
  /\ activeTab (fst (step sample_host (tabs_state [tabA] [tabT] (lit "tmp-1"))
                       (CloseTab (lit "tmp-1")))) = lit "a".
Proof.
  destruct (close_ephemeral_tab sample_host
              (tabs_state [tabA] [tabT] (lit "tmp-1")) (lit "tmp-1"))
    as (Ht & _ & _ & _ & Ha); [reflexivity|].
  split; [exact Ht|]. apply Ha; [reflexivity|]. vm_compute. discriminate.
Defined.

(** ** Committing a placeholder and selecting a tab *)

Section CommitSelect.

Context (host : Host).

Lemma rewrite_at_unique (f : Platform -> Platform) (l : list Platform)
    (t : Platform) :
  NoDup (List.map id l) -> In t l ->
  exists l1 l2,
    l = l1 ++ t :: l2
    /\ List.map (fun p => if has_id (id t) p then f p else p) l
       = l1 ++ f t :: l2.
Proof.
  intros Hnd Hin. apply List.in_split in Hin as (l1 & l2 & ->).
  exists l1, l2. split; [reflexivity|].
  rewrite List.map_app in Hnd. cbn [List.map] in Hnd.
  apply NoDup_app in Hnd as (_ & Hl1 & Hl2).
  apply NoDup_cons in Hl2 as [Hl2 _].
  assert (Hkeep : forall k, ~ In (id t) (List.map id k) ->
            List.map (fun p => if has_id (id t) p then f p else p) k = k).
  { induction k as [|x k IH]; [reflexivity|]. cbn. intros H.
    assert (E : has_id (id t) x = false) by (apply has_id_neq; tauto).
    rewrite E. f_equal. apply IH. tauto. }
  rewrite List.map_app. cbn [List.map].
  rewrite (proj2 (has_id_eq _ _) eq_refl), !Hkeep; [reflexivity| |].
  - intros H. apply Hl2. now apply list_elem_of_In.
  - intros H. apply (Hl1 (id t)); [now apply list_elem_of_In|].
    apply list_elem_of_here.
Qed.

Lemma unique_temp_not_platform (s : State) (t : Platform) :
  unique_ids s -> In t (tempTabs s) ->
  ~ In (id t) (List.map id (platforms s)).
Proof.
  intros Hu Hin Hp. destruct (unique_ids_split s Hu) as (_ & _ & Hdis).
  apply (Hdis _ Hp). now apply List.in_map.
Qed.

(** X13. Confirming the popover on an active placeholder fills that record in
    place: it keeps its id and its position, gets the normalized url and
    the typed name (or the name derived from the url), no record is added
    or removed, the selection stays, the popover is closed and cleared, and
    the bridge is asked once to show the tab with the new url. *)
Theorem confirm_fills_placeholder (s : State) (now : N) (t : Platform) :
  showQuickAdd s = true -> showSettings s = false -> unique_ids s ->
  In t (tempTabs s) -> id t = activeTab s -> activeTab s <> [] ->
  blank_url t = true -> trim (quickUrl s) <> [] ->
  let s' := fst (step host s (QuickConfirm now)) in
  (exists l1 l2,
     tempTabs s = l1 ++ t :: l2
     /\ tempTabs s' = l1 ++ filled_placeholder host t s :: l2)
  /\ platforms s' = platforms s
  /\ activeTab s' = activeTab s
  /\ showQuickAdd s' = false /\ quickName s' = [] /\ quickUrl s' = []
  /\ snd (step host s (QuickConfirm now))
     = [CreateOrShowWebview (id t) (normalizeUrl (quickUrl s)) 70].
Proof.
  intros Hq Ho Hu Hin Hid Hne Hb Hurl s'.
  destruct (unique_ids_split s Hu) as (Hnp & Hnt & Hdis).
  destruct (normalizeUrl_stored (quickUrl s) Hurl) as (Hn1 & Hn2 & Hn3).
  pose proof (unique_temp_not_platform s t Hu Hin) as Hnotp.
  destruct (rewrite_at_unique
              (fun p => mkPlatform (id p)
                          (or_else (trim (quickName s))
                             (deriveNameFromUrl host (normalizeUrl (quickUrl s))))
                          (normalizeUrl (quickUrl s)) (hidden p))
              (tempTabs s) t Hnt Hin) as (l1 & l2 & El & Em).
  fold (filled_placeholder host t s) in Em.
  set (x := resetQuickAdd
              (setShowQuickAdd false
                 (setTempTabs (l1 ++ filled_placeholder host t s :: l2) s))).
  assert (Hh : handle host (QuickConfirm now) s = mkHandled x false true []).
  { cbn [handle]. rewrite Hq. unfold onQuickConfirm.
    rewrite <- Hid, (find_has_id_unique _ t Hnt Hin), Hb.
    apply is_empty_false in Hn1. rewrite Hn1.
    unfold x. now rewrite <- Em. }
  assert (R : reconcile x = None).
  { apply reconcile_None_iff. right. split; [exact Hne|].
    intros p Fp. exfalso. apply List.find_some in Fp as [Hp Hpi].
    apply has_id_eq in Hpi. apply Hnotp. rewrite Hid.
    cbn in Hpi. rewrite <- Hpi. now apply List.in_map. }
  unfold s'. rewrite (step_of_handled host s _ _ Hh).
  rewrite (reconciled_settled host s (mkHandled x false true []) R).
  cbn [fst snd next issued app].
  split; [exists l1, l2; split; [exact El | reflexivity]|].
  repeat (split; [reflexivity|]).
  rewrite str_eqb_refl, app_nil_r. unfold commit.
  cbn [snd next newPlatforms newTempTabs orb].
  assert (Hi : initialized x = initialized s) by reflexivity.
  rewrite Hi, xorb_nilpotent, orb_true_r. cbn [orb app].
  unfold webview_effect.
  assert (Hxs : showSettings x = false) by exact Ho.
  assert (Hxa : activeTab x = id t) by (symmetry; exact Hid).
  rewrite Hxs, Hxa. cbn [orb].
  assert (Hie : is_empty (id t) = false) by (rewrite Hid; now apply is_empty_false).
  rewrite Hie.
  assert (Hft : List.find (has_id (id t)) (tempTabs x)
                = Some (filled_placeholder host t s)).
  { cbn [tempTabs x resetQuickAdd setShowQuickAdd setTempTabs setQuickName
         setQuickUrl].
    rewrite find_app_fresh.
    - cbn [List.find]. unfold has_id at 1. cbn [id filled_placeholder].
      now rewrite str_eqb_refl.
    - rewrite El, List.map_app in Hnt. apply NoDup_app in Hnt as (_ & H & _).
      intros Hc. apply (H (id t)); [now apply list_elem_of_In|].
      cbn. apply list_elem_of_here. }
  rewrite Hft.
  assert (Hsb : blank_url (filled_placeholder host t s) = false).
  { now apply (stored_url_normalized (id t) _ (quickUrl s) (hidden t)). }
  now rewrite Hsb.
Qed.

(** X14. Clicking a tab of the strip makes it the active tab and changes no
    record.  With the overlay closed the bridge is asked once, to show the
    tab or, if its url is blank, to hide all surfaces; under the overlay,
    or when the tab is already the active one, nothing is asked. *)
Theorem select_tab_activates (s : State) (p : Platform) :
  unique_ids s -> In p (all_tabs s) -> id p <> [] ->
  let s' := fst (step host s (SelectTab (id p))) in
  activeTab s' = id p
  /\ platforms s' = platforms s /\ tempTabs s' = tempTabs s
  /\ snd (step host s (SelectTab (id p)))
     = if showSettings s || str_eqb (activeTab s) (id p) then []
       else show_or_hide p.
Proof.
  intros Hu Hin Hne s'.
  destruct (unique_ids_split s Hu) as (Hnp & Hnt & Hdis).
  assert (Hstrip : in_strip (id p) s = true).
  { unfold in_strip. apply existsb_has_id. now apply List.in_map. }
  assert (Hh : handle host (SelectTab (id p)) s
               = mkHandled (setActiveTab (id p) s) false false []).
  { cbn [handle]. now rewrite Hstrip. }
  assert (Hfind :
    (In p (tempTabs s) /\ List.find (has_id (id p)) (tempTabs s) = Some p)
    \/ (In p (platforms s) /\ is_hidden p = false
        /\ List.find (has_id (id p)) (tempTabs s) = None
        /\ List.find (has_id (id p)) (platforms s) = Some p)).
  { unfold all_tabs in Hin. apply in_app_iff in Hin as [Hv | Ht].
    - right. unfold visible in Hv. apply List.filter_In in Hv as [Hp Hv].
      apply negb_true_iff in Hv. split; [exact Hp|]. split; [exact Hv|].
      split; [|now apply find_has_id_unique].
      apply find_has_id_absent. apply Hdis. now apply List.in_map.
    - left. split; [exact Ht | now apply find_has_id_unique]. }
  assert (R : reconcile (setActiveTab (id p) s) = None).
  { apply reconcile_None_iff. right. split; [exact Hne|].
    cbn [activeTab setActiveTab platforms].
    intros q Fq. destruct Hfind as [[Ht _] | (_ & Hv & _ & Fp)].
    - exfalso. apply List.find_some in Fq as [Hq Hqi]. apply has_id_eq in Hqi.
      apply (unique_temp_not_platform s p Hu Ht). rewrite <- Hqi.
      now apply List.in_map.
    - congruence. }
  unfold s'. rewrite (step_of_handled host s _ _ Hh).
  rewrite (reconciled_settled host s
             (mkHandled (setActiveTab (id p) s) false false []) R).
  cbn [fst snd next issued app].
  repeat (split; [reflexivity|]).
  rewrite str_eqb_refl, app_nil_r. unfold commit.
  cbn [snd next newPlatforms newTempTabs orb activeTab setActiveTab
       initialized showSettings].
  rewrite !xorb_nilpotent, orb_false_r. cbn [app].
  destruct (str_eqb (activeTab s) (id p)); cbn [negb];
    [now rewrite orb_true_r|].
  rewrite orb_false_r. unfold webview_effect.
  cbn [showSettings activeTab setActiveTab tempTabs platforms].
  destruct (showSettings s); [reflexivity|]. cbn [orb].
  apply is_empty_false in Hne. rewrite Hne.
  destruct Hfind as [[_ ->] | (_ & _ & -> & ->)]; reflexivity.
Qed.

End CommitSelect.

Lemma confirm_fills_placeholder_witness :
  let s := setQuickUrl (lit "chat.deepseek.com")
             (fst (step sample_host two_tabs (PlusClick 9))) in
  tempTabs (fst (step sample_host s (QuickConfirm 10)))
  = [mkPlatform (lit "tmp-new-9") (lit "chat.deepseek.com")
       (lit "https://chat.deepseek.com") None]
  /\ snd (step sample_host s (QuickConfirm 10))
     = [CreateOrShowWebview (lit "tmp-new-9") (lit "https://chat.deepseek.com") 70].
Proof.
  cbn zeta.
  destruct (confirm_fills_placeholder sample_host
              (setQuickUrl (lit "chat.deepseek.com")
                 (fst (step sample_host two_tabs (PlusClick 9))))
              10 (placeholder 9))
    as ((l1 & l2 & El & Et) & _ & _ & _ & _ & _ & Hc);
    try (vm_compute; reflexivity); try (vm_compute; discriminate).
  - unfold unique_ids. vm_compute. repeat constructor;
      rewrite ?list_elem_of_In; cbn; intuition discriminate.
  - vm_compute. now left.
  - split; [vm_compute; reflexivity | exact Hc].
Defined.

Lemma select_tab_activates_witness :
  activeTab (fst (step sample_host two_tabs (SelectTab (lit "b")))) = lit "b"
  /\ snd (step sample_host two_tabs (SelectTab (lit "b")))
     = [CreateOrShowWebview (lit "b") (lit "https://b.example") 70].
Proof.
  destruct (select_tab_activates sample_host two_tabs tabB)
    as (Ha & _ & _ & Hc).
  - unfold unique_ids. vm_compute. repeat constructor;
      rewrite ?list_elem_of_In; cbn; intuition discriminate.
  - vm_compute. right. now left.
  - discriminate.
  - split; [exact Ha | exact Hc].
Defined.

(** ** Round trips *)

Section RoundTrips.

Context (host : Host).

Lemma lookup_map (f : Platform -> Platform) (l : list Platform) (i : nat) :
  List.map f l !! i = f <$> (l !! i).
Proof.
  revert i. induction l as [|x l IH]; intros [|i]; cbn; auto.
Qed.

Lemma lookup_In (l : list Platform) (i : nat) (p : Platform) :
  l !! i = Some p -> In p l.
Proof. intros H. apply list_elem_of_In. eapply list_elem_of_lookup_2, H. Qed.

Lemma unhide_after_hide (i : jsstring) (l : list Platform) :
  List.map (fun q => if has_id i q then set_hidden false q else q)
    (List.map (fun q => if has_id i q then set_hidden true q else q) l)
  = List.map (fun q => if has_id i q then set_hidden false q else q) l.
Proof.
  rewrite List.map_map. apply List.map_ext. intros q.
  destruct (has_id i q) eqn:E; [|now rewrite E].
  change (has_id i (set_hidden true q)) with (has_id i q). now rewrite E.
Qed.

(** X15. Hiding a visible persistent tab in the strip and then clicking its
    row in the settings panel brings it back: no record is added, removed
    or moved, every record shows the same id, name, url and visibility as
    before (ids unique), and the tab is the active one. *)
Theorem hide_then_show_restores (s : State) (index : nat) (p : Platform) :
  platforms s !! index = Some p -> is_hidden p = false ->
  existsb (has_id (id p)) (tempTabs s) = false -> id p <> [] ->
  NoDup (List.map id (platforms s)) ->
  let s1 := fst (step host s (CloseTab (id p))) in
  let s2 := fst (step host s1 (PanelItemClick index)) in
  is_hidden <$> (platforms s1 !! index) = Some true
  /\ List.map shown_fields (platforms s2) = List.map shown_fields (platforms s)
  /\ tempTabs s2 = tempTabs s
  /\ activeTab s2 = id p.
Proof.
  intros Hl Hv Ht Hne Hnd s1 s2.
  pose proof (lookup_In _ _ _ Hl) as Hin.
  assert (Hstrip : in_strip (id p) s = true).
  { unfold in_strip, all_tabs. rewrite List.existsb_app.
    apply orb_true_iff. left. apply existsb_has_id, List.in_map.
    unfold visible. apply List.filter_In. split; [exact Hin|]. now rewrite Hv. }
  set (hide := fun q => if has_id (id p) q then set_hidden true q else q).
  set (show := fun q => if has_id (id p) q then set_hidden false q else q).
  assert (Hp1 : platforms s1 = List.map hide (platforms s)).
  { unfold s1. rewrite step_platforms. cbn [handle]. rewrite Hstrip.
    unfold handleCloseTab. rewrite Ht. reflexivity. }
  assert (Ht1 : tempTabs s1 = tempTabs s).
  { unfold s1. rewrite step_tempTabs. cbn [handle]. rewrite Hstrip.
    unfold handleCloseTab. rewrite Ht. cbn.
    now destruct (str_eqb (activeTab s) (id p)). }
  assert (Hl1 : platforms s1 !! index = Some (set_hidden true p)).
  { rewrite Hp1, lookup_map, Hl. cbn. unfold hide.
    now rewrite (proj2 (has_id_eq _ _) eq_refl). }
  set (x := setActiveTab (id p) (setPlatforms (List.map show (platforms s)) s1)).
  assert (Hh : handle host (PanelItemClick index) s1 = mkHandled x true false []).
  { cbn [handle]. rewrite Hl1. unfold onPanelItemClick.
    cbn [is_hidden set_hidden hidden id]. unfold x.
    rewrite Hp1. fold hide. cbn [id set_hidden].
    pose proof (unhide_after_hide (id p) (platforms s)) as Hu.
    fold hide show in Hu. unfold show at 1 in Hu. now rewrite Hu. }
  assert (R : reconcile x = None).
  { apply reconcile_None_iff. right. split; [exact Hne|].
    cbn [activeTab platforms x setActiveTab setPlatforms].
    intros q Fq. apply List.find_some in Fq as [Hq Hqi].
    apply List.in_map_iff in Hq as (q0 & <- & _). unfold show in *.
    destruct (has_id (id p) q0) eqn:E; [reflexivity | congruence]. }
  assert (Hs2 : s2 = x).
  { unfold s2. rewrite (step_of_handled host s1 _ _ Hh). cbn [fst].
    apply (reconciled_settled host s1 (mkHandled x true false []) R). }
  split; [now rewrite Hl1|]. rewrite Hs2. split; [|split].
  - cbn [platforms x setActiveTab setPlatforms]. rewrite List.map_map.
    apply List.map_ext_in. intros q Hq. unfold show.
    destruct (has_id (id p) q) eqn:E; [|reflexivity].
    apply has_id_eq in E.
    assert (q = p).
    { apply List.in_split in Hq as (l1 & l2 & El).
      rewrite El, List.map_app in Hnd. cbn [List.map] in Hnd.
      rewrite El in Hin. apply in_app_iff in Hin as [Hin | [Hin | Hin]];
        [| exact Hin |].
      - exfalso. apply NoDup_app in Hnd as (_ & Hx & _).
        apply (Hx (id p)); [now apply list_elem_of_In, List.in_map|].
        rewrite E. apply list_elem_of_here.
      - exfalso. apply NoDup_app in Hnd as (_ & _ & Hx).
        apply NoDup_cons in Hx as [Hx _]. apply Hx.
        rewrite E. now apply list_elem_of_In, List.in_map. }
    subst q. unfold shown_fields. cbn [id name url set_hidden is_hidden hidden].
    fold (is_hidden p). now rewrite Hv.
  - exact Ht1.
  - reflexivity.
Qed.

(** X16. Moving a row up and then moving the same record down again (or the
    other way round) restores the platform list. *)
Theorem move_back_restores (l : list Platform) (index : nat) :
  ((0 < index)%nat -> (index < length l)%nat ->
   elements (move_updater (index - 1) down
               (elements (move_updater index up l))) = l)
  /\ ((index < length l - 1)%nat ->
      elements (move_updater (index + 1) up
                  (elements (move_updater index down l))) = l).
Proof.
  split.
  - intros H0 Hn.
    destruct (move_updater_up l index H0 Hn) as (l1 & a & b & l2 & El & L1 & ->).
    rewrite elements_fmap_Some.
    destruct (move_updater_down (l1 ++ b :: a :: l2) (index - 1))
      as (m1 & c & d & m2 & Em & M1 & ->).
    { rewrite length_app. cbn [length]. lia. }
    rewrite elements_fmap_Some.
    apply app_inj_1 in Em as [<- [= <- <- <-]]; [|lia].
    now rewrite El.
  - intros Hn.
    destruct (move_updater_down l index Hn) as (l1 & a & b & l2 & El & L1 & ->).
    rewrite elements_fmap_Some.
    destruct (move_updater_up (l1 ++ b :: a :: l2) (index + 1))
      as (m1 & c & d & m2 & Em & M1 & ->).
    { lia. }
    { rewrite length_app. cbn [length]. rewrite El, length_app in Hn.
      cbn [length] in Hn. lia. }
    rewrite elements_fmap_Some.
    apply app_inj_1 in Em as [<- [= <- <- <-]]; [|lia].
    now rewrite El.
Qed.

(** X17. Opening the settings overlay and closing it again leaves the
    platforms, the ephemeral tabs and the selection as they were, closes
    and clears the add form, and writes nothing; the first command is the
    [hideAll] of the opening. *)
Theorem toggle_twice_keeps_tabs (s : State) :
  showSettings s = false ->
  let r := run host s [ToggleSettings; ToggleSettings] in
  platforms (fst r) = platforms s /\ tempTabs (fst r) = tempTabs s
  /\ activeTab (fst r) = activeTab s
  /\ showSettings (fst r) = false /\ showAddForm (fst r) = false
  /\ newName (fst r) = [] /\ newUrl (fst r) = []
  /\ showQuickAdd (fst r) = false
  /\ (exists rest, snd r = HideAllWebviews :: rest)
  /\ writes (snd r) = 0%nat.
Proof.
  intros Ho r. unfold r. rewrite !run_cons. cbn [run fst snd].
  rewrite app_nil_r.
  assert (H1 : step host s ToggleSettings
               = (setShowQuickAdd false (setShowSettings true s),
                  [HideAllWebviews])).
  { rewrite step_toggle. unfold toggleSettings. rewrite Ho.
    cbn [negb next issued]. now rewrite webview_effect_overlay. }
  rewrite H1. cbn [fst snd app].
  set (s1 := setShowQuickAdd false (setShowSettings true s)).
  assert (Hw : writes (snd (step host s1 ToggleSettings)) = 0%nat).
  { rewrite step_writes. cbn zeta. cbn [handle].
    destruct (toggle_frame s1) as (_ & _ & _ & _ & -> & _).
    assert (Hi : initialized (next (toggleSettings s1)) = initialized s1).
    { unfold toggleSettings. destruct (negb (showSettings s1));
        [|destruct (List.find _ _)]; reflexivity. }
    now rewrite Hi, xorb_nilpotent. }
  split; [|split; [|split; [|split; [|split; [|split; [|split; [|split; [|split]]]]]]]];
    try exact Hw; try (now eexists).
  all: rewrite step_toggle; cbn [fst]; unfold toggleSettings;
    cbn [showSettings s1 setShowQuickAdd setShowSettings negb];
    now destruct (List.find _ _).
Qed.

End RoundTrips.

Lemma hide_then_show_restores_witness :
  List.map shown_fields
    (platforms (fst (step sample_host
                       (fst (step sample_host two_tabs (CloseTab (lit "a"))))
                       (PanelItemClick 0))))
  = List.map shown_fields (platforms two_tabs)
  /\ activeTab (fst (step sample_host
                       (fst (step sample_host two_tabs (CloseTab (lit "a"))))
                       (PanelItemClick 0))) = lit "a".
Proof.
  destruct (hide_then_show_restores sample_host two_tabs 0 tabA)
    as (_ & Hf & _ & Ha); try reflexivity; try discriminate.
  - cbn. repeat constructor; rewrite ?list_elem_of_In; cbn; intuition discriminate.
  - split; [exact Hf | exact Ha].
Defined.

Lemma move_back_restores_witness :
  elements (move_updater 0 down (elements (move_updater 1 up [tabA; tabB])))
  = [tabA; tabB].
Proof.
  destruct (move_back_restores [tabA; tabB] 1) as [H _].
  apply H; cbn; lia.
Defined.

Lemma toggle_twice_keeps_tabs_witness :
  activeTab (fst (run sample_host two_tabs [ToggleSettings; ToggleSettings]))
  = lit "a"
  /\ writes (snd (run sample_host two_tabs [ToggleSettings; ToggleSettings]))
     = 0%nat.
Proof.
  destruct (toggle_twice_keeps_tabs sample_host two_tabs eq_refl)
    as (_ & _ & Ha & _ & _ & _ & _ & _ & _ & Hw).
  split; [exact Ha | exact Hw].
Defined.

(** ** Startup *)

Section Startup.

Context (host : Host).

(** The step that installs the loaded list runs the save effect: the list
    is stored once in each location, and nothing else is stored. *)
Lemma load_step_persists (s : State) (loaded : list Platform) :
  initialized s = false ->
  List.filter is_persist (snd (step host s (LoadResolved loaded)))
  = [InvokeSavePlatforms (JSON_stringify host loaded);
     LocalStorageSet (JSON_stringify host loaded)].
Proof.
  intros Hi.
  set (x := setInitialized true
              (if (0 <? length loaded)%nat
               then setActiveTab (first_id loaded) (setPlatforms loaded s)
               else setPlatforms loaded s)).
  assert (Hh : handle host (LoadResolved loaded) s = mkHandled x true false []).
  { cbn [handle]. now rewrite Hi. }
  assert (Hx : platforms x = loaded /\ initialized x = true).
  { unfold x. now destruct (0 <? length loaded)%nat. }
  destruct Hx as (Hxp & Hxi).
  destruct (filter_step host is_persist s (LoadResolved loaded))
    as (b1 & b2 & b3 & Hf).
  rewrite Hf, handle_issues_no_persist, !effects_filter_nil by reflexivity.
  assert (Hb1 : List.filter is_persist (snd (step host s (LoadResolved loaded)))
                <> []).
  { intros E.
    assert (Hw : writes (snd (step host s (LoadResolved loaded))) = 1%nat).
    { rewrite step_writes. cbn zeta. rewrite Hh.
      cbn [newPlatforms next orb andb]. now rewrite Hxi. }
    unfold writes in Hw.
    assert (Hsub : forall l, List.filter is_persist l = [] ->
                            List.filter is_write l = []).
    { induction l as [|c l IH]; [reflexivity|]. cbn.
      destruct c; cbn; try exact IH; discriminate. }
    rewrite (Hsub _ E) in Hw. discriminate. }
  rewrite Hf, handle_issues_no_persist, !effects_filter_nil in Hb1
    by reflexivity.
  rewrite Hh. cbn [next]. unfold save_effect, savePlatformsToFile.
  rewrite Hxi, Hxp. cbn [List.filter is_persist].
  destruct b1; [now destruct b2, b3|].
  exfalso. apply Hb1. now destruct b2, b3.
Qed.

(** X18. When the startup load resolves, the component installs the loaded
    list as it is, keeps the ephemeral tabs opened meanwhile, and stores
    the list once in both locations; if the list is not empty and a tab is
    shown afterwards, the first tab of the strip is the active one, also
    when the first loaded record is hidden. *)
Theorem load_installs_list (s : State) (loaded : list Platform) :
  initialized s = false ->
  let s' := fst (step host s (LoadResolved loaded)) in
  platforms s' = loaded /\ tempTabs s' = tempTabs s
  /\ initialized s' = true
  /\ List.filter is_persist (snd (step host s (LoadResolved loaded)))
     = [InvokeSavePlatforms (JSON_stringify host loaded);
        LocalStorageSet (JSON_stringify host loaded)]
  /\ (loaded <> [] -> all_tabs s' <> [] ->
      activeTab s' = first_id (all_tabs s')).
Proof.
  intros Hi s'.
  set (x := setInitialized true
              (if (0 <? length loaded)%nat
               then setActiveTab (first_id loaded) (setPlatforms loaded s)
               else setPlatforms loaded s)).
  assert (Hh : handle host (LoadResolved loaded) s = mkHandled x true false []).
  { cbn [handle]. now rewrite Hi. }
  assert (Hs' : s' = match reconcile x with
                     | Some a => setActiveTab a x
                     | None => x
                     end).
  { unfold s'. now rewrite (step_state_of_handled host s _ _ Hh). }
  assert (Hx : platforms x = loaded /\ tempTabs x = tempTabs s
               /\ initialized x = true).
  { unfold x. now destruct (0 <? length loaded)%nat. }
  destruct Hx as (Hxp & Hxt & Hxi).
  split; [rewrite Hs'; now destruct (reconcile x)|].
  split; [rewrite Hs'; now destruct (reconcile x)|].
  split; [rewrite Hs'; now destruct (reconcile x)|].
  split; [now apply load_step_persists|].
  intros Hne Hall.
  assert (Ha : all_tabs s' = all_tabs x).
  { rewrite Hs'. now destruct (reconcile x). }
  rewrite Ha in *. rewrite Hs'.
  apply fallback_lands_on_strip; [|exact Hall].
  rewrite Hxp. unfold x. destruct loaded as [|p l]; [congruence|].
  reflexivity.
Qed.

End Startup.

Lemma load_installs_list_witness :
  platforms (fst (step sample_host initial
                    (LoadResolved [set_hidden true tabA; tabB])))
  = [set_hidden true tabA; tabB]
  /\ activeTab (fst (step sample_host initial
                       (LoadResolved [set_hidden true tabA; tabB]))) = lit "b".
Proof.
  destruct (load_installs_list sample_host initial [set_hidden true tabA; tabB]
              eq_refl) as (Hp & _ & _ & _ & Ha).
  split; [exact Hp|]. apply Ha; [discriminate|].
  vm_compute. discriminate.
Defined.

(** ** Unique ids *)

Section UniqueIds.

Context (host : Host).

(** [unique_ids] on the two lists it reads. *)
Lemma unique_ids_iff (s : State) :
  unique_ids s <-> NoDup (List.map id (platforms s) ++ List.map id (tempTabs s)).
Proof. unfold unique_ids. now rewrite List.map_app. Qed.

Lemma NoDup_ids_without (i : jsstring) (l : list Platform) :
  NoDup (List.map id l) -> NoDup (List.map id (without i l)).
Proof.
  induction l as [|x l IH]; [auto|]. cbn. intros H.
  apply NoDup_cons in H as [Hx H].
  destruct (has_id i x); cbn; [now apply IH|].
  apply NoDup_cons. split; [|now apply IH].
  intros Hc. apply Hx. apply list_elem_of_In in Hc. apply list_elem_of_In.
  apply ids_without in Hc. tauto.
Qed.

Lemma unique_without_l (i : jsstring) (ps ts : list Platform) :
  NoDup (List.map id ps ++ List.map id ts) ->
  NoDup (List.map id (without i ps) ++ List.map id ts).
Proof.
  rewrite !NoDup_app. intros (H1 & H2 & H3).
  split; [now apply NoDup_ids_without|]. split; [|exact H3].
  intros x Hx. apply H2. apply list_elem_of_In in Hx. apply list_elem_of_In.
  apply ids_without in Hx. tauto.
Qed.

Lemma unique_without_r (i : jsstring) (ps ts : list Platform) :
  NoDup (List.map id ps ++ List.map id ts) ->
  NoDup (List.map id ps ++ List.map id (without i ts)).
Proof.
  rewrite !NoDup_app. intros (H1 & H2 & H3).
  split; [exact H1|]. split; [|now apply NoDup_ids_without].
  intros x Hx Hc. apply (H2 x Hx). apply list_elem_of_In in Hc.
  apply list_elem_of_In. apply ids_without in Hc. tauto.
Qed.

Lemma unique_snoc_l (p : Platform) (ps ts : list Platform) :
  NoDup (List.map id ps ++ List.map id ts) ->
  ~ In (id p) (List.map id (ps ++ ts)) ->
  NoDup (List.map id (ps ++ [p]) ++ List.map id ts).
Proof.
  intros H Hf. rewrite List.map_app, in_app_iff in Hf.
  rewrite List.map_app. cbn [List.map]. rewrite <- app_assoc. cbn [app].
  apply NoDup_app in H as (H1 & H2 & H3).
  apply NoDup_app. split; [exact H1|]. split.
  - intros x Hx Hc. apply elem_of_cons in Hc as [-> | Hc].
    + apply Hf. left. now apply list_elem_of_In.
    + now apply (H2 x).
  - apply NoDup_cons. split; [|exact H3].
    intros Hc. apply Hf. right. now apply list_elem_of_In.
Qed.

Lemma unique_snoc_r (p : Platform) (ps ts : list Platform) :
  NoDup (List.map id ps ++ List.map id ts) ->
  ~ In (id p) (List.map id (ps ++ ts)) ->
  NoDup (List.map id ps ++ List.map id (ts ++ [p])).
Proof.
  intros H Hf. rewrite List.map_app, in_app_iff in Hf.
  rewrite List.map_app. cbn [List.map]. rewrite app_assoc.
  apply NoDup_app. split; [exact H|]. split; [|apply NoDup_singleton].
  intros x Hx Hc. apply list_elem_of_singleton in Hc as ->.
  apply Hf. apply elem_of_app in Hx as [Hx | Hx];
    [left | right]; now apply list_elem_of_In.
Qed.

Lemma added_unique_or_taken (s x : State) (p : Platform) :
  unique_ids s -> adds_record s x p ->
  unique_ids x
  \/ exists q, adds_record s x q
               /\ In (id q) (List.map id (platforms s ++ tempTabs s)).
Proof.
  intros Hu Ha.
  destruct (decide (id p ∈ List.map id (platforms s ++ tempTabs s))) as [Hin | Hf].
  - right. exists p. split; [exact Ha | now apply list_elem_of_In].
  - left. rewrite list_elem_of_In in Hf. apply unique_ids_iff.
    apply unique_ids_iff in Hu.
    destruct Ha as [[-> ->] | [-> ->]];
      [now apply unique_snoc_l | now apply unique_snoc_r].
Qed.

Lemma unique_same_ids (s x : State) :
  unique_ids s ->
  List.map id (platforms x) ≡ₚ List.map id (platforms s) ->
  List.map id (tempTabs x) = List.map id (tempTabs s) ->
  unique_ids x.
Proof.
  rewrite !unique_ids_iff. intros Hu Hp ->. now rewrite Hp.
Qed.

Lemma handle_keeps_unique (e : Event) (s : State) :
  unique_ids s -> is_load e = false ->
  unique_ids (next (handle host e s))
  \/ exists p, adds_record s (next (handle host e s)) p
               /\ In (id p) (List.map id (platforms s ++ tempTabs s)).
Proof.
  intros Hu He.
  assert (Hquick : forall now,
            unique_ids (next (handleQuickAdd host now s))
            \/ exists p, adds_record s (next (handleQuickAdd host now s)) p
                         /\ In (id p) (List.map id (platforms s ++ tempTabs s))).
  { intros now. unfold handleQuickAdd.
    destruct (is_empty (trim (quickUrl s))); [now left|].
    eapply added_unique_or_taken; [exact Hu|]. right. split; reflexivity. }
  destruct e; try discriminate He; cbn [handle];
    try (left; unfold_handlers; repeat case_match; cbn; exact Hu).
  - (* NewTabRequest *)
    unfold onNewTabRequest. destruct (is_empty (or_else payload [])); [now left|].
    eapply added_unique_or_taken; [exact Hu|]. right. split; reflexivity.
  - (* AddPlatform *)
    destruct (showAddForm s); [|now left]. unfold handleAddPlatform.
    destruct (_ || _); [now left|].
    eapply added_unique_or_taken; [exact Hu|]. left. split; reflexivity.
  - (* RemovePlatform *)
    left. destruct (existsb _ _); [|exact Hu]. unfold handleRemovePlatform.
    apply unique_ids_iff. cbn [next platforms tempTabs setPlatforms].
    assert (Ht : forall b : bool,
              tempTabs (if b then setActiveTab (first_id (without i (platforms s))) s
                        else s) = tempTabs s) by now intros [].
    rewrite Ht. now apply unique_without_l, unique_ids_iff.
  - (* MovePlatform *)
    left. destruct (index <? length (platforms s))%nat eqn:Hi; [|exact Hu].
    apply Nat.ltb_lt in Hi.
    destruct (move_updater_permutes (platforms s) index direction Hi) as [Hp _].
    apply (unique_same_ids s); [exact Hu | | reflexivity].
    cbn [handleMovePlatform next platforms setPlatforms].
    now apply Permutation_map.
  - (* PanelItemClick *)
    left. destruct (platforms s !! index) as [p|]; [|exact Hu].
    unfold onPanelItemClick. destruct (is_hidden p); [|exact Hu].
    apply (unique_same_ids s); [exact Hu | | reflexivity].
    cbn [next platforms setPlatforms setActiveTab].
    now rewrite ids_rewritten.
  - (* CloseTab *)
    left. destruct (in_strip i s); [|exact Hu]. unfold handleCloseTab.
    destruct (existsb _ _).
    + apply unique_ids_iff. cbn [next platforms tempTabs setTempTabs].
      assert (Hp : forall (b : bool) a,
                platforms (if b then setActiveTab a s else s) = platforms s)
        by now intros [].
      rewrite Hp. now apply unique_without_r, unique_ids_iff.
    + apply (unique_same_ids s); [exact Hu | |].
      * cbn [next platforms setPlatforms]. now rewrite ids_rewritten.
      * cbn [next tempTabs setPlatforms]. now destruct (str_eqb _ _).
  - (* PlusClick *)
    unfold onPlusClick. destruct (showSettings s); [now left|].
    destruct (showQuickAdd s); cbn [negb]; [now left|].
    eapply added_unique_or_taken; [exact Hu|]. right. split; reflexivity.
  - (* QuickConfirm *)
    destruct (showQuickAdd s); [|now left]. unfold onQuickConfirm.
    destruct (List.find _ _) as [t|]; [|apply Hquick].
    destruct (blank_url t); [|apply Hquick].
    destruct (is_empty (normalizeUrl (quickUrl s))); [now left|]. left.
    apply (unique_same_ids s); [exact Hu | reflexivity |].
    cbn [next tempTabs resetQuickAdd setShowQuickAdd setTempTabs setQuickName
         setQuickUrl].
    now rewrite ids_rewritten.
  - (* QuickCancel *)
    left. destruct (showQuickAdd s); [|exact Hu]. unfold onQuickCancel.
    destruct (List.find _ _) as [t|]; [|exact Hu].
    destruct (blank_url t); [|exact Hu].
    apply unique_ids_iff.
    cbn [next platforms tempTabs setTempTabs setActiveTab resetQuickAdd
         setShowQuickAdd setQuickName setQuickUrl].
    now apply unique_without_r, unique_ids_iff.
Qed.

(** X19. Ids stay unique across persistent and ephemeral tabs under every
    event other than the startup load, with one exception: an event that
    creates a record (add form, quick add, [+], pop-out request) whose
    generated id, built from the clock, is already in use. *)
Theorem ids_stay_unique_unless_taken (s : State) (e : Event) :
  unique_ids s -> is_load e = false ->
  let s' := fst (step host s e) in
  unique_ids s'
  \/ exists p, adds_record s s' p
               /\ In (id p) (List.map id (platforms s ++ tempTabs s)).
Proof.
  intros Hu He s'.
  assert (Hp : platforms s' = platforms (next (handle host e s)))
    by apply step_platforms.
  assert (Ht : tempTabs s' = tempTabs (next (handle host e s)))
    by apply step_tempTabs.
  destruct (handle_keeps_unique e s Hu He) as [H | (p & Ha & Hin)].
  - left. apply unique_ids_iff. rewrite Hp, Ht. now apply unique_ids_iff.
  - right. exists p. split; [|exact Hin]. unfold adds_record in *.
    now rewrite Hp, Ht.
Qed.

Lemma new_tab_tempTabs (s : State) (payload : jsstring) (now : N) :
  payload <> [] ->
  tempTabs (fst (step host s (NewTabRequest payload now)))
  = tempTabs s ++ [requested_tab host payload now].
Proof.
  intros Hne. rewrite step_tempTabs. cbn [handle]. unfold onNewTabRequest.
  rewrite (or_else_nonempty payload [] Hne).
  apply is_empty_false in Hne. now rewrite Hne.
Qed.

(** X20. The id of a requested tab depends on the clock alone: two pop-out
    requests that arrive within the same millisecond produce two ephemeral
    tabs with the same id, whatever their urls. *)
Theorem same_time_requests_share_id (s : State) (p1 p2 : jsstring) (now : N) :
  p1 <> [] -> p2 <> [] ->
  let s' := fst (run host s [NewTabRequest p1 now; NewTabRequest p2 now]) in
  tempTabs s' = tempTabs s ++ [requested_tab host p1 now;
                               requested_tab host p2 now]
  /\ id (requested_tab host p1 now) = id (requested_tab host p2 now)
  /\ ~ unique_ids s'.
Proof.
  intros H1 H2 s'.
  assert (Ht : tempTabs s' = tempTabs s ++ [requested_tab host p1 now;
                                            requested_tab host p2 now]).
  { unfold s'. rewrite !run_cons. cbn [run fst].
    rewrite (new_tab_tempTabs _ p2 now H2), (new_tab_tempTabs s p1 now H1).
    now rewrite <- app_assoc. }
  split; [exact Ht|]. split; [reflexivity|].
  intros Hu. apply unique_ids_iff, NoDup_app in Hu as (_ & _ & Hu).
  rewrite Ht, List.map_app in Hu. apply NoDup_app in Hu as (_ & _ & Hu).
  cbn [List.map] in Hu. apply NoDup_cons in Hu as [Hu _].
  apply Hu. apply list_elem_of_here.
Qed.

End UniqueIds.

Lemma ids_stay_unique_unless_taken_witness :
  unique_ids two_tabs
  /\ unique_ids (fst (step sample_host two_tabs (RemovePlatform (lit "a")))).
Proof.
  assert (Hu : unique_ids two_tabs).
  { unfold unique_ids. vm_compute. repeat constructor;
      rewrite ?list_elem_of_In; cbn; intuition discriminate. }
  split; [exact Hu|].
  destruct (ids_stay_unique_unless_taken sample_host two_tabs
              (RemovePlatform (lit "a")) Hu eq_refl) as [H | (p & Ha & _)];
    [exact H|].
  exfalso. destruct Ha as [[Ha _] | [Ha _]]; vm_compute in Ha;
    discriminate Ha.
Defined.

Lemma same_time_requests_share_id_witness :
  ~ unique_ids (fst (run sample_host two_tabs
                       [NewTabRequest (lit "https://example.com/x") 5;
                        NewTabRequest (lit "about:blank") 5])).
Proof.
  now destruct (same_time_requests_share_id sample_host two_tabs
                  (lit "https://example.com/x") (lit "about:blank") 5)
    as (_ & _ & H).
Defined.

(** ** Presets *)

Section Presets.

Context (host : Host).

Lemma presets_ready :
  Forall (fun p => trim (name p) = name p /\ name p <> []
                   /\ trim (url p) <> []
                   /\ normalizeUrl (url p) = url p) POPULAR_PLATFORMS.
Proof.
  repeat constructor; try discriminate; vm_compute; try reflexivity;
    discriminate.
Qed.

(** X21. Choosing a preset in the add form and confirming appends a platform
    with exactly the preset's name and url: every preset name is already
    trimmed and every preset url already normalized.  The preset's own id
    is not used: the id is derived from the name and the clock like that of
    any other platform.  Choosing the custom entry or the prompt clears the
    fields, so that confirming does nothing until they are filled. *)
Theorem preset_is_added_as_listed (s : State) (now : N) :
  showAddForm s = true ->
  (forall i preset,
     POPULAR_PLATFORMS !! i = Some preset ->
     let s1 := snd (handlePresetSelect (ChoiceIndex i) s) in
     platforms (fst (step host s1 (AddPlatform now)))
     = platforms s
       ++ [mkPlatform (slug host (name preset) ++ lit "-" ++ show_number now)
             (name preset) (url preset) None])
  /\ (forall c,
        c = ChoiceCustom \/ c = ChoicePrompt ->
        let s1 := snd (handlePresetSelect c s) in
        step host s1 (AddPlatform now) = (s1, [])).
Proof.
  intros Hf. split.
  - intros i preset Hi s1.
    pose proof presets_ready as Hr. rewrite List.Forall_forall in Hr.
    destruct (Hr preset (lookup_In _ _ _ Hi)) as (Hn1 & Hn2 & Hu1 & Hu2).
    assert (Hs1 : s1 = setNewUrl (url preset) (setNewName (name preset) s)).
    { unfold s1, handlePresetSelect. cbn [snd]. now rewrite Hi. }
    rewrite step_platforms, Hs1.
    rewrite add_handled;
      [| exact Hf
       | cbn [newName setNewUrl setNewName]; now rewrite Hn1
       | exact Hu1 ].
    cbn [next platforms setActiveTab resetAddForm setShowAddForm setNewName
         setNewUrl setPlatforms].
    unfold added_platform. cbn [newName newUrl setNewUrl setNewName].
    now rewrite Hn1, Hu2.
  - intros c Hc s1. apply step_unchanged. cbn [handle].
    assert (Hs1 : s1 = setNewUrl [] (setNewName [] s)).
    { unfold s1. now destruct Hc as [-> | ->]. }
    rewrite Hs1. cbn [showAddForm setNewUrl setNewName]. rewrite Hf.
    reflexivity.
Qed.

End Presets.

Lemma preset_is_added_as_listed_witness :
  platforms
    (fst (step sample_host
            (snd (handlePresetSelect (ChoiceIndex 0)
                    (setShowAddForm true initial)))
            (AddPlatform 3)))
  = [mkPlatform (lit "chatgpt-3") (lit "ChatGPT") (lit "https://chatgpt.com") None].
Proof.
  destruct (preset_is_added_as_listed sample_host (setShowAddForm true initial) 3
              eq_refl) as [H _].
  exact (H 0%nat _ eq_refl).
Defined.

(** ** Icons *)

Section IconProperties.

Context (host : Host) (iconModules : list (jsstring * jsstring)).

Lemma includes_empty (s : jsstring) : includes s [] = true.
Proof. destruct s; reflexivity. Qed.

Lemma first_icon_spec (terms : list jsstring) (icons : list (jsstring * jsstring)) :
  match first_icon host terms icons with
  | None => forall path src, In (path, src) icons ->
                             icon_matches host terms path = false
  | Some src =>
      exists before path after,
        icons = before ++ (path, src) :: after
        /\ icon_matches host terms path = true
        /\ forall e, In e before -> icon_matches host terms (fst e) = false
  end.
Proof.
  induction icons as [|[path src] rest IH]; cbn [first_icon].
  - intros path src [].
  - destruct (icon_matches host terms path) eqn:E.
    + exists [], path, rest. split; [reflexivity|]. split; [exact E|].
      intros e [].
    + destruct (first_icon host terms rest) as [src'|].
      * destruct IH as (before & p & after & -> & Hm & Hb).
        exists ((path, src) :: before), p, after.
        split; [reflexivity|]. split; [exact Hm|].
        intros e [<- | He]; [exact E | now apply Hb].
      * intros p s' [[= <- <-] | Hin]; [exact E | now apply (IH p s')].
Qed.

(** X22. [getIconUrl] answers with the url of the first icon file, in the
    order the files are enumerated, whose lower-cased file name contains
    one of the search terms, and with [null] exactly when no file name
    does. *)
Theorem icon_is_first_match (id name : jsstring) :
  (getIconUrl host iconModules id name = None
   <-> forall path src, In (path, src) iconModules ->
                        icon_matches host (searchTerms host id name) path = false)
  /\ (forall src,
        getIconUrl host iconModules id name = Some src ->
        exists before path after,
          iconModules = before ++ (path, src) :: after
          /\ icon_matches host (searchTerms host id name) path = true
          /\ forall e, In e before ->
                       icon_matches host (searchTerms host id name) (fst e) = false).
Proof.
  unfold getIconUrl.
  pose proof (first_icon_spec (searchTerms host id name) iconModules) as H.
  destruct (first_icon host (searchTerms host id name) iconModules) as [src|].
  - split.
    + split; [discriminate|]. intros Hn.
      destruct H as (before & path & after & E & Hm & _).
      rewrite (Hn path src) in Hm; [discriminate|].
      rewrite E. apply in_app_iff. right. now left.
    + intros src' [= <-]. exact H.
  - split; [split; [intros _; exact H | reflexivity] | discriminate].
Qed.

Lemma icon_matches_term (terms : list jsstring) (path term : jsstring) :
  In term terms -> includes (icon_filename host path) term = true ->
  icon_matches host terms path = true.
Proof.
  intros Hin Hi. unfold icon_matches. apply List.existsb_exists. eauto.
Qed.

(** X23. The search is by containment, so a record whose lower-cased id or
    name is empty matches every file: it gets the first icon there is.  A
    record whose id or name contains [chatgpt], [tongyi] or [minimax] also
    matches the files named after [openai], [qwen] and [minimax]. *)
Theorem icon_search_edge_cases (id name : jsstring) :
  (toLowerCase host id = [] \/ toLowerCase host name = [] ->
   getIconUrl host iconModules id name
   = match iconModules with
     | [] => None
     | (_, src) :: _ => Some src
     end)
  /\ (forall path key file,
        In (key, file) [(lit "chatgpt", lit "openai"); (lit "tongyi", lit "qwen");
                        (lit "minimax", lit "minimax")] ->
        includes (toLowerCase host id) key = true
        \/ includes (toLowerCase host name) key = true ->
        includes (icon_filename host path) file = true ->
        icon_matches host (searchTerms host id name) path = true).
Proof.
  split.
  - intros He. unfold getIconUrl.
    destruct iconModules as [|[path src] rest]; [reflexivity|].
    cbn [first_icon].
    assert (Hm : icon_matches host (searchTerms host id name) path = true).
    { apply (icon_matches_term _ _ []); [|apply includes_empty].
      unfold searchTerms. cbn [app].
      destruct He as [-> | ->]; [now left | right; now left]. }
    now rewrite Hm.
  - intros path key file Hk Hc Hf.
    apply (icon_matches_term _ _ file); [|exact Hf].
    unfold searchTerms. cbn [app]. right. right.
    destruct Hk as [[= <- <-] | [[= <- <-] | [[= <- <-] | []]]].
    + assert (E : includes (toLowerCase host id) (lit "chatgpt")
                  || includes (toLowerCase host name) (lit "chatgpt") = true)
        by (apply orb_true_iff; exact Hc).
      rewrite E. now left.
    + assert (E : includes (toLowerCase host id) (lit "tongyi")
                  || includes (toLowerCase host name) (lit "tongyi") = true)
        by (apply orb_true_iff; exact Hc).
      rewrite E. apply in_app_iff. right. now left.
    + assert (E : includes (toLowerCase host name) (lit "minimax")
                  || includes (toLowerCase host id) (lit "minimax") = true)
        by (apply orb_true_iff; tauto).
      rewrite E. apply in_app_iff. right. apply in_app_iff. right. now left.
Qed.

(** X24. The fallback chain of [PlatformIcon] has two stages.  Once an image
    has failed, the component renders the site's favicon when the url is
    given and parses, and the globe otherwise, never the local icon; and
    that rendering is final: a favicon that fails to load is rendered
    again, it is not replaced by the globe. *)
Theorem icon_fallback_is_final (platformId platformName : jsstring)
    (url : option jsstring) (size : N) (error : bool) :
  let render := PlatformIcon host iconModules platformId platformName url size in
  let failed := onError (render error) error in
  (forall src sz, render true <> LocalIcon src sz)
  /\ (render error <> Globe size -> failed = true)
  /\ (failed = true -> render (onError (render failed) failed) = render failed)
  /\ (render true
      = match url with
        | Some u =>
            match URL_hostname host u with
            | Some domain =>
                if is_empty u then Globe size
                else Favicon (lit "https://www.google.com/s2/favicons?domain="
                              ++ domain ++ lit "&sz=" ++ show_number (size * 2))
                       size
            | None => Globe size
            end
        | None => Globe size
        end).
Proof.
  cbn zeta.
  assert (Ht : PlatformIcon host iconModules platformId platformName url size true
               = match url with
                 | Some u =>
                     match URL_hostname host u with
                     | Some domain =>
                         if is_empty u then Globe size
                         else Favicon (lit "https://www.google.com/s2/favicons?domain="
                                       ++ domain ++ lit "&sz="
                                       ++ show_number (size * 2)) size
                     | None => Globe size
                     end
                 | None => Globe size
                 end).
  { unfold PlatformIcon. rewrite orb_true_r.
    destruct url as [u|]; [|reflexivity].
    destruct (is_empty u), (URL_hostname host u); reflexivity. }
  split; [|split; [|split; [|exact Ht]]].
  - intros src sz. rewrite Ht.
    destruct url as [u|]; [|discriminate].
    destruct (URL_hostname host u); [destruct (is_empty u)|]; discriminate.
  - intros Hg.
    destruct (PlatformIcon host iconModules platformId platformName url size error)
      as [src sz | src sz | sz] eqn:E; try reflexivity.
    exfalso. apply Hg. f_equal.
    unfold PlatformIcon in E.
    destruct (_ || error);
      [destruct url as [u|];
         [destruct (is_empty u); [|destruct (URL_hostname host u)]|]
      | destruct (getIconUrl host iconModules platformId platformName)];
      congruence.
  - intros ->.
    assert (Hstay : forall r, onError r true = true) by now intros [].
    now rewrite Hstay.
Qed.

End IconProperties.

Lemma icon_search_edge_cases_witness :
  getIconUrl sample_host sample_icons (lit "tmp-new-9") [] = Some (lit "/assets/claude.svg")
  /\ getIconUrl sample_host sample_icons (lit "chatgpt-3") (lit "ChatGPT")
     = Some (lit "/assets/openai.svg").
Proof.
  destruct (icon_search_edge_cases sample_host sample_icons (lit "tmp-new-9") [])
    as [H _].
  split; [apply H; now right | vm_compute; reflexivity].
Defined.

(** ** The earlier url rule *)

Lemma starts_with_http_has_scheme (t : jsstring) :
  starts_with (lit "http://") t || starts_with (lit "https://") t = true ->
  has_scheme t = true.
Proof.
  intros H. apply orb_true_iff in H as [H | H];
    apply starts_with_spec in H as [rest ->]; reflexivity.
Qed.

(** X25. On a text that is not blank, [normalizeUrl] gives the same url as
    the rule of the earlier add handler exactly when the trimmed text has
    no scheme or begins with [http://] or [https://] in lower case; a text
    with any other scheme was prefixed with [https://] by the earlier rule
    and is kept as it is by [normalizeUrl]. *)
Theorem url_rule_against_earlier (v : jsstring) :
  trim v <> [] ->
  (earlier_final_url v = normalizeUrl v
   <-> (has_scheme (trim v) = true ->
        starts_with (lit "http://") (trim v)
        || starts_with (lit "https://") (trim v) = true))
  /\ (earlier_final_url v <> normalizeUrl v ->
      earlier_final_url v = lit "https://" ++ trim v /\ normalizeUrl v = trim v).
Proof.
  intros Hne. unfold earlier_final_url, normalizeUrl.
  apply is_empty_false in Hne. rewrite Hne. cbn zeta.
  rewrite <- negb_orb.
  destruct (starts_with (lit "http://") (trim v)
            || starts_with (lit "https://") (trim v)) eqn:Hs; cbn [negb].
  - rewrite (starts_with_http_has_scheme _ Hs). split; [tauto | congruence].
  - destruct (has_scheme (trim v)) eqn:Hh.
    + assert (Hd : lit "https://" ++ trim v <> trim v).
      { intros E. apply (f_equal (@length N)) in E.
        rewrite length_app in E. cbn in E. lia. }
      split; [|auto]. split; [congruence | intros H; now specialize (H eq_refl)].
    + split; [split; [discriminate | reflexivity] | congruence].
Qed.

Lemma url_rule_against_earlier_witness :
  earlier_final_url (lit "ftp://files.example") = lit "https://ftp://files.example"
  /\ normalizeUrl (lit "ftp://files.example") = lit "ftp://files.example"
  /\ earlier_final_url (lit " chat.deepseek.com") = normalizeUrl (lit " chat.deepseek.com").
Proof.
  assert (H1 : trim (lit "ftp://files.example") <> []) by (vm_compute; discriminate).
  assert (H2 : trim (lit " chat.deepseek.com") <> []) by (vm_compute; discriminate).
  destruct (url_rule_against_earlier _ H1) as [_ Hd].
  destruct (url_rule_against_earlier _ H2) as [[_ He] _].
  destruct Hd as [Ha Hb]; [vm_compute; discriminate|].
  split; [exact Ha|]. split; [exact Hb|].
  apply He. vm_compute. discriminate.
Defined.

(** ** Quick add *)

Section QuickAdd.

Context (host : Host).

(** X26. Confirming the popover while the active tab is not a blank
    placeholder opens a further ephemeral tab: one record is appended, with
    the normalized url (never blank), the typed name or else the name
    derived from the url, and an id that begins with [tmp-]; the popover is
    closed and cleared, the platforms are untouched and nothing is written;
    the new tab becomes the active one unless a hidden platform carries the
    generated id. *)
Theorem quick_add_appends (s : State) (now : N) :
  showQuickAdd s = true -> trim (quickUrl s) <> [] ->
  (forall t, List.find (has_id (activeTab s)) (tempTabs s) = Some t ->
             blank_url t = false) ->
  let p := quick_added host now s in
  let s' := fst (step host s (QuickConfirm now)) in
  tempTabs s' = tempTabs s ++ [p]
  /\ platforms s' = platforms s
  /\ stored_url p /\ ephemeral_shape p
  /\ (trim (quickName s) <> [] -> name p = trim (quickName s))
  /\ showQuickAdd s' = false /\ quickName s' = [] /\ quickUrl s' = []
  /\ writes (snd (step host s (QuickConfirm now))) = 0%nat
  /\ ((forall q, In q (platforms s) -> id q = id p -> is_hidden q = false) ->
      activeTab s' = id p).
Proof.
  intros Hq Hu Hnb p s'.
  set (x := setActiveTab (id p)
              (resetQuickAdd
                 (setShowQuickAdd false (setTempTabs (tempTabs s ++ [p]) s)))).
  assert (Hqa : handleQuickAdd host now s = mkHandled x false true []).
  { unfold handleQuickAdd. apply is_empty_false in Hu. now rewrite Hu. }
  assert (Hh : handle host (QuickConfirm now) s = mkHandled x false true []).
  { cbn [handle]. rewrite Hq. unfold onQuickConfirm.
    destruct (List.find (has_id (activeTab s)) (tempTabs s)) as [t|] eqn:F;
      [|exact Hqa].
    now rewrite (Hnb t eq_refl). }
  assert (Hs' : s' = match reconcile x with
                     | Some a => setActiveTab a x
                     | None => x
                     end).
  { unfold s'. now rewrite (step_state_of_handled host s _ _ Hh). }
  assert (Hname : name p <> []).
  { apply or_else_nonempty_r, derived_name_never_empty. }
  split; [rewrite Hs'; now destruct (reconcile x)|].
  split; [rewrite Hs'; now destruct (reconcile x)|].
  split; [now apply stored_url_normalized|].
  split; [split; [reflexivity | exact Hname]|].
  split; [intros Hn; now apply or_else_nonempty|].
  split; [rewrite Hs'; now destruct (reconcile x)|].
  split; [rewrite Hs'; now destruct (reconcile x)|].
  split; [rewrite Hs'; now destruct (reconcile x)|].
  split.
  - rewrite step_writes. cbn zeta. rewrite Hh. cbn [newPlatforms next orb].
    assert (Hi : initialized x = initialized s) by reflexivity.
    now rewrite Hi, xorb_nilpotent.
  - intros Hfresh. rewrite Hs'.
    assert (R : reconcile x = None).
    { apply reconcile_None_iff. right. split; [discriminate|].
      intros q Fq. apply List.find_some in Fq as [Hin Hid].
      apply has_id_eq in Hid. now apply Hfresh. }
    now rewrite R.
Qed.

End QuickAdd.

Lemma quick_add_appends_witness :
  let s := setQuickUrl (lit "chat.deepseek.com") (setShowQuickAdd true two_tabs) in
  tempTabs (fst (step sample_host s (QuickConfirm 4)))
  = [mkPlatform (lit "tmp-chat.deepseek.com-4") (lit "chat.deepseek.com")
       (lit "https://chat.deepseek.com") None]
  /\ activeTab (fst (step sample_host s (QuickConfirm 4)))
     = lit "tmp-chat.deepseek.com-4".
Proof.
  cbn zeta.
  destruct (quick_add_appends sample_host
              (setQuickUrl (lit "chat.deepseek.com")
                 (setShowQuickAdd true two_tabs)) 4)
    as (Ht & _ & _ & _ & _ & _ & _ & _ & _ & Ha);
    [reflexivity | vm_compute; discriminate | intros t [=] |].
  split; [exact Ht|]. apply Ha.
  intros q [<- | [<- | []]]; reflexivity.
Defined.

(** ** Moving a platform in the settings panel *)

Section Moving.

Context (host : Host).

Lemma move_step_platforms (s : State) (index : nat) (direction : Direction) :
  (index < length (platforms s))%nat ->
  platforms (fst (step host s (MovePlatform index direction)))
  = elements (move_updater index direction (platforms s)).
Proof.
  intros Hn. rewrite step_platforms. cbn [handle].
  destruct (Nat.ltb_spec index (length (platforms s))) as [_|Hge]; [|lia].
  reflexivity.
Qed.

(** C6. Clicking a move button of the row at a position of the list
    installs a new platform list: moving up (when the row is not the
    first) exchanges the record with its predecessor, moving down (when it
    is not the last) exchanges it with its successor, moving the first up
    or the last down leaves the list as it is; in every case the list
    holds the same records, only in another order, and the ephemeral tabs
    are untouched. *)
Theorem move_platform_swaps_neighbours (s : State) (index : nat) :
  (index < length (platforms s))%nat ->
  let moved direction :=
    platforms (fst (step host s (MovePlatform index direction))) in
  ((0 < index)%nat ->
   exists l1 a b l2,
     platforms s = l1 ++ a :: b :: l2 /\ length l1 = (index - 1)%nat
     /\ moved up = l1 ++ b :: a :: l2)
  /\ ((index < length (platforms s) - 1)%nat ->
      exists l1 a b l2,
        platforms s = l1 ++ a :: b :: l2 /\ length l1 = index
        /\ moved down = l1 ++ b :: a :: l2)
  /\ platforms (fst (step host s (MovePlatform 0 up))) = platforms s
  /\ platforms (fst (step host s
                       (MovePlatform (length (platforms s) - 1) down)))
     = platforms s
  /\ (forall direction,
        moved direction ≡ₚ platforms s
        /\ tempTabs (fst (step host s (MovePlatform index direction)))
           = tempTabs s).
Proof.
  intros Hn moved.
  destruct (move_updater_swaps (platforms s) index Hn)
    as (Hup & Hdown & Hfirst & Hlast & Hperm).
  split; [|split; [|split; [|split]]].
  - intros H0. destruct (Hup H0) as (l1 & a & b & l2 & E & L & M).
    exists l1, a, b, l2. split; [exact E|]. split; [exact L|].
    unfold moved. rewrite (move_step_platforms s index up Hn), M.
    apply elements_fmap_Some.
  - intros H1. destruct (Hdown H1) as (l1 & a & b & l2 & E & L & M).
    exists l1, a, b, l2. split; [exact E|]. split; [exact L|].
    unfold moved. rewrite (move_step_platforms s index down Hn), M.
    apply elements_fmap_Some.
  - rewrite move_step_platforms by lia. rewrite Hfirst.
    apply elements_fmap_Some.
  - rewrite move_step_platforms by lia. rewrite Hlast.
    apply elements_fmap_Some.
  - intros direction. split.
    + unfold moved. rewrite (move_step_platforms s index direction Hn).
      apply Hperm.
    + rewrite step_tempTabs. cbn [handle].
      now destruct (index <? length (platforms s))%nat.
Qed.

End Moving.

Lemma move_platform_swaps_neighbours_witness :
  platforms (fst (step sample_host two_tabs (MovePlatform 1 up))) = [tabB; tabA]
  /\ platforms (fst (step sample_host two_tabs (MovePlatform 0 up)))
     = [tabA; tabB]
  /\ platforms (fst (step sample_host two_tabs (MovePlatform 1 down)))
     = [tabA; tabB].
Proof.
  assert (H : (1 < length (platforms two_tabs))%nat) by (cbn; lia).
  destruct (move_platform_swaps_neighbours sample_host two_tabs 1 H)
    as (Hup & _ & Hfirst & Hlast & _).
  split; [|split; [exact Hfirst | exact Hlast]].
  destruct Hup as (l1 & a & b & l2 & E & L & M); [lia|].
  destruct l1 as [|x l1]; [|discriminate L].
  cbn in E. injection E as <- <- <-. exact M.
Defined.

(** ** Startup against the two stores *)

Section StartupStores.

Context (host : Host).

Lemma startup_load_unfold (st : Stores) (s : State) :
  startup_load host st s
  = (fst (step host s (LoadResolved (snd (loadPlatformsAsync host st)))),
     fst (loadPlatformsAsync host st)
     ++ snd (step host s (LoadResolved (snd (loadPlatformsAsync host st))))).
Proof.
  unfold startup_load. destruct (loadPlatformsAsync host st) as [cmds loaded].
  cbn [fst snd]. now destruct (step host s (LoadResolved loaded)).
Qed.

Lemma legacy_write_of_persist (l : list Cmd) :
  List.filter is_legacy_write l
  = List.filter is_legacy_write (List.filter is_persist l).
Proof.
  induction l as [|c l IH]; [reflexivity|].
  destruct c; cbn; rewrite <- ?IH; reflexivity.
Qed.

Lemma no_legacy_write_filter (l : list Cmd) :
  (forall data, ~ In (LocalStorageSet data) l) ->
  List.filter is_legacy_write l = [].
Proof.
  induction l as [|c l IH]; [reflexivity|]. intros H.
  assert (Hl : forall data, ~ In (LocalStorageSet data) l).
  { intros d Hd. apply (H d). now right. }
  destruct c; cbn; try (now apply IH).
  exfalso. eapply H. left. reflexivity.
Qed.

(** C7, amended. The legacy location is read exactly when the primary
    location yields no usable data; usable legacy data is returned and
    written back to the primary location at once; when neither location
    has usable data the load resolves to the empty list; the load itself
    never writes to the legacy location.  But once the load has resolved,
    the save effect stores the loaded list in both locations: at every
    startup the legacy location is written once, with the loaded list, so
    a list read from the primary location is copied to the legacy one. *)
Theorem load_falls_back_and_migrates (st : Stores) :
  (In LocalStorageGet (fst (loadPlatformsAsync host st))
   <-> primary_unusable host st)
  /\ (forall data items,
        primary st = Some data -> usable host data items ->
        loadPlatformsAsync host st = ([InvokeLoadPlatforms], items))
  /\ (primary_unusable host st ->
      forall saved items,
        legacy_usable host st saved items ->
        loadPlatformsAsync host st
        = ([InvokeLoadPlatforms; LocalStorageGet; InvokeSavePlatforms saved],
           items))
  /\ (primary_unusable host st -> legacy_unusable host st ->
      loadPlatformsAsync host st = ([InvokeLoadPlatforms; LocalStorageGet], []))
  /\ (forall data, ~ In (LocalStorageSet data) (fst (loadPlatformsAsync host st)))
  /\ (forall s,
        initialized s = false ->
        let loaded := snd (loadPlatformsAsync host st) in
        platforms (fst (startup_load host st s)) = loaded
        /\ List.filter is_legacy_write (snd (startup_load host st s))
           = [LocalStorageSet (JSON_stringify host loaded)])
  /\ (forall s data items,
        initialized s = false ->
        primary st = Some data -> usable host data items ->
        List.filter is_persist (snd (startup_load host st s))
        = [InvokeSavePlatforms (JSON_stringify host items);
           LocalStorageSet (JSON_stringify host items)]).
Proof.
  destruct (loadPlatformsAsync_cases host st)
    as (Hread & Hprim & Hmig & Hnone & Hnoset).
  split; [exact Hread|]. split; [exact Hprim|]. split; [exact Hmig|].
  split; [exact Hnone|]. split; [exact Hnoset|]. split.
  - intros s Hi loaded. rewrite startup_load_unfold. cbn [fst snd]. split.
    + rewrite step_platforms. cbn [handle]. rewrite Hi.
      unfold onLoaded. cbn [next].
      now destruct (0 <? length _)%nat.
    + rewrite List.filter_app, (no_legacy_write_filter _ Hnoset).
      rewrite legacy_write_of_persist, (load_step_persists host s _ Hi).
      reflexivity.
  - intros s data items Hi Hp Hu. rewrite startup_load_unfold. cbn [fst snd].
    rewrite (Hprim data items Hp Hu). cbn [fst snd app List.filter is_persist].
    now apply load_step_persists.
Qed.

End StartupStores.

Lemma load_falls_back_and_migrates_witness :
  primary_unusable sample_host legacy_only
  /\ legacy_usable sample_host legacy_only (lit "[a]") [tabA]
  /\ loadPlatformsAsync sample_host legacy_only
     = ([InvokeLoadPlatforms; LocalStorageGet; InvokeSavePlatforms (lit "[a]")],
        [tabA])
  /\ List.filter is_legacy_write (snd (startup_load sample_host primary_only initial))
     = [LocalStorageSet (sample_stringify [tabA])].
Proof.
  assert (Hp : primary_unusable sample_host legacy_only).
  { right. exists (lit "[]"). split; [reflexivity|]. right. right. reflexivity. }
  assert (Hl : legacy_usable sample_host legacy_only (lit "[a]") [tabA]).
  { split; [reflexivity|]. split; [discriminate|]. split; [reflexivity | discriminate]. }
  split; [exact Hp|]. split; [exact Hl|]. split.
  - destruct (load_falls_back_and_migrates sample_host legacy_only)
      as (_ & _ & Hmig & _).
    exact (Hmig Hp (lit "[a]") [tabA] Hl).
  - destruct (load_falls_back_and_migrates sample_host primary_only)
      as (_ & _ & _ & _ & _ & Hstart & _).
    destruct (Hstart initial eq_refl) as [_ Hw]. exact Hw.
Defined.

(** C7 as stated fails: with one record in the primary location and
    nothing in the legacy one, the startup writes that record's list to the
    legacy location. *)
Lemma never_migrates_to_legacy_fails :
  ~ never_migrates_to_legacy sample_host primary_only initial.
Proof.
  intros H.
  specialize (H (lit "[a]") [tabA] eq_refl).
  assert (Hu : usable sample_host (lit "[a]") [tabA])
    by (split; [reflexivity | discriminate]).
  specialize (H Hu). vm_compute in H. discriminate.
Qed.
